(** * Spreadsheet semantic search: concept tagging, ranking and cell addresses

    A shallow embedding of [src/business_concepts.py] and
    [src/semantic_search.py], followed by the properties of the tagger, of the
    indexer, of the ranking engine and of the address encoder.

    Conventions of the embedding:
    - Python [str] is [string] over the 8-bit [ascii] alphabet; case folding,
      white space and word characters follow Python on the ASCII range and
      leave the other code points alone;
    - Python [int] is [Z]; Python [float] is [Q]: in [SemanticSearch] the
      arithmetic of the scores is exact, and [Rounded] gives the same scores
      with the rounding of every floating-point operation written out;
    - a [dict] that is only iterated is an association list in insertion
      order; [list(set(xs))] is [xs] without its duplicates (Python leaves the
      order of a set unspecified, and nothing below depends on it);
    - the sentence-transformer model, the cosine similarity and the printing
      of floats are fields of a record that every engine carries. *)

From Stdlib Require Import Bool List String Ascii ZArith QArith Qminmax Lia Lqa.
From Stdlib Require Import Sorted Permutation DecimalString.
From Stdlib Require DecimalPos DecimalZ.
From Stdlib Require Import Qabs Qround Qpower.
Import ListNotations.

Local Open Scope string_scope.
Local Open Scope Z_scope.

(* ================================================================== *)
(** * Python string primitives *)

Module PyStr.

(** Code point of a character, as Python's [ord]. *)
Definition ord (c : ascii) : Z := Z.of_nat (nat_of_ascii c).

(** Character of a code point, as Python's [chr] (on 0..255). *)
Definition chr (n : Z) : ascii := ascii_of_nat (Z.to_nat n).

Definition is_upper (c : ascii) : bool := (65 <=? ord c) && (ord c <=? 90).
Definition is_lower (c : ascii) : bool := (97 <=? ord c) && (ord c <=? 122).
Definition is_digit (c : ascii) : bool := (48 <=? ord c) && (ord c <=? 57).
Definition is_alpha (c : ascii) : bool := is_upper c || is_lower c.

(** [str.isspace] on one character: TAB, LF, VT, FF, CR, the four
    separators FS GS RS US, and the blank. *)
Definition isspace (c : ascii) : bool :=
  ((9 <=? ord c) && (ord c <=? 13)) || ((28 <=? ord c) && (ord c <=? 32)).

(** [\w] of the [re] module. *)
Definition is_word_char (c : ascii) : bool :=
  is_alpha c || is_digit c || (ord c =? 95).

Definition lower_char (c : ascii) : ascii :=
  if is_upper c then chr (ord c + 32) else c.

Definition upper_char (c : ascii) : ascii :=
  if is_lower c then chr (ord c - 32) else c.

(** [s.lower()] *)
Fixpoint lower (s : string) : string :=
  match s with
  | EmptyString => EmptyString
  | String c t => String (lower_char c) (lower t)
  end.

(** [bool(s)] of a string: non-empty. *)
Definition nonempty (s : string) : bool :=
  match s with EmptyString => false | String _ _ => true end.

(** [s.startswith(p)] *)
Definition startswith (s p : string) : bool := String.prefix p s.

(** [needle in hay] on strings: [needle] occurs as a contiguous substring. *)
Fixpoint str_in (needle hay : string) : bool :=
  String.prefix needle hay ||
  match hay with
  | EmptyString => false
  | String _ t => str_in needle t
  end.

(** [any(t in hay for t in terms)] *)
Definition any_in (terms : list string) (hay : string) : bool :=
  existsb (fun t => str_in t hay) terms.

(** [s.split()] without argument: maximal runs of non-space characters. *)
Fixpoint split_aux (cur : string) (s : string) : list string :=
  match s with
  | EmptyString => if nonempty cur then [cur] else []
  | String c t =>
      if isspace c
      then (if nonempty cur then cur :: split_aux EmptyString t
            else split_aux EmptyString t)
      else split_aux (cur ++ String c EmptyString) t
  end.

Definition split (s : string) : list string := split_aux EmptyString s.

Fixpoint lstrip (s : string) : string :=
  match s with
  | EmptyString => EmptyString
  | String c t => if isspace c then lstrip t else s
  end.

Fixpoint rstrip (s : string) : string :=
  match s with
  | EmptyString => EmptyString
  | String c t =>
      let t' := rstrip t in
      if isspace c && negb (nonempty t') then EmptyString else String c t'
  end.

(** [s.strip()] *)
Definition strip (s : string) : string := rstrip (lstrip s).

(** [sep.join(parts)] *)
Fixpoint join (sep : string) (parts : list string) : string :=
  match parts with
  | [] => EmptyString
  | [p] => p
  | p :: rest => p ++ sep ++ join sep rest
  end.

(** [s.replace(a, b)] for single characters [a] and [b]. *)
Fixpoint replace_char (a b : ascii) (s : string) : string :=
  match s with
  | EmptyString => EmptyString
  | String c t => String (if Ascii.eqb c a then b else c) (replace_char a b t)
  end.

(** [s.title()]: a letter that follows a non-letter is upper-cased, every
    other letter is lower-cased. *)
Fixpoint title_aux (prev_alpha : bool) (s : string) : string :=
  match s with
  | EmptyString => EmptyString
  | String c t =>
      String (if prev_alpha then lower_char c else upper_char c)
             (title_aux (is_alpha c) t)
  end.

Definition title (s : string) : string := title_aux false s.

(** [str(n)] of an [int]. *)
Definition str_int (n : Z) : string := NilZero.string_of_int (Z.to_int n).

(** [x in xs] on a list of strings. *)
Definition mem (x : string) (xs : list string) : bool :=
  existsb (String.eqb x) xs.

(** [list(set(xs))]: one occurrence of every element. *)
Fixpoint dedup (xs : list string) : list string :=
  match xs with
  | [] => []
  | x :: t => if mem x t then dedup t else x :: dedup t
  end.

(** [set(xs) & set(ys)] *)
Definition set_inter (xs ys : list string) : list string :=
  dedup (filter (fun x => mem x ys) xs).

End PyStr.
Import PyStr.

(* ================================================================== *)
(** * The fragment of [re] that the tagger uses *)

Module Regex.

(** One item of a pattern.  [Lit] is literal text, [OneOf] a group of
    literal alternatives such as [(yoy|qoq|mom)], [WordB] is [\b], and
    [Star cls] and [Plus cls] are [cls*] and [cls+] for a character class
    ([\s] is [isspace], [\w] is [is_word_char]). *)
Inductive atom : Type :=
| Lit (s : string)
| OneOf (alts : list string)
| WordB
| Star (cls : ascii -> bool)
| Plus (cls : ascii -> bool).

(** A pattern is a top-level alternation of sequences of items. *)
Definition pattern : Type := list (list atom).

Definition next_is_word (text : string) : bool :=
  match text with
  | EmptyString => false
  | String c _ => is_word_char c
  end.

(** Consume the literal [s] at the head of [text]; the boolean tracks
    whether the character before the current position is a word character. *)
Fixpoint eat (s : string) (prev : bool) (text : string) : option (bool * string) :=
  match s with
  | EmptyString => Some (prev, text)
  | String c s' =>
      match text with
      | EmptyString => None
      | String d t => if Ascii.eqb c d then eat s' (is_word_char d) t else None
      end
  end.

(** Zero or more characters of the class, then the continuation [k]. *)
Fixpoint many (cls : ascii -> bool) (k : bool -> string -> bool)
         (prev : bool) (text : string) : bool :=
  if k prev text then true
  else match text with
       | EmptyString => false
       | String c t => if cls c then many cls k (is_word_char c) t else false
       end.

(** Does the sequence match at the current position? *)
Fixpoint match_seq (atoms : list atom) : bool -> string -> bool :=
  match atoms with
  | [] => fun _ _ => true
  | a :: rest =>
      let k := match_seq rest in
      match a with
      | Lit s => fun prev text =>
          match eat s prev text with
          | Some (p, t) => k p t
          | None => false
          end
      | OneOf alts => fun prev text =>
          existsb (fun s => match eat s prev text with
                            | Some (p, t) => k p t
                            | None => false
                            end) alts
      | WordB => fun prev text =>
          if xorb prev (next_is_word text) then k prev text else false
      | Star cls => many cls k
      | Plus cls => fun prev text =>
          match text with
          | EmptyString => false
          | String c t => if cls c then many cls k (is_word_char c) t else false
          end
      end
  end.

Fixpoint search_from (p : pattern) (prev : bool) (text : string) : bool :=
  if existsb (fun atoms => match_seq atoms prev text) p then true
  else match text with
       | EmptyString => false
       | String c t => search_from p (is_word_char c) t
       end.

(** [bool(re.search(p, text))] *)
Definition re_search (p : pattern) (text : string) : bool :=
  search_from p false text.

(** [\bw\b] *)
Definition word (w : string) : list atom := [WordB; Lit w; WordB].

End Regex.
Import Regex.

(* ================================================================== *)
(** * [business_concepts.py]: the catalog and the tagger *)

Module BusinessConcepts.

Record BusinessConcept : Type := {
  name : string;
  synonyms : list string;
  keywords : list string;
  description : string;
  category : string
}.

(** [BusinessConceptMapper._initialize_business_concepts]: the dictionary
    from category to concepts, in the order of the source. *)
Definition concepts : list (string * list BusinessConcept) :=
  [
  ("profitability",
    [
     {| name := "gross profit margin";
        synonyms := ["gross margin"; "gross profit %"; "gross profitability"];
        keywords := ["gross"; "profit"; "margin"; "revenue"; "cogs"];
        description := "Measures profitability after cost of goods sold";
        category := "profitability" |};
     {| name := "net profit margin";
        synonyms := ["net margin"; "profit margin"; "net profitability"];
        keywords := ["net"; "profit"; "margin"; "bottom line"];
        description := "Overall profitability after all expenses";
        category := "profitability" |};
     {| name := "operating margin";
        synonyms := ["operating profit margin"; "EBIT margin"];
        keywords := ["operating"; "margin"; "ebit"];
        description := "Profitability from core operations";
        category := "profitability" |};
     {| name := "EBITDA";
        synonyms := ["earnings before interest tax depreciation amortization"];
        keywords := ["ebitda"; "earnings"; "cash flow proxy"];
        description := "Operating performance measure";
        category := "profitability" |};
     {| name := "return on investment";
        synonyms := ["ROI"; "return on assets"; "ROA"];
        keywords := ["roi"; "return"; "investment"; "efficiency"];
        description := "Efficiency of investment returns";
        category := "profitability" |}
    ]);
  ("revenue",
    [
     {| name := "total revenue";
        synonyms := ["sales"; "income"; "turnover"; "gross sales"];
        keywords := ["revenue"; "sales"; "income"; "total"];
        description := "Total income from business operations";
        category := "revenue" |};
     {| name := "revenue growth";
        synonyms := ["sales growth"; "income growth"; "top line growth"];
        keywords := ["growth"; "increase"; "yoy"; "qoq"];
        description := "Rate of revenue increase over time";
        category := "revenue" |};
     {| name := "recurring revenue";
        synonyms := ["subscription revenue"; "monthly recurring revenue"; "MRR"];
        keywords := ["recurring"; "subscription"; "monthly"; "mrr"];
        description := "Predictable revenue streams";
        category := "revenue" |}
    ]);
  ("costs",
    [
     {| name := "cost of goods sold";
        synonyms := ["COGS"; "direct costs"; "variable costs"];
        keywords := ["cogs"; "cost"; "goods"; "sold"; "direct"];
        description := "Direct costs of producing goods/services";
        category := "costs" |};
     {| name := "operating expenses";
        synonyms := ["OPEX"; "operational costs"; "overhead"];
        keywords := ["operating"; "expenses"; "opex"; "overhead"];
        description := "Costs of running business operations";
        category := "costs" |};
     {| name := "marketing spend";
        synonyms := ["marketing costs"; "advertising expenses"; "marketing investment"];
        keywords := ["marketing"; "advertising"; "promotion"; "spend"];
        description := "Investment in marketing and advertising";
        category := "costs" |};
     {| name := "total expenses";
        synonyms := ["total costs"; "all expenses"; "combined costs"];
        keywords := ["total"; "expenses"; "costs"; "all"];
        description := "Sum of all business expenses";
        category := "costs" |}
    ]);
  ("efficiency",
    [
     {| name := "asset turnover";
        synonyms := ["asset efficiency"; "asset utilization"];
        keywords := ["asset"; "turnover"; "efficiency"; "utilization"];
        description := "How efficiently assets generate revenue";
        category := "efficiency" |};
     {| name := "inventory turnover";
        synonyms := ["inventory efficiency"; "stock turnover"];
        keywords := ["inventory"; "turnover"; "stock"; "efficiency"];
        description := "How quickly inventory is sold";
        category := "efficiency" |};
     {| name := "working capital ratio";
        synonyms := ["current ratio"; "liquidity ratio"];
        keywords := ["working"; "capital"; "ratio"; "liquidity"];
        description := "Short-term financial health measure";
        category := "efficiency" |};
     {| name := "productivity ratio";
        synonyms := ["productivity measure"; "efficiency ratio"];
        keywords := ["productivity"; "efficiency"; "output"; "input"];
        description := "Output relative to input measure";
        category := "efficiency" |}
    ]);
  ("growth",
    [
     {| name := "year over year growth";
        synonyms := ["YoY growth"; "annual growth"; "yearly growth"];
        keywords := ["yoy"; "year"; "annual"; "growth"];
        description := "Growth compared to same period previous year";
        category := "growth" |};
     {| name := "quarter over quarter growth";
        synonyms := ["QoQ growth"; "quarterly growth"];
        keywords := ["qoq"; "quarter"; "quarterly"; "growth"];
        description := "Growth compared to previous quarter";
        category := "growth" |};
     {| name := "compound annual growth rate";
        synonyms := ["CAGR"; "compound growth"];
        keywords := ["cagr"; "compound"; "annual"; "growth"];
        description := "Average annual growth rate over multiple years";
        category := "growth" |};
     {| name := "month over month growth";
        synonyms := ["MoM growth"; "monthly growth"];
        keywords := ["mom"; "month"; "monthly"; "growth"];
        description := "Growth compared to previous month";
        category := "growth" |}
    ]);
  ("financial_analysis",
    [
     {| name := "budget vs actual";
        synonyms := ["budget variance"; "actual vs budget"; "variance analysis"];
        keywords := ["budget"; "actual"; "variance"; "vs"; "against"];
        description := "Comparison of planned vs actual performance";
        category := "financial_analysis" |};
     {| name := "forecast analysis";
        synonyms := ["projection"; "prediction"; "forecast"];
        keywords := ["forecast"; "projection"; "prediction"; "future"];
        description := "Future performance predictions";
        category := "financial_analysis" |};
     {| name := "trend analysis";
        synonyms := ["time series"; "historical analysis"];
        keywords := ["trend"; "time"; "series"; "historical"];
        description := "Analysis of patterns over time";
        category := "financial_analysis" |}
    ]);
  ("formulas",
    [
     {| name := "percentage calculation";
        synonyms := ["percent formula"; "ratio as percentage"];
        keywords := ["percentage"; "percent"; "%"; "ratio"];
        description := "Calculations expressed as percentages";
        category := "formulas" |};
     {| name := "average calculation";
        synonyms := ["mean"; "avg"; "average formula"];
        keywords := ["average"; "mean"; "avg"];
        description := "Average or mean calculations";
        category := "formulas" |};
     {| name := "sum calculation";
        synonyms := ["total"; "sum formula"; "addition"];
        keywords := ["sum"; "total"; "add"; "addition"];
        description := "Sum or total calculations";
        category := "formulas" |};
     {| name := "conditional calculation";
        synonyms := ["if formula"; "conditional logic"];
        keywords := ["if"; "conditional"; "logic"; "condition"];
        description := "Calculations with conditional logic";
        category := "formulas" |};
     {| name := "lookup formula";
        synonyms := ["vlookup"; "index match"; "lookup"];
        keywords := ["vlookup"; "lookup"; "index"; "match"];
        description := "Data lookup and retrieval formulas";
        category := "formulas" |}
    ])
  ].

(** The concepts in the order in which [for category, concept_list in
    self.concepts.items(): for concept in concept_list] visits them. *)
Definition all_concepts : list BusinessConcept :=
  flat_map snd concepts.

(** [[concept.name] + concept.synonyms + concept.keywords] *)
Definition all_terms (concept : BusinessConcept) : list string :=
  [name concept] ++ synonyms concept ++ keywords concept.

(** [all(word in text for word in term_words)], where [text] is a string:
    every word of the term occurs in it as a substring. *)
Definition term_matches (text term : string) : bool :=
  forallb (fun word => str_in word text) (split (lower term)).

(** [BusinessConceptMapper._matches_concept] *)
Definition _matches_concept (text : string) (concept : BusinessConcept) : bool :=
  existsb (term_matches text) (all_terms concept).

Definition ratio_re : pattern :=
  [[WordB; Plus is_word_char; Star isspace; Lit "/"; Star isspace;
    Plus is_word_char; WordB]].

Definition percentage_re : pattern :=
  [[Lit "%"]; word "percent"; word "ratio"; word "rate"].

Definition growth_re : pattern :=
  [[WordB; OneOf ["yoy"; "qoq"; "mom"]; WordB]; word "growth"; word "increase"].

Definition margin_re : pattern :=
  [word "margin"; [WordB; Lit "profit"; Plus isspace; Lit "margin"; WordB]].

(** [xs if b else []], the effect of a guarded [identified.append]. *)
Definition when (b : bool) (xs : list string) : list string :=
  if b then xs else [].

(** [BusinessConceptMapper._identify_patterns] *)
Definition _identify_patterns (text : string) : list string :=
  when (re_search ratio_re text || str_in "/" text) ["ratio calculation"] ++
  when (re_search percentage_re text) ["percentage calculation"] ++
  when (re_search growth_re text) ["growth metric"] ++
  when (re_search margin_re text) ["profitability metric"].

(** [BusinessConceptMapper._identify_formula_concepts] *)
Definition _identify_formula_concepts (text : string) : list string :=
  let text_lower := lower text in
  if negb (startswith text "=") then []
  else
    when (str_in "sum(" text_lower) ["sum calculation"; "aggregation formula"] ++
    when (any_in ["average("; "avg("] text_lower) ["average calculation"] ++
    when (any_in ["if("; "sumif("; "countif("; "averageif("] text_lower)
         ["conditional calculation"] ++
    when (any_in ["vlookup("; "hlookup("; "index("; "match("; "xlookup("] text_lower)
         ["lookup formula"] ++
    when (str_in "/" text && negb (any_in ["sum("; "average("] text_lower))
         ["ratio calculation"; "percentage calculation"].

(** The names appended by the loop over the catalog. *)
Definition matched_names (text_lower : string) : list string :=
  map name (filter (_matches_concept text_lower) all_concepts).

(** [BusinessConceptMapper.identify_concepts] *)
Definition identify_concepts (text : string) : list string :=
  let text_lower := lower text in
  dedup (matched_names text_lower ++
         _identify_patterns text_lower ++
         _identify_formula_concepts text).

(** [BusinessConceptMapper.get_all_concepts]: the same dictionary (the
    source copies every concept into a [dict] of its fields). *)
Definition get_all_concepts : list (string * list BusinessConcept) := concepts.

End BusinessConcepts.
Import BusinessConcepts.

(* ================================================================== *)
(** * [models.py] *)

Module Models.

Record SearchResult : Type := {
  concept_name : string;
  location : string;
  formula : option string;
  value : option string;
  business_context : string;
  explanation : string;
  relevance_score : Q
}.

End Models.

(* ================================================================== *)
(** * Python list primitives used by the engine *)

Module PyList.

(** [a > b] on floats. *)
Definition Qgtb (a b : Q) : bool := negb (Qle_bool a b).

(** [min(a, b)]: the first argument unless the second is smaller. *)
Definition py_min (a b : Q) : Q := if Qgtb a b then b else a.

(** [max(xs)] of a non-empty list: the first maximal element. *)
Definition py_max (x : Q) (xs : list Q) : Q :=
  fold_left (fun m y => if Qgtb y m then y else m) xs x.

(** [enumerate(xs)], counting from [i]. *)
Fixpoint enumerate_from {A : Type} (i : Z) (xs : list A) : list (Z * A) :=
  match xs with
  | [] => []
  | x :: t => (i, x) :: enumerate_from (i + 1) t
  end.

Definition enumerate {A : Type} (xs : list A) : list (Z * A) :=
  enumerate_from 0 xs.

(** [d[k] if k in d else dflt] on an association list. *)
Fixpoint lookup {A : Type} (k : Z) (d : list (Z * A)) : option A :=
  match d with
  | [] => None
  | (k', v) :: t => if k =? k' then Some v else lookup k t
  end.

(** Insertion of [x] in front of the first element whose key is not
    smaller: the step of a stable ascending sort. *)
Fixpoint insert_by {A : Type} (key : A -> Q) (x : A) (l : list A) : list A :=
  match l with
  | [] => [x]
  | y :: t => if Qle_bool (key x) (key y) then x :: y :: t
              else y :: insert_by key x t
  end.

Definition sort_asc {A : Type} (key : A -> Q) (l : list A) : list A :=
  fold_right (insert_by key) [] l.

(** [xs.sort(key=key, reverse=reverse)].  The sort of Python is stable; with
    [reverse=True] the list is reversed, sorted and reversed again, which
    keeps equal keys in their original order. *)
Definition list_sort {A : Type} (key : A -> Q) (reverse : bool) (l : list A)
  : list A :=
  if reverse then rev (sort_asc key (rev l)) else sort_asc key l.

(** [xs[:k]]: the first [k] elements, or all but the last [-k] when [k] is
    negative. *)
Definition slice_to {A : Type} (k : Z) (l : list A) : list A :=
  if 0 <=? k then firstn (Z.to_nat k) l
  else firstn (Z.to_nat (Z.of_nat (List.length l) + k)) l.

End PyList.
Import PyList.

(* ================================================================== *)
(** * [semantic_search.py] *)

Module SemanticSearch.

Local Open Scope Q_scope.
Local Open Scope list_scope.

(** A scalar of the grid: [None], a string, an [int] or a [float]. *)
Inductive Value : Type :=
| VNone
| VStr (s : string)
| VInt (n : Z)
| VFloat (x : Q).

(** What the engine takes from outside: the sentence-transformer model
    ([self.model.encode([text])[0]]), [cosine_similarity(a, [b])[0][0]] of
    scikit-learn, and [str] on a [float]. *)
Record Runtime : Type := {
  Embedding : Type;
  encode : string -> Embedding;
  cosine_similarity : Embedding -> Embedding -> Q;
  str_float : Q -> string
}.

Record SpreadsheetCell (rt : Runtime) : Type := {
  sheet_name : string;
  row : Z;
  col : Z;
  value : Value;
  formula : string;
  header_context : string;
  business_concepts : list string;
  semantic_embedding : option (Embedding rt)
}.

Arguments sheet_name {rt} _.
Arguments row {rt} _.
Arguments col {rt} _.
Arguments value {rt} _.
Arguments formula {rt} _.
Arguments header_context {rt} _.
Arguments business_concepts {rt} _.
Arguments semantic_embedding {rt} _.

(** The attributes of [SemanticSearchEngine] that the methods read. *)
Record SemanticSearchEngine (rt : Runtime) : Type := {
  cells : list (SpreadsheetCell rt);
  concept_embeddings : list (string * Embedding rt)
}.

Arguments cells {rt} _.
Arguments concept_embeddings {rt} _.

(** [isinstance(value, str)] *)
Definition is_str (v : Value) : bool :=
  match v with VStr _ => true | _ => false end.

(** [isinstance(value, (int, float))] *)
Definition is_number (v : Value) : bool :=
  match v with VInt _ | VFloat _ => true | _ => false end.

(** [bool(value)] *)
Definition truthy (v : Value) : bool :=
  match v with
  | VNone => false
  | VStr s => nonempty s
  | VInt n => negb (n =? 0)%Z
  | VFloat x => negb (Qeq_bool x 0)
  end.

(** [str(value)] *)
Definition str_value (rt : Runtime) (v : Value) : string :=
  match v with
  | VNone => "None"
  | VStr s => s
  | VInt n => str_int n
  | VFloat x => str_float rt x
  end.

(** [value > 1000] on a number. *)
Definition gt_1000 (v : Value) : bool :=
  match v with
  | VInt n => (1000 <? n)%Z
  | VFloat x => Qgtb x 1000
  | _ => false
  end.

(** [value is None or (isinstance(value, str) and not value.strip())] *)
Definition is_blank (v : Value) : bool :=
  match v with
  | VNone => true
  | VStr s => negb (nonempty (strip s))
  | _ => false
  end.

(** [SemanticSearchEngine._precompute_concept_embeddings] *)
Definition _precompute_concept_embeddings (rt : Runtime)
  : list (string * Embedding rt) :=
  flat_map (fun entry =>
              map (fun concept =>
                     let concept_text : string :=
                       (name concept ++ " " ++ join " " (synonyms concept)
                        ++ " " ++ description concept)%string in
                     (name concept, encode rt concept_text))
                  (snd entry))
           get_all_concepts.

(** [SemanticSearchEngine.__init__] *)
Definition init (rt : Runtime) : SemanticSearchEngine rt :=
  {| cells := []; concept_embeddings := _precompute_concept_embeddings rt |}.

(** [SemanticSearchEngine._analyze_formula_concepts] *)
Definition _analyze_formula_concepts (formula header : string) : list string :=
  let formula_lower := lower formula in
  let header_lower := lower header in
  when (any_in ["/"; "divide"] formula_lower)
       (when (any_in ["margin"; "ratio"; "rate"; "percentage"; "%"] header_lower)
             (["ratio calculation"] ++
              when (str_in "margin" header_lower) ["profitability metric"])) ++
  when (str_in "sum(" formula_lower)
       (["aggregation formula"] ++
        (if any_in ["revenue"; "sales"; "income"] header_lower
         then ["revenue calculation"]
         else when (any_in ["cost"; "expense"] header_lower)
                   ["cost calculation"])) ++
  when (str_in "average(" formula_lower || str_in "avg(" formula_lower)
       ["average calculation"] ++
  when (any_in ["if("; "sumif("; "countif("] formula_lower)
       ["conditional calculation"] ++
  when (any_in ["vlookup("; "index("; "match("] formula_lower)
       ["lookup formula"].

(** [SemanticSearchEngine._analyze_value_concepts] *)
Definition _analyze_value_concepts (value : Value) (header context : string)
  : list string :=
  let header_lower := lower header in
  let context_lower := lower context in
  when (match value with VStr s => str_in "%" s | _ => false end)
       (["percentage value"] ++
        when (any_in ["margin"; "growth"; "rate"] header_lower)
             ["percentage calculation"]) ++
  when (is_number value && gt_1000 value)
       (when (any_in ["revenue"; "sales"; "income"; "profit"; "cost"; "expense"]
                     context_lower)
             ["monetary value"]).

(** The list [context_parts] of [_identify_concepts]. *)
Definition context_parts (value : Value) (formula header sheet_name : string)
  : list string :=
  when (nonempty header) [header] ++
  match value with VStr s => [s] | _ => [] end ++
  when (nonempty formula) [formula] ++
  [sheet_name].

(** The local [context_text] of [_identify_concepts]. *)
Definition context_text (value : Value) (formula header sheet_name : string)
  : string :=
  lower (join " " (context_parts value formula header sheet_name)).

(** [SemanticSearchEngine._identify_concepts] *)
Definition _identify_concepts (value : Value) (formula header sheet_name : string)
  : list string :=
  let context_text := context_text value formula header sheet_name in
  let identified_concepts := identify_concepts context_text in
  let identified_concepts :=
    identified_concepts ++
    when (nonempty formula) (_analyze_formula_concepts formula header) in
  let identified_concepts :=
    identified_concepts ++
    when (is_number value) (_analyze_value_concepts value header context_text) in
  dedup identified_concepts.

(** The dictionary [headers] of [_process_sheet], from the first row. *)
Definition sheet_headers (data : list (list Value)) : list (Z * string) :=
  match data with
  | [] => []
  | row0 :: _ =>
      flat_map (fun p =>
                  match snd p with
                  | VStr val => if nonempty (strip val) then [(fst p, strip val)]
                                else []
                  | _ => []
                  end)
               (enumerate row0)
  end.

(** The cell that the body of the two loops of [_process_sheet] builds at a
    grid position that is not blank. *)
Definition new_cell (rt : Runtime) (sheet_name : string)
           (headers : list (Z * string)) (row_idx col_idx : Z) (value : Value)
  : SpreadsheetCell rt :=
  let header_context :=
    match lookup col_idx headers with Some h => h | None => "" end in
  let formula :=
    match value with
    | VStr s => if startswith s "=" then s else ""
    | _ => ""
    end in
  let concepts := _identify_concepts value formula header_context sheet_name in
  {| sheet_name := sheet_name;
     row := row_idx;
     col := col_idx;
     value := value;
     formula := formula;
     header_context := header_context;
     business_concepts := concepts;
     semantic_embedding := None |}.

(** The body of the two loops of [_process_sheet] at one grid position: no
    cell for a blank ([continue]), else the cell that is appended. *)
Definition process_cell (rt : Runtime) (sheet_name : string)
           (headers : list (Z * string)) (row_idx col_idx : Z) (value : Value)
  : list (SpreadsheetCell rt) :=
  if is_blank value then []
  else [new_cell rt sheet_name headers row_idx col_idx value].

(** [SemanticSearchEngine._process_sheet]: the cells it appends. *)
Definition _process_sheet (rt : Runtime) (sheet_name : string)
           (data : list (list Value)) : list (SpreadsheetCell rt) :=
  let headers := sheet_headers data in
  flat_map (fun r =>
              flat_map (fun c => process_cell rt sheet_name headers
                                              (fst r) (fst c) (snd c))
                       (enumerate (snd r)))
           (enumerate data).

(** The text that [_compute_cell_embeddings] encodes for a cell. *)
Definition rich_text {rt : Runtime} (cell : SpreadsheetCell rt) : string :=
  join " " (when (nonempty (header_context cell)) [header_context cell] ++
            [str_value rt (value cell)] ++
            when (nonempty (formula cell)) [formula cell] ++
            business_concepts cell ++
            [sheet_name cell]).

(** [SemanticSearchEngine._compute_cell_embeddings] *)
Definition _compute_cell_embeddings {rt : Runtime}
           (cells : list (SpreadsheetCell rt)) : list (SpreadsheetCell rt) :=
  map (fun cell =>
         {| sheet_name := sheet_name cell;
            row := row cell;
            col := col cell;
            value := value cell;
            formula := formula cell;
            header_context := header_context cell;
            business_concepts := business_concepts cell;
            semantic_embedding := Some (encode rt (rich_text cell)) |})
      cells.

(** [SemanticSearchEngine.load_spreadsheet_data], on
    [spreadsheet_data["sheets"]] given as the list of its items with the
    ["data"] of every sheet. *)
Definition load_spreadsheet_data {rt : Runtime} (self : SemanticSearchEngine rt)
           (sheets : list (string * list (list Value)))
  : SemanticSearchEngine rt :=
  {| cells := _compute_cell_embeddings
                (flat_map (fun sh => _process_sheet rt (fst sh) (snd sh)) sheets);
     concept_embeddings := concept_embeddings self |}.

(** [SemanticSearchEngine.has_data] *)
Definition has_data {rt : Runtime} (self : SemanticSearchEngine rt) : bool :=
  (0 <? Z.of_nat (List.length (cells self)))%Z.

(** [a / b] on the lengths of two lists. *)
Definition len_ratio (common all : list string) : Q :=
  inject_Z (Z.of_nat (List.length common)) / inject_Z (Z.of_nat (List.length all)).

(** [SemanticSearchEngine._process_query] *)
Definition _process_query {rt : Runtime} (self : SemanticSearchEngine rt)
           (query : string) : string :=
  let expanded_terms :=
    [query] ++
    flat_map (fun entry =>
                let query_embedding := encode rt query in
                let similarity := cosine_similarity rt query_embedding (snd entry) in
                when (Qgtb similarity 0.3) [fst entry])
             (concept_embeddings self) in
  join " " expanded_terms.

(** [concept_lower in query_lower] *)
Definition direct_match (query_lower concept : string) : bool :=
  let concept_lower := lower concept in
  str_in concept_lower query_lower.

(** [any(word in query_lower for word in concept_lower.split())] *)
Definition word_match (query_lower concept : string) : bool :=
  let concept_lower := lower concept in
  existsb (fun word => str_in word query_lower) (split concept_lower).

(** The list [relevance_scores] that [_calculate_concept_relevance] builds. *)
Definition relevance_scores (query_lower : string) (cell_concepts : list string)
  : list Q :=
  flat_map (fun concept =>
              if direct_match query_lower concept then [1.0]
              else if word_match query_lower concept then [0.7]
                   else [])
           cell_concepts ++
  (let query_concepts := identify_concepts query_lower in
   let common_concepts := set_inter cell_concepts query_concepts in
   match common_concepts with
   | [] => []
   | _ :: _ => [0.8]
   end).

(** [SemanticSearchEngine._calculate_concept_relevance] *)
Definition _calculate_concept_relevance (query : string)
           (cell_concepts : list string) : Q :=
  match cell_concepts with
  | [] => 0.0
  | _ :: _ =>
      let query_lower := lower query in
      match relevance_scores query_lower cell_concepts with
      | [] => 0.0
      | x :: xs => py_max x xs
      end
  end.

(** One of the two [relevance += w * (len(common_words) / len(query_words))]
    of [_calculate_contextual_relevance]. *)
Definition overlap_term (w : Q) (text query_lower : string) : Q :=
  let text_words := split (lower text) in
  let query_words := split query_lower in
  let common_words := set_inter text_words query_words in
  match common_words with
  | [] => 0
  | _ :: _ => w * len_ratio common_words query_words
  end.

(** [SemanticSearchEngine._calculate_contextual_relevance] *)
Definition _calculate_contextual_relevance {rt : Runtime} (query : string)
           (cell : SpreadsheetCell rt) : Q :=
  let relevance := 0.0 in
  let query_lower := lower query in
  let relevance :=
    if nonempty (header_context cell)
    then relevance + overlap_term 0.3 (header_context cell) query_lower
    else relevance in
  let relevance := relevance + overlap_term 0.2 (sheet_name cell) query_lower in
  py_min relevance 1.0.

(** The [while] loop of [_get_excel_cell_reference]; [fuel] bounds the
    number of iterations. *)
Fixpoint col_letter_loop (fuel : nat) (col_num : Z) (col_letter : string)
  : string :=
  match fuel with
  | O => col_letter
  | S fuel' =>
      if (0 <? col_num)%Z then
        let col_num := (col_num - 1)%Z in
        let col_letter := String (chr (col_num mod 26 + ord "A")) col_letter in
        col_letter_loop fuel' (col_num / 26)%Z col_letter
      else col_letter
  end.

(** The column letters of a 0-based column: the loop started at [col + 1]
    with as many iterations allowed as the value it starts from, which it
    never needs. *)
Definition column_letters (col : Z) : string :=
  let col_num := (col + 1)%Z in
  col_letter_loop (Z.to_nat col_num) col_num "".

(** [SemanticSearchEngine._get_excel_cell_reference] *)
Definition _get_excel_cell_reference (row col : Z) : string :=
  (column_letters col ++ str_int (row + 1))%string.

(** [SemanticSearchEngine._generate_concept_name] *)
Definition _generate_concept_name {rt : Runtime} (cell : SpreadsheetCell rt)
  : string :=
  if nonempty (header_context cell) then header_context cell
  else match business_concepts cell with
       | first :: _ => title (replace_char "_" " " first)
       | [] => ("Cell " ++ _get_excel_cell_reference (row cell) (col cell))%string
       end.

(** [SemanticSearchEngine._generate_business_context] *)
Definition _generate_business_context {rt : Runtime} (cell : SpreadsheetCell rt)
  : string :=
  let contexts :=
    match business_concepts cell with
    | first :: _ => [("This is a " ++ replace_char "_" " " first)%string]
    | [] => []
    end ++
    when (nonempty (formula cell)) ["calculated using a formula"] ++
    [("located in the '" ++ sheet_name cell ++ "' sheet")%string] in
  (join " " contexts ++ ".")%string.

(** [SemanticSearchEngine._generate_explanation] *)
Definition _generate_explanation {rt : Runtime} (query : string)
           (cell : SpreadsheetCell rt) : string :=
  let query_lower := lower query in
  let matching_concepts :=
    filter (word_match query_lower) (business_concepts cell) in
  let common_words :=
    set_inter (split (lower (header_context cell))) (split query_lower) in
  let common_sheet_words :=
    set_inter (split (lower (sheet_name cell))) (split query_lower) in
  let explanations :=
    match matching_concepts with
    | [] => []
    | _ :: _ => [("Contains " ++ join ", " matching_concepts)%string]
    end ++
    when (nonempty (header_context cell))
         match common_words with
         | [] => []
         | _ :: _ => [("Header contains: " ++ join ", " common_words)%string]
         end ++
    when (nonempty (formula cell))
         (if any_in ["formula"; "calculation"; "computed"] query_lower
          then ["Contains a formula"]
          else if str_in "average" query_lower
                  && str_in "average" (lower (formula cell))
               then ["Contains average calculation"]
               else when (any_in ["sum"; "total"] query_lower
                          && str_in "sum" (lower (formula cell)))
                         ["Contains sum calculation"]) ++
    match common_sheet_words with
    | [] => []
    | _ :: _ => [("In relevant sheet: " ++ join ", " common_sheet_words)%string]
    end in
  match explanations with
  | [] => "Semantically related to your query"
  | _ :: _ => join "; " explanations
  end.

(** The local [final_score] of the loop of [search]. *)
Definition final_score (similarity concept_relevance contextual_relevance : Q)
  : Q :=
  (similarity * 0.4) + (concept_relevance * 0.4) + (contextual_relevance * 0.2).

(** The local [similarity] of the loop of [search], for a cell that has its
    embedding. *)
Definition similarity_of {rt : Runtime} (query_embedding cell_embedding : Embedding rt)
  : Q :=
  cosine_similarity rt query_embedding cell_embedding.

(** The [SearchResult] that the loop of [search] builds for a cell. *)
Definition make_result {rt : Runtime} (query : string) (cell : SpreadsheetCell rt)
           (final_score : Q) : Models.SearchResult :=
  {| Models.concept_name := _generate_concept_name cell;
     Models.location :=
       ("'" ++ sheet_name cell ++ "'!"
        ++ _get_excel_cell_reference (row cell) (col cell))%string;
     Models.formula :=
       if nonempty (formula cell) then Some (formula cell) else None;
     Models.value :=
       if truthy (value cell) then Some (str_value rt (value cell)) else None;
     Models.business_context := _generate_business_context cell;
     Models.explanation := _generate_explanation query cell;
     Models.relevance_score := final_score |}.

(** The score that the loop of [search] computes for a cell with the
    embedding [emb]. *)
Definition cell_score {rt : Runtime} (query : string)
           (query_embedding : Embedding rt) (cell : SpreadsheetCell rt)
           (emb : Embedding rt) : Q :=
  let similarity := similarity_of query_embedding emb in
  let concept_relevance :=
    _calculate_concept_relevance query (business_concepts cell) in
  let contextual_relevance := _calculate_contextual_relevance query cell in
  final_score similarity concept_relevance contextual_relevance.

(** One iteration of the loop of [search]: what it appends to [results]. *)
Definition search_cell {rt : Runtime} (query : string)
           (query_embedding : Embedding rt) (cell : SpreadsheetCell rt)
  : list Models.SearchResult :=
  match semantic_embedding cell with
  | None => []
  | Some emb =>
      let final_score := cell_score query query_embedding cell emb in
      if Qgtb final_score 0.1 then [make_result query cell final_score] else []
  end.

(** The embedding of the processed query, [query_embedding] in [search]. *)
Definition query_embedding_of {rt : Runtime} (self : SemanticSearchEngine rt)
           (query : string) : Embedding rt :=
  encode rt (_process_query self query).

(** The list [results] of [search] when its loop ends, before the sort. *)
Definition search_results {rt : Runtime} (self : SemanticSearchEngine rt)
           (query : string) : list Models.SearchResult :=
  flat_map (search_cell query (query_embedding_of self query)) (cells self).

(** [SemanticSearchEngine.search] *)
Definition search {rt : Runtime} (self : SemanticSearchEngine rt)
           (query : string) (max_results : Z) : list Models.SearchResult :=
  match cells self with
  | [] => []
  | _ :: _ =>
      let results := search_results self query in
      let results := list_sort Models.relevance_score true results in
      slice_to max_results results
  end.

End SemanticSearch.
Import SemanticSearch.

(* ================================================================== *)
(** * Notions of the specification

    The definitions of this module follow the wording of the specification,
    not the code; the theorems compare them with the code. *)

Module Spec.

Local Open Scope Q_scope.
Local Open Scope list_scope.

(** Value of a column letter in bijective base 26: A is 1, ..., Z is 26. *)
Definition letter_value (c : ascii) : Z := (ord c - ord "A" + 1)%Z.

(** Value of a string of letters read as a bijective base-26 numeral, most
    significant letter first, on top of the value [acc] already read. *)
Fixpoint decode_from (acc : Z) (letters : string) : Z :=
  match letters with
  | EmptyString => acc
  | String c t => decode_from (26 * acc + letter_value c)%Z t
  end.

Definition decode_letters (letters : string) : Z := decode_from 0 letters.

(** Decoding of column letters back to the 0-based column index. *)
Definition decode_column (letters : string) : Z := (decode_letters letters - 1)%Z.

(** The letter that stands for the least significant digit of [n]. *)
Definition digit (n : Z) : ascii := chr ((n - 1) mod 26 + ord "A").

(** Every character is one of the letters A to Z. *)
Fixpoint all_letters (s : string) : bool :=
  match s with
  | EmptyString => true
  | String c t => is_upper c && all_letters t
  end.

(** Word containment as the specification states it for the tagger: every
    word of the term is one of the words of the text. *)
Definition term_matches_words (text term : string) : bool :=
  forallb (fun word => mem word (split text)) (split (lower term)).

(** A concept matches, in the specification's wording, when one of its terms
    has all its words among the words of the lower-cased text. *)
Definition matches_concept_words (text : string) (concept : BusinessConcept)
  : bool :=
  existsb (term_matches_words (lower text)) (all_terms concept).

(** The value a rule contributes to a maximum: [v] when it fires. *)
Definition rule (fires : bool) (v : Q) : Q := if fires then v else 0.0.

(** The concept score in the specification's wording: 0 without tags, else
    the maximum of 1.0 when a tag occurs verbatim in the lower-cased query,
    0.7 when a word of a tag is a whole word of the query, and 0.8 when the
    tags of the raw query meet the tags of the cell. *)
Definition concept_score_as_specified (query : string) (tags : list string) : Q :=
  match tags with
  | [] => 0.0
  | _ :: _ =>
      let query_lower := lower query in
      Qmax (rule (existsb (fun tag => str_in tag query_lower) tags) 1.0)
           (Qmax (rule (existsb (fun tag =>
                                   existsb (fun word => mem word (split query_lower))
                                           (split tag))
                                tags) 0.7)
                 (rule (existsb (fun tag => mem tag (identify_concepts query)) tags)
                       0.8))
  end.

(** The context string in the specification's wording: the join of the
    header context, the stringified value, the formula and the sheet name. *)
Definition context_string_as_specified (rt : Runtime) (value : Value)
           (formula header sheet_name : string) : string :=
  lower (join " " (when (nonempty header) [header] ++
                   [str_value rt value] ++
                   when (nonempty formula) [formula] ++
                   [sheet_name])).

(** The raw value is the number 0. *)
Definition is_zero (v : Value) : bool :=
  match v with
  | VInt n => (n =? 0)%Z
  | VFloat x => Qeq_bool x 0
  | _ => false
  end.

(** Some tag of the cell is among the tags of the text. *)
Definition shares_tag (text : string) (tags : list string) : bool :=
  existsb (fun tag => mem tag (identify_concepts text)) tags.

(** A list of strings has no duplicate. *)
Fixpoint no_duplicate (xs : list string) : bool :=
  match xs with
  | [] => true
  | x :: t => negb (mem x t) && no_duplicate t
  end.

(** Ascending and descending order of the keys of two entries. *)
Definition ascending {A : Type} (key : A -> Q) (a b : A) : Prop := key a <= key b.
Definition descending {A : Type} (key : A -> Q) (a b : A) : Prop := key b <= key a.

(** The entries of [l] whose key equals [s], in their order. *)
Definition with_key {A : Type} (key : A -> Q) (s : Q) (l : list A) : list A :=
  filter (fun a => Qeq_bool (key a) s) l.

(** The list has at most [k] entries. *)
Definition at_most {A : Type} (k : Z) (l : list A) : Prop :=
  (Z.of_nat (List.length l) <= k)%Z.

(** The scores do not increase from an entry to the next one. *)
Definition non_increasing (l : list Models.SearchResult) : Prop :=
  Sorted (descending Models.relevance_score) l.

(** The entries of [l] whose score equals [s]. *)
Definition with_score (s : Q) (l : list Models.SearchResult)
  : list Models.SearchResult :=
  with_key Models.relevance_score s l.

(** A closed interval of scores. *)
Definition between (lo hi x : Q) : Prop := lo <= x /\ x <= hi.

End Spec.
Import Spec.

(* ================================================================== *)
(** * Sample engines *)

Module Samples.

(** A runtime whose cosine similarity is the constant [c]. *)
Definition constant_runtime (c : Q) : Runtime :=
  {| Embedding := unit;
     encode := fun _ => tt;
     cosine_similarity := fun _ _ => c;
     str_float := fun _ => "0.0" |}.

(** A small workbook: a margin column, a revenue column and a zero in a
    third column without header. *)
Definition financial_model : list (string * list (list Value)) :=
  [("Financial Model",
    [[VStr "Gross Profit Margin"; VStr "Total Revenue"; VStr ""];
     [VStr "=B12/B5"; VInt 15000; VInt 0];
     [VNone; VStr "=SUM(B2:B4)"]])].

Definition engine (c : Q) : SemanticSearchEngine (constant_runtime c) :=
  load_spreadsheet_data (init (constant_runtime c)) financial_model.

(** The first result of a search for the revenue cells. *)
Definition top_hit (c : Q) : Models.SearchResult :=
  nth 0 (search (engine c) "total revenue" 10)
      (@make_result (constant_runtime c) ""
         {| sheet_name := ""; row := 0; col := 0; value := VNone;
            formula := ""; header_context := ""; business_concepts := [];
            semantic_embedding := None |} 0%Q).

(** The catalog entry of the sum concept. *)
Definition sum_calculation : BusinessConcept :=
  {| name := "sum calculation";
     synonyms := ["total"; "sum formula"; "addition"];
     keywords := ["sum"; "total"; "add"; "addition"];
     description := "Sum or total calculations";
     category := "formulas" |}.

End Samples.


(* ================================================================== *)
(** * [business_concepts.py]: the lookups of the mapper *)

Module Mapper.

(** [concept.name == concept_name] *)
Definition has_name (concept_name : string) (concept : BusinessConcept) : bool :=
  String.eqb (name concept) concept_name.

(** [BusinessConceptMapper.get_concept_category]: the first category with a
    concept of that name, ["unknown"] when there is none. *)
Definition get_concept_category (concept_name : string) : string :=
  match find (fun entry => existsb (has_name concept_name) (snd entry)) concepts with
  | Some entry => fst entry
  | None => "unknown"
  end.

(** [BusinessConceptMapper.get_related_concepts]: in every category that has
    the concept, the names of the other concepts of the category. *)
Definition get_related_concepts (concept_name : string) : list string :=
  flat_map (fun entry =>
              if existsb (has_name concept_name) (snd entry)
              then map name (filter (fun c => negb (has_name concept_name c))
                                    (snd entry))
              else [])
           concepts.

End Mapper.
Import Mapper.

(* ================================================================== *)
(** * [spreadsheet_loader.py]: the part that does not read files *)

Module Loader.

(** A loaded workbook: [data.get("name")] and the items of
    [data["sheets"]] with the ["data"] of every sheet. *)
Record Workbook : Type := {
  wb_name : option string;
  wb_sheets : list (string * list (list Value))
}.

(** [cell == "" or cell is None] *)
Definition is_empty_cell (cell : Value) : bool :=
  match cell with
  | VNone => true
  | VStr s => String.eqb s ""
  | _ => false
  end.

(** The rows that [_load_excel] keeps: [None] becomes [""] in every row. *)
Definition cleaned_row (row : list Value) : list Value :=
  map (fun cell => match cell with VNone => VStr "" | _ => cell end) row.

(** The loop [while data and all(...empty...) for data[-1]: data.pop()];
    [fuel] bounds the number of iterations. *)
Fixpoint pop_empty_rows (fuel : nat) (data : list (list Value))
  : list (list Value) :=
  match fuel with
  | O => data
  | S fuel' =>
      match data with
      | [] => data
      | _ :: _ =>
          if forallb is_empty_cell (last data [])
          then pop_empty_rows fuel' (removelast data)
          else data
      end
  end.

(** The ["data"] that [_load_excel] and [_load_excel_from_bytes] build from
    the rows of a worksheet.  The loop pops at most every row. *)
Definition excel_sheet_data (rows : list (list Value)) : list (list Value) :=
  let data := map cleaned_row rows in
  pop_empty_rows (List.length data) data.

(** [s.endswith(suffix)] *)
Fixpoint endswith (s suffix : string) : bool :=
  String.eqb s suffix ||
  match s with
  | EmptyString => false
  | String _ t => endswith t suffix
  end.

(** The two readers of the loader: pandas for CSV, openpyxl for Excel. *)
Inductive Reader : Type := CsvReader | ExcelReader.

(** The branch that [load_from_bytes] takes for a file name; [None] is its
    [ValueError] for an unsupported format. *)
Definition reader_for (filename : string) : option Reader :=
  if endswith filename ".csv" then Some CsvReader
  else if endswith filename ".xlsx" || endswith filename ".xls"
       then Some ExcelReader
       else None.

(** The message of the exception that [load_from_bytes] raises for an
    unsupported format: its [ValueError] wrapped by its [except] branch. *)
Definition unsupported_message (filename : string) : string :=
  "Error loading file " ++ filename ++ ": "
  ++ "Unsupported file format: " ++ filename.

Record Summary : Type := {
  summary_name : string;
  total_sheets : Z;
  sheet_names : list string;
  total_rows : Z;
  total_cells : Z
}.

(** [len([cell for cell in row if cell != "" and cell is not None])] *)
Definition filled_cells (row : list Value) : Z :=
  Z.of_nat (List.length (filter (fun cell => negb (is_empty_cell cell)) row)).

(** [SpreadsheetLoader.get_spreadsheet_summary] on a validated workbook. *)
Definition get_spreadsheet_summary (data : Workbook) : Summary :=
  {| summary_name := match wb_name data with Some n => n | None => "Unknown" end;
     total_sheets := Z.of_nat (List.length (wb_sheets data));
     sheet_names := map fst (wb_sheets data);
     total_rows :=
       fold_left (fun acc sheet => acc + Z.of_nat (List.length (snd sheet)))
                 (wb_sheets data) 0;
     total_cells :=
       fold_left (fun acc sheet =>
                    fold_left (fun acc' row => acc' + filled_cells row)
                              (snd sheet) acc)
                 (wb_sheets data) 0 |}.

(** [data["sheets"][sheet_name]] when the key is there. *)
Fixpoint sheet_lookup (sheet_name : string)
         (sheets : list (string * list (list Value)))
  : option (list (list Value)) :=
  match sheets with
  | [] => None
  | (n, d) :: rest => if String.eqb sheet_name n then Some d
                      else sheet_lookup sheet_name rest
  end.

(** [SpreadsheetLoader.get_sheet_data] *)
Definition get_sheet_data (data : Workbook) (sheet_name : string)
  : option (list (list Value)) :=
  sheet_lookup sheet_name (wb_sheets data).

(** [SpreadsheetLoader.get_all_sheet_names] *)
Definition get_all_sheet_names (data : Workbook) : list string :=
  map fst (wb_sheets data).

Record Preview : Type := {
  preview_sheet_name : string;
  preview_data_rows : list (list Value);
  preview_total_rows : Z;
  showing_rows : Z
}.

(** The branch of [preview_data] for a given sheet: [None] stands for the
    dictionary with the key ["error"]. *)
Definition preview_sheet (data : Workbook) (sheet_name : string) (max_rows : Z)
  : option Preview :=
  match sheet_lookup sheet_name (wb_sheets data) with
  | None => None
  | Some sheet_data =>
      let preview_data :=
        if (max_rows <? Z.of_nat (List.length sheet_data))
        then slice_to max_rows sheet_data
        else sheet_data in
      Some {| preview_sheet_name := sheet_name;
              preview_data_rows := preview_data;
              preview_total_rows := Z.of_nat (List.length sheet_data);
              showing_rows := Z.of_nat (List.length preview_data) |}
  end.

(** [SpreadsheetLoader.preview_data].  Without a sheet name the first sheet
    is previewed; the [IndexError] of a workbook without sheets, and the
    unbounded recursion when the first sheet has the empty name, end in the
    [except] branch, which returns the dictionary with ["error"]. *)
Definition preview_data (data : Workbook) (sheet_name : option string)
           (max_rows : Z) : option Preview :=
  match sheet_name with
  | Some n =>
      if nonempty n then preview_sheet data n max_rows
      else match wb_sheets data with
           | [] => None
           | (first_sheet_name, _) :: _ =>
               if nonempty first_sheet_name
               then preview_sheet data first_sheet_name max_rows
               else None
           end
  | None =>
      match wb_sheets data with
      | [] => None
      | (first_sheet_name, _) :: _ =>
          if nonempty first_sheet_name
          then preview_sheet data first_sheet_name max_rows
          else None
      end
  end.

End Loader.
Import Loader.

(* ================================================================== *)
(** * [main.py]: the search endpoint *)

Module Api.

(** [models.SearchQuery] *)
Record SearchQuery : Type := {
  query : string;
  max_results : Z;
  include_formulas : bool;
  include_values : bool
}.

(** [models.SearchResponse] *)
Record SearchResponse : Type := {
  response_query : string;
  results : list Models.SearchResult;
  total_results : Z
}.

(** What a handler ends with: its return value or an [HTTPException]. *)
Inductive Outcome : Type :=
| Returned (response : SearchResponse)
| Raised (status_code : Z) (detail : string).

(** The body of the [try] of [search_spreadsheets]. *)
Definition search_body {rt : Runtime} (search_engine : SemanticSearchEngine rt)
           (q : SearchQuery) : Outcome :=
  if negb (has_data search_engine)
  then Raised 400 "No spreadsheet data loaded. Please load a file or sample data first."
  else
    let results := search search_engine (query q) (max_results q) in
    Returned {| response_query := query q;
                results := results;
                total_results := Z.of_nat (List.length results) |}.

(** [search_spreadsheets]: the [try] with its [except Exception as e] branch,
    which also catches the [HTTPException] of the body; [str_exception] is
    [str(e)] of an [HTTPException]. *)
Definition search_spreadsheets {rt : Runtime}
           (str_exception : Z -> string -> string)
           (search_engine : SemanticSearchEngine rt) (q : SearchQuery)
  : Outcome :=
  match search_body search_engine q with
  | Returned response => Returned response
  | Raised status_code detail =>
      Raised 500 ("Search error: " ++ str_exception status_code detail)
  end.

(** [s.split(sep)] for a one-character separator: the pieces between the
    separators, at least one. *)
Fixpoint split_on (sep : ascii) (s : string) : list string :=
  match s with
  | EmptyString => [EmptyString]
  | String c t =>
      if Ascii.eqb c sep then EmptyString :: split_on sep t
      else match split_on sep t with
           | piece :: rest => String c piece :: rest
           | [] => [String c EmptyString]
           end
  end.

(** [MAX_FILE_SIZE] *)
Definition MAX_FILE_SIZE : Z := 50 * 1024 * 1024.

(** How far an upload gets in [load_file]: an [HTTPException], or the
    reader that [load_from_bytes] hands the bytes to. *)
Inductive Upload : Type :=
| Refused (status_code : Z) (detail : string)
| Handed (reader : Reader).

(** [load_file] up to the call of the reader: the checks of the name, of
    the extension and of the size, then the choice of [load_from_bytes],
    whose exception the last [except] branch turns into status 500.  [size]
    is [len(file_content)]. *)
Definition load_file_route (filename : string) (size : Z) : Upload :=
  if negb (nonempty filename) then Refused 400 "No file provided"
  else
    let file_extension := last (split_on "." (lower filename)) "" in
    let supported_extensions := ["xlsx"; "xls"; "csv"] in
    if negb (mem file_extension supported_extensions)
    then Refused 400 ("Unsupported file type. Supported formats: "
                      ++ join ", " supported_extensions)
    else if MAX_FILE_SIZE <? size
         then Refused 413 "File too large. Maximum size is 50MB"
         else match reader_for filename with
              | Some reader => Handed reader
              | None => Refused 500 ("Error loading file: "
                                     ++ unsupported_message filename)
              end.

End Api.

(* ================================================================== *)
(** * Notions used to state the properties of the index and of the tags *)

Module Notions.

Local Open Scope list_scope.

(** The labels that the pattern and formula rules of the tagger emit. *)
Definition tagger_labels : list string :=
  ["ratio calculation"; "percentage calculation"; "growth metric";
   "profitability metric"; "sum calculation"; "aggregation formula";
   "average calculation"; "conditional calculation"; "lookup formula"].

(** The labels that the indexer adds from the formula and the value. *)
Definition indexer_labels : list string :=
  ["ratio calculation"; "profitability metric"; "aggregation formula";
   "revenue calculation"; "cost calculation"; "average calculation";
   "conditional calculation"; "lookup formula"; "percentage value";
   "percentage calculation"; "monetary value"].

(** Everything the tagger can answer. *)
Definition tagger_vocabulary : list string :=
  map name all_concepts ++ tagger_labels.

(** Row-major order of two grid positions. *)
Definition before (a b : Z * Z) : Prop :=
  (fst a < fst b)%Z \/ (fst a = fst b /\ (snd a < snd b)%Z).

(** The position of a cell. *)
Definition position {rt : Runtime} (cell : SpreadsheetCell rt) : Z * Z :=
  (row cell, col cell).

(** The header that the first row gives to a column. *)
Definition first_row_header (data : list (list Value)) (c : nat) : string :=
  match data with
  | [] => ""
  | row0 :: _ =>
      match nth_error row0 c with
      | Some (VStr val) => strip val
      | _ => ""
      end
  end.

(** The cells that [_process_sheet] collects from the enumerated cells of
    one row, and from the enumerated rows of a sheet. *)
Definition row_cells (rt : Runtime) (sheet : string) (headers : list (Z * string))
           (i : Z) (cs : list (Z * Value)) : list (SpreadsheetCell rt) :=
  flat_map (fun c => process_cell rt sheet headers i (fst c) (snd c)) cs.

Definition sheet_cells (rt : Runtime) (sheet : string)
           (headers : list (Z * string)) (rs : list (Z * list Value))
  : list (SpreadsheetCell rt) :=
  flat_map (fun r => row_cells rt sheet headers (fst r) (enumerate (snd r))) rs.

(** The text whose embedding [_precompute_concept_embeddings] stores for a
    concept. *)
Definition concept_text (concept : BusinessConcept) : string :=
  (name concept ++ " " ++ join " " (synonyms concept)
   ++ " " ++ description concept)%string.

(** The catalog concepts that expand a query: those whose embedding is more
    similar than 0.3 to the embedding of the query. *)
Definition expands (rt : Runtime) (query : string) (concept : BusinessConcept)
  : bool :=
  Qgtb (cosine_similarity rt (encode rt query) (encode rt (concept_text concept)))
       0.3.

(** The hits of a search: the cells that have an embedding and a score above
    the floor. *)
Definition is_hit {rt : Runtime} (self : SemanticSearchEngine rt)
           (query : string) (cell : SpreadsheetCell rt) : bool :=
  match semantic_embedding cell with
  | None => false
  | Some emb => Qgtb (cell_score query (query_embedding_of self query) cell emb) 0.1
  end.

End Notions.
Import Notions.

(* ================================================================== *)
(** * Binary floating-point numbers *)

Module Floats.

Local Open Scope Q_scope.

(** A binary format of IEEE 754: the number of bits of the significand and
    the exponent of the smallest positive number.  There is no largest
    exponent: the scores stay far below the overflow threshold. *)
Record format : Type := { precision : Z; emin : Z }.

Definition binary32 : format := {| precision := 24; emin := -149 |}.
Definition binary64 : format := {| precision := 53; emin := -1074 |}.

(** [2 ** e] *)
Definition pow2 (e : Z) : Q := 2 ^ e.

(** The exponent of a number that is not zero: the largest [e] with
    [2 ** e <= |q|]. *)
Definition ilog2 (q : Q) : Z :=
  let e := (Z.log2 (Z.abs (Qnum q)) - Z.log2 (Zpos (Qden q)))%Z in
  if Qle_bool (pow2 e) (Qabs q) then e else (e - 1)%Z.

(** The nearest integer, the even one of the two when [q] is half way. *)
Definition nearest_even (q : Q) : Z :=
  let f := Qfloor q in
  match Qcompare (q - inject_Z f) (1 # 2) with
  | Lt => f
  | Gt => (f + 1)%Z
  | Eq => if Z.even f then f else (f + 1)%Z
  end.

(** Rounding to nearest, ties to even: [q] becomes the nearest multiple of
    the unit in the last place of its binade, or of [2 ** emin] in the
    subnormal range. *)
Definition round (fmt : format) (q : Q) : Q :=
  if Qeq_bool q 0 then 0
  else
    let e := Z.max (ilog2 q - precision fmt + 1) (emin fmt) in
    Qred (inject_Z (nearest_even (q / pow2 e)) * pow2 e).

End Floats.

(* ================================================================== *)
(** * The scores in floating point

    The functions of [semantic_search.py] that compute the scores, with the
    rounding of every floating-point operation written out.  A Python
    [float] is a binary64 number; [format] below is the format in which
    NumPy evaluates the sum of [search]: binary32 when [similarity] is a
    [numpy.float32] and Python floats are weak scalars (NumPy 2), binary64
    when the operands are promoted to Python floats. *)

Module Rounded.

Import Floats.

Local Open Scope Q_scope.
Local Open Scope list_scope.

(** A [float] literal of the source. *)
Definition py_float (q : Q) : Q := round binary64 q.

(** [a + b] and [a * b] on two Python floats. *)
Definition fadd (a b : Q) : Q := round binary64 (a + b).
Definition fmul (a b : Q) : Q := round binary64 (a * b).

(** [len(common) / len(all)]: the true division of two [int]. *)
Definition len_ratio (common all : list string) : Q :=
  round binary64 (SemanticSearch.len_ratio common all).

(** [SemanticSearchEngine._calculate_concept_relevance] *)
Definition _calculate_concept_relevance (query : string)
           (cell_concepts : list string) : Q :=
  match cell_concepts with
  | [] => py_float 0.0
  | _ :: _ =>
      let query_lower := lower query in
      match map py_float (relevance_scores query_lower cell_concepts) with
      | [] => py_float 0.0
      | x :: xs => py_max x xs
      end
  end.

(** One of the two [relevance += w * (len(common_words) / len(query_words))]
    of [_calculate_contextual_relevance], with its guard. *)
Definition add_overlap (relevance w : Q) (text query_lower : string) : Q :=
  let text_words := split (lower text) in
  let query_words := split query_lower in
  let common_words := set_inter text_words query_words in
  match common_words with
  | [] => relevance
  | _ :: _ =>
      fadd relevance (fmul (py_float w) (len_ratio common_words query_words))
  end.

(** [SemanticSearchEngine._calculate_contextual_relevance] *)
Definition _calculate_contextual_relevance {rt : Runtime} (query : string)
           (cell : SpreadsheetCell rt) : Q :=
  let relevance := py_float 0.0 in
  let query_lower := lower query in
  let relevance :=
    if nonempty (header_context cell)
    then add_overlap relevance 0.3 (header_context cell) query_lower
    else relevance in
  let relevance := add_overlap relevance 0.2 (sheet_name cell) query_lower in
  py_min relevance (py_float 1.0).

(** The local [final_score] of the loop of [search], evaluated in the format
    [fmt]: the product of [similarity] with the literal is taken in [fmt],
    the two other products are products of Python floats, and each sum is
    taken in [fmt] after its Python operand is converted to it. *)
Definition final_score (fmt : format)
           (similarity concept_relevance contextual_relevance : Q) : Q :=
  let similarity_term := round fmt (similarity * round fmt (py_float 0.4)) in
  let concept_term := fmul concept_relevance (py_float 0.4) in
  let contextual_term := fmul contextual_relevance (py_float 0.2) in
  let partial := round fmt (similarity_term + round fmt concept_term) in
  round fmt (partial + round fmt contextual_term).

(** The score that the loop of [search] computes for a cell with the
    embedding [emb]. *)
Definition cell_score {rt : Runtime} (fmt : format) (query : string)
           (query_embedding : Embedding rt) (cell : SpreadsheetCell rt)
           (emb : Embedding rt) : Q :=
  let similarity := similarity_of query_embedding emb in
  let concept_relevance :=
    _calculate_concept_relevance query (business_concepts cell) in
  let contextual_relevance := _calculate_contextual_relevance query cell in
  final_score fmt similarity concept_relevance contextual_relevance.

(** The sum of the three weighted scores, without any rounding. *)
Definition weighted_sum (similarity concept_relevance contextual_relevance : Q)
  : Q :=
  0.4 * similarity + 0.4 * concept_relevance + 0.2 * contextual_relevance.

End Rounded.

(* ================================================================== *)
(** * Column letters *)

Section ColumnLetters.

Local Open Scope Z_scope.

Lemma ord_range (c : ascii) : 0 <= ord c < 256.
Proof.
  unfold ord. pose proof (nat_ascii_bounded c) as Hb. lia.
Qed.

Lemma ord_chr (k : Z) : 0 <= k < 256 -> ord (chr k) = k.
Proof.
  intros Hk. unfold ord, chr.
  rewrite nat_ascii_embedding by lia. lia.
Qed.

Lemma chr_ord (c : ascii) : chr (ord c) = c.
Proof.
  unfold ord, chr. rewrite Nat2Z.id. apply ascii_nat_embedding.
Qed.

Lemma ord_A : ord "A" = 65.
Proof. reflexivity. Qed.

Lemma is_upper_letter_value (c : ascii) :
  is_upper c = true <-> 1 <= letter_value c <= 26.
Proof.
  unfold is_upper, letter_value. rewrite ord_A, andb_true_iff, !Z.leb_le. lia.
Qed.

Lemma digit_value (n : Z) : letter_value (digit n) = (n - 1) mod 26 + 1.
Proof.
  unfold letter_value, digit. rewrite ord_A.
  pose proof (Z.mod_pos_bound (n - 1) 26 ltac:(lia)).
  rewrite ord_chr by lia. lia.
Qed.

Lemma digit_is_upper (n : Z) : is_upper (digit n) = true.
Proof.
  apply is_upper_letter_value. rewrite digit_value.
  pose proof (Z.mod_pos_bound (n - 1) 26 ltac:(lia)). lia.
Qed.

Lemma loop_step (fuel : nat) (n : Z) (acc : string) :
  0 < n ->
  col_letter_loop (S fuel) n acc
  = col_letter_loop fuel ((n - 1) / 26) (String (digit n) acc).
Proof.
  intros Hn. simpl. destruct (Z.ltb_spec 0 n); [reflexivity | lia].
Qed.

Lemma loop_stop (fuel : nat) (n : Z) (acc : string) :
  n <= 0 -> col_letter_loop fuel n acc = acc.
Proof.
  intros Hn. destruct fuel; simpl; [reflexivity|].
  destruct (Z.ltb_spec 0 n); [lia | reflexivity].
Qed.

Lemma next_smaller (n : Z) : 0 < n -> 0 <= (n - 1) / 26 < n.
Proof.
  intros Hn. split.
  - apply Z.div_pos; lia.
  - assert ((n - 1) / 26 <= n - 1) by (apply Z.div_le_upper_bound; lia). lia.
Qed.

(** The loop ends within [Z.to_nat col_num] iterations: more fuel changes
    nothing. *)
Lemma loop_fuel_irrelevant (f1 : nat) :
  forall (f2 : nat) (n : Z) (acc : string),
    (Z.to_nat n <= f1)%nat -> (Z.to_nat n <= f2)%nat ->
    col_letter_loop f1 n acc = col_letter_loop f2 n acc.
Proof.
  induction f1 as [|f1 IH]; intros f2 n acc H1 H2.
  - rewrite !loop_stop by lia. reflexivity.
  - destruct (Z.ltb_spec 0 n) as [Hn|Hn].
    + destruct f2 as [|f2]; [lia|].
      rewrite !loop_step by assumption.
      pose proof (next_smaller n Hn).
      apply IH; lia.
    + rewrite !loop_stop by lia. reflexivity.
Qed.

Lemma loop_decode (fuel : nat) :
  forall (n : Z) (acc : string),
    (Z.to_nat n <= fuel)%nat ->
    decode_from 0 (col_letter_loop fuel n acc) = decode_from (Z.max 0 n) acc.
Proof.
  induction fuel as [|fuel IH]; intros n acc Hf.
  - rewrite loop_stop by lia. f_equal. lia.
  - destruct (Z.ltb_spec 0 n) as [Hn|Hn].
    + rewrite loop_step by assumption.
      pose proof (next_smaller n Hn).
      rewrite IH by lia. cbn [decode_from]. rewrite digit_value. f_equal.
      pose proof (Z.div_mod (n - 1) 26 ltac:(lia)). lia.
    + rewrite loop_stop by lia. f_equal. lia.
Qed.

Lemma loop_all_letters (fuel : nat) :
  forall (n : Z) (acc : string),
    all_letters acc = true -> all_letters (col_letter_loop fuel n acc) = true.
Proof.
  induction fuel as [|fuel IH]; intros n acc Hacc; simpl; [assumption|].
  destruct (0 <? n); [|assumption].
  apply IH. simpl. fold (digit n). rewrite digit_is_upper. assumption.
Qed.

Lemma decode_from_lower_bound (s : string) :
  forall v, all_letters s = true -> 0 <= v -> v <= decode_from v s.
Proof.
  induction s as [|c t IH]; intros v Hs Hv; cbn [decode_from all_letters] in *; [lia|].
  apply andb_true_iff in Hs as [Hc Ht].
  apply is_upper_letter_value in Hc.
  specialize (IH (26 * v + letter_value c) Ht). lia.
Qed.

(** Encoding the value of a numeral gives the numeral back. *)
Lemma loop_of_decode (s : string) :
  forall (v : Z) (acc : string) (f1 f2 : nat),
    all_letters s = true -> 0 <= v ->
    (Z.to_nat (decode_from v s) <= f1)%nat -> (Z.to_nat v <= f2)%nat ->
    col_letter_loop f1 (decode_from v s) acc = col_letter_loop f2 v (s ++ acc).
Proof.
  induction s as [|c t IH]; intros v acc f1 f2 Hs Hv H1 H2;
    cbn [decode_from all_letters String.append] in *.
  - apply loop_fuel_irrelevant; assumption.
  - apply andb_true_iff in Hs as [Hc Ht].
    pose proof Hc as Hup.
    apply is_upper_letter_value in Hc.
    set (v' := 26 * v + letter_value c) in *.
    rewrite (IH v' acc f1 (Z.to_nat v')); try assumption; try lia.
    destruct (Z.to_nat v') as [|k] eqn:Hk; [lia|].
    rewrite loop_step by lia.
    assert (Hq : (v' - 1) / 26 = v)
      by (symmetry; apply Z.div_unique with (r := letter_value c - 1); lia).
    assert (Hr : (v' - 1) mod 26 = letter_value c - 1)
      by (symmetry; apply Z.mod_unique with (q := v); lia).
    assert (Hd : digit v' = c).
    { unfold digit. rewrite Hr. unfold letter_value.
      rewrite <- (chr_ord c) at 2. f_equal. lia. }
    rewrite Hq, Hd. apply loop_fuel_irrelevant; lia.
Qed.

Lemma column_letters_decode (col : Z) :
  decode_letters (column_letters col) = Z.max 0 (col + 1).
Proof.
  unfold decode_letters, column_letters. rewrite loop_decode by lia. reflexivity.
Qed.

Lemma column_letters_unique (col : Z) (s : string) :
  all_letters s = true -> decode_letters s = col + 1 -> column_letters col = s.
Proof.
  intros Hs Hd. unfold column_letters. rewrite <- Hd. unfold decode_letters.
  rewrite (loop_of_decode s 0 "" _ 0%nat); try assumption; try lia.
  simpl. clear. induction s as [|c t IH]; simpl; [reflexivity|]. now rewrite IH.
Qed.

End ColumnLetters.

(** C6: the reference of a cell is its column letters followed by the decimal
    of [row + 1]; the column letters are letters A to Z only, their value as a
    bijective base-26 numeral is [col + 1] (no letter at all below column 0),
    and no other string of letters has that value; columns 0, 25, 26, 27,
    701 and 702 give A, Z, AA, AB, ZZ and AAA. *)
Theorem cell_reference_is_bijective_base26 :
  (forall row col : Z,
      _get_excel_cell_reference row col
      = (column_letters col ++ str_int (row + 1))%string
      /\ all_letters (column_letters col) = true
      /\ decode_letters (column_letters col) = Z.max 0 (col + 1)
      /\ (forall s : string,
             all_letters s = true -> decode_letters s = col + 1 ->
             s = column_letters col))
  /\ _get_excel_cell_reference 0 0 = "A1"
  /\ _get_excel_cell_reference 0 25 = "Z1"
  /\ _get_excel_cell_reference 0 26 = "AA1"
  /\ _get_excel_cell_reference 4 27 = "AB5"
  /\ column_letters 701 = "ZZ"
  /\ column_letters 702 = "AAA".
Proof.
  split; [|repeat split; reflexivity].
  intros row col. split; [reflexivity|]. split; [|split].
  - unfold column_letters. apply loop_all_letters. reflexivity.
  - apply column_letters_decode.
  - intros s Hs Hd. symmetry. apply column_letters_unique; assumption.
Qed.

Lemma cell_reference_is_bijective_base26_witness :
  _get_excel_cell_reference 4 27 = "AB5" /\ "AB" = column_letters 27.
Proof.
  destruct cell_reference_is_bijective_base26 as [Hall Hex].
  split.
  - apply Hex.
  - destruct (Hall 4 27) as (_ & _ & _ & Huniq).
    apply (Huniq "AB"); reflexivity.
Defined.

(** C7: on the columns 0 to 1000, decoding the letters that the encoder
    produces gives the column back. *)
Theorem column_letters_round_trip (col : Z) :
  0 <= col <= 1000 -> decode_column (column_letters col) = col.
Proof.
  intros Hc. unfold decode_column. rewrite column_letters_decode. lia.
Qed.

Lemma column_letters_round_trip_witness :
  decode_column (column_letters 701) = 701.
Proof.
  apply (column_letters_round_trip 701). lia.
Defined.

(* ================================================================== *)
(** * The sort and the slice *)

Section SortFacts.

Context {A : Type} (key : A -> Q).

Local Open Scope Q_scope.

Lemma Qle_bool_false (x y : Q) : Qle_bool x y = false -> y < x.
Proof.
  intros H. apply Qnot_le_lt. intros Hle.
  apply Qle_bool_iff in Hle. congruence.
Qed.

Lemma Qgtb_true (x y : Q) : Qgtb x y = true <-> y < x.
Proof.
  unfold Qgtb. rewrite negb_true_iff. split.
  - apply Qle_bool_false.
  - intros Hlt. destruct (Qle_bool x y) eqn:E; [|reflexivity].
    apply Qle_bool_iff in E. exfalso. apply (Qlt_not_le _ _ Hlt E).
Qed.

Lemma insert_by_perm (x : A) (l : list A) :
  Permutation (insert_by key x l) (x :: l).
Proof.
  induction l as [|y t IH]; simpl; [reflexivity|].
  destruct (Qle_bool (key x) (key y)); [reflexivity|].
  rewrite IH. apply perm_swap.
Qed.

Lemma sort_asc_perm (l : list A) : Permutation (sort_asc key l) l.
Proof.
  induction l as [|x t IH]; simpl; [reflexivity|].
  rewrite insert_by_perm. now rewrite IH.
Qed.

Lemma list_sort_perm (reverse : bool) (l : list A) :
  Permutation (list_sort key reverse l) l.
Proof.
  unfold list_sort. destruct reverse; [|apply sort_asc_perm].
  rewrite <- Permutation_rev, sort_asc_perm. symmetry. apply Permutation_rev.
Qed.

Lemma insert_by_sorted (x : A) (l : list A) :
  Sorted (ascending key) l -> Sorted (ascending key) (insert_by key x l).
Proof.
  induction l as [|y t IH]; intros Hs; simpl.
  - repeat constructor.
  - destruct (Qle_bool (key x) (key y)) eqn:E.
    + constructor; [assumption|]. constructor. now apply Qle_bool_iff.
    + inversion Hs as [|? ? Hst Hhd]; subst.
      constructor; [apply IH; assumption|].
      apply Qle_bool_false, Qlt_le_weak in E.
      destruct t as [|z t']; simpl.
      * constructor. exact E.
      * destruct (Qle_bool (key x) (key z)); constructor; [exact E|].
        now inversion Hhd.
Qed.

Lemma sort_asc_sorted (l : list A) : Sorted (ascending key) (sort_asc key l).
Proof.
  induction l as [|x t IH]; simpl; [constructor|].
  now apply insert_by_sorted.
Qed.

Lemma asc_transitive : Relations_1.Transitive (ascending key).
Proof. intros a b c Hab Hbc. unfold ascending in *. now apply Qle_trans with (key b). Qed.

Lemma strongly_sorted_snoc (l : list A) (x : A) :
  StronglySorted (descending key) l -> Forall (fun y => (descending key) y x) l ->
  StronglySorted (descending key) (l ++ [x]).
Proof.
  induction l as [|y t IH]; intros Hs Hall; simpl.
  - repeat constructor.
  - inversion Hs as [|? ? Hst Hy]; subst.
    inversion Hall as [|? ? Hyx Ht]; subst.
    constructor; [now apply IH|].
    apply Forall_app. split; [assumption|]. now constructor.
Qed.

Lemma rev_sorted (l : list A) : Sorted (ascending key) l -> Sorted (descending key) (rev l).
Proof.
  intros Hs. apply StronglySorted_Sorted.
  apply (Sorted_StronglySorted asc_transitive) in Hs.
  induction Hs as [|a l Hst IH Hall]; simpl; [constructor|].
  apply strongly_sorted_snoc; [assumption|].
  apply Forall_rev. exact Hall.
Qed.

Lemma firstn_sorted (R : A -> A -> Prop) (n : nat) :
  forall l, Sorted R l -> Sorted R (firstn n l).
Proof.
  induction n as [|n IH]; intros l Hs; simpl; [constructor|].
  destruct l as [|a t]; [constructor|].
  inversion Hs as [|? ? Hst Hhd]; subst.
  constructor; [now apply IH|].
  destruct n; simpl; [constructor|].
  destruct t; [constructor|]. constructor. now inversion Hhd.
Qed.

Lemma slice_to_firstn (k : Z) (l : list A) : exists n, slice_to k l = firstn n l.
Proof.
  unfold slice_to. destruct (0 <=? k)%Z; eexists; reflexivity.
Qed.

Lemma slice_to_incl (k : Z) (l : list A) (x : A) :
  In x (slice_to k l) -> In x l.
Proof.
  destruct (slice_to_firstn k l) as [n ->]. intros H.
  rewrite <- (firstn_skipn n l). apply in_or_app. now left.
Qed.

(** [reverse=True] sorts in descending order. *)
Lemma list_sort_reverse_sorted (l : list A) : Sorted (descending key) (list_sort key true l).
Proof.
  unfold list_sort. apply rev_sorted, sort_asc_sorted.
Qed.

Lemma insert_by_stable (s : Q) (x : A) (l : list A) :
  with_key key s (insert_by key x l) = with_key key s (x :: l).
Proof.
  unfold with_key. induction l as [|y t IH]; [reflexivity|].
  cbn [insert_by]. destruct (Qle_bool (key x) (key y)) eqn:E; [reflexivity|].
  apply Qle_bool_false in E.
  cbn [filter] in *. rewrite IH.
  destruct (Qeq_bool (key x) s) eqn:Ex; [|reflexivity].
  destruct (Qeq_bool (key y) s) eqn:Ey; [|reflexivity].
  apply Qeq_bool_iff in Ex, Ey. exfalso.
  rewrite Ex, Ey in E. exact (Qlt_irrefl _ E).
Qed.

Lemma sort_asc_stable (s : Q) (l : list A) :
  with_key key s (sort_asc key l) = with_key key s l.
Proof.
  induction l as [|x t IH]; [reflexivity|].
  cbn [sort_asc fold_right]. fold (sort_asc key t).
  rewrite insert_by_stable. unfold with_key in *. cbn [filter]. now rewrite IH.
Qed.

(** The sort is stable in both directions: the entries of one key keep
    their order. *)
Lemma list_sort_stable (reverse : bool) (s : Q) (l : list A) :
  with_key key s (list_sort key reverse l) = with_key key s l.
Proof.
  unfold list_sort. destruct reverse; [|apply sort_asc_stable].
  unfold with_key. rewrite filter_rev.
  fold (with_key key s (sort_asc key (rev l))). rewrite sort_asc_stable.
  unfold with_key. rewrite filter_rev. apply rev_involutive.
Qed.

Lemma slice_to_prefix (p : A -> bool) (k : Z) (l : list A) :
  exists rest, filter p l = (filter p (slice_to k l) ++ rest)%list.
Proof.
  destruct (slice_to_firstn k l) as [n ->].
  exists (filter p (skipn n l)).
  rewrite <- filter_app. now rewrite firstn_skipn.
Qed.

Lemma slice_to_length (k : Z) (l : list A) :
  (0 <= k)%Z -> (Z.of_nat (List.length (slice_to k l)) <= k)%Z.
Proof.
  intros Hk. unfold slice_to. destruct (Z.leb_spec 0 k); [|lia].
  rewrite length_firstn. lia.
Qed.

Lemma slice_to_negative_length (k : Z) (l : list A) :
  (k < 0)%Z ->
  Z.of_nat (List.length (slice_to k l))
  = Z.max 0 (Z.of_nat (List.length l) + k)%Z.
Proof.
  intros Hk. unfold slice_to. destruct (Z.leb_spec 0 k); [lia|].
  rewrite length_firstn. lia.
Qed.

End SortFacts.

(* ================================================================== *)
(** * The loop of [search] *)

Section SearchFacts.

Context {rt : Runtime} (self : SemanticSearchEngine rt) (query : string).

Local Open Scope Q_scope.

Lemma search_unfold (max_results : Z) :
  search self query max_results
  = slice_to max_results
             (list_sort Models.relevance_score true (search_results self query)).
Proof.
  unfold search, search_results. destruct (cells self) as [|c t]; [|reflexivity].
  simpl. unfold slice_to. destruct (0 <=? max_results)%Z; now rewrite firstn_nil.
Qed.

(** What is returned was appended by the loop. *)
Lemma search_incl (max_results : Z) (r : Models.SearchResult) :
  In r (search self query max_results) -> In r (search_results self query).
Proof.
  rewrite search_unfold. intros H. apply slice_to_incl in H.
  eapply Permutation_in; [apply list_sort_perm | exact H].
Qed.

Lemma search_results_origin (r : Models.SearchResult) :
  In r (search_results self query) <->
  exists cell, In cell (cells self) /\ In r (search_cell query (query_embedding_of self query) cell).
Proof.
  unfold search_results. rewrite in_flat_map. reflexivity.
Qed.

Lemma search_cell_inv (cell : SpreadsheetCell rt) (r : Models.SearchResult) :
  In r (search_cell query (query_embedding_of self query) cell) <->
  exists emb,
    semantic_embedding cell = Some emb
    /\ 0.1 < cell_score query (query_embedding_of self query) cell emb
    /\ r = make_result query cell (cell_score query (query_embedding_of self query) cell emb).
Proof.
  unfold search_cell. destruct (semantic_embedding cell) as [emb|].
  - destruct (Qgtb (cell_score query (query_embedding_of self query) cell emb) 0.1) eqn:E.
    + apply Qgtb_true in E. split.
      * intros [<-|[]]. exists emb. auto.
      * intros (emb' & Hemb & _ & ->). injection Hemb as <-. now left.
    + split; [intros []|].
      intros (emb' & Hemb & Hlt & _). injection Hemb as <-.
      apply Qgtb_true in Hlt. congruence.
  - split; [intros []|]. intros (emb & Hemb & _). discriminate.
Qed.

(** Every returned result is the result of one indexed cell that has its
    embedding and whose score is above the floor. *)
Lemma search_origin (max_results : Z) (r : Models.SearchResult) :
  In r (search self query max_results) ->
  exists cell emb,
    In cell (cells self)
    /\ semantic_embedding cell = Some emb
    /\ 0.1 < cell_score query (query_embedding_of self query) cell emb
    /\ r = make_result query cell (cell_score query (query_embedding_of self query) cell emb).
Proof.
  intros H. apply search_incl, search_results_origin in H.
  destruct H as (cell & Hcell & Hr). apply search_cell_inv in Hr.
  destruct Hr as (emb & Hemb & Hlt & Hr). exists cell, emb. auto.
Qed.

Lemma cell_score_weights (cell : SpreadsheetCell rt) (emb : Embedding rt) :
  cell_score query (query_embedding_of self query) cell emb
  == 0.4 * similarity_of (query_embedding_of self query) emb
     + 0.4 * _calculate_concept_relevance query (business_concepts cell)
     + 0.2 * _calculate_contextual_relevance query cell.
Proof.
  unfold cell_score, final_score. ring.
Qed.

End SearchFacts.

(** C4: whatever the query and [max_results], no returned result has a
    relevance score of 0.10 or less. *)
Theorem search_respects_floor
        (rt : Runtime) (self : SemanticSearchEngine rt) (query : string)
        (max_results : Z) (r : Models.SearchResult) :
  In r (search self query max_results) ->
  ~ (Models.relevance_score r <= 0.1)%Q.
Proof.
  intros Hr.
  destruct (search_origin self query max_results r Hr)
    as (cell & emb & _ & _ & Hlt & ->).
  cbn [Models.relevance_score make_result]. now apply Qlt_not_le.
Qed.

Lemma search_respects_floor_witness :
  In (Samples.top_hit 0.5) (search (Samples.engine 0.5) "total revenue" 10)
  /\ ~ (Models.relevance_score (Samples.top_hit 0.5) <= 0.1)%Q.
Proof.
  assert (H : In (Samples.top_hit 0.5)
                 (search (Samples.engine 0.5) "total revenue" 10))
    by (vm_compute; left; reflexivity).
  split; [exact H|].
  exact (search_respects_floor _ (Samples.engine 0.5) "total revenue" 10
                               (Samples.top_hit 0.5) H).
Defined.

(** C5: the returned scores never increase from an entry to the next; for
    every score, the returned entries with that score are, in order, the
    first of the entries with that score that the loop over the cells
    produced; and a search with a bound [max_results] (a number of entries,
    so not negative) returns at most [max_results] entries. *)
Theorem search_is_sorted_stable_and_sliced
        (rt : Runtime) (self : SemanticSearchEngine rt) (query : string)
        (max_results : Z) :
  non_increasing (search self query max_results)
  /\ (forall s : Q,
         exists rest,
           with_score s (search_results self query)
           = (with_score s (search self query max_results) ++ rest)%list)
  /\ ((0 <= max_results)%Z -> at_most max_results (search self query max_results)).
Proof.
  rewrite search_unfold. repeat split.
  - unfold non_increasing.
    destruct (slice_to_firstn max_results
                (list_sort Models.relevance_score true (search_results self query)))
      as [n ->].
    apply firstn_sorted, list_sort_reverse_sorted.
  - intros s. unfold with_score.
    rewrite <- (list_sort_stable Models.relevance_score true s
                                 (search_results self query)).
    apply slice_to_prefix.
  - intros Hk. apply slice_to_length, Hk.
Qed.

Lemma search_is_sorted_stable_and_sliced_witness :
  at_most 2 (search (Samples.engine 0.5) "total revenue" 2).
Proof.
  apply (search_is_sorted_stable_and_sliced _ (Samples.engine 0.5)
                                             "total revenue" 2).
  lia.
Defined.

(* ================================================================== *)
(** * Strings and sets of strings *)

Section StringFacts.

Lemma mem_In (x : string) (xs : list string) : mem x xs = true <-> In x xs.
Proof.
  unfold mem. rewrite existsb_exists. split.
  - intros (y & Hy & E). apply String.eqb_eq in E. now subst.
  - intros H. exists x. split; [assumption | apply String.eqb_refl].
Qed.

Lemma dedup_In (x : string) (xs : list string) : In x (dedup xs) <-> In x xs.
Proof.
  induction xs as [|y t IH]; simpl; [reflexivity|].
  destruct (mem y t) eqn:E.
  - rewrite IH. split; [auto|]. intros [<-|H]; [|assumption].
    now apply mem_In.
  - simpl. now rewrite IH.
Qed.

Lemma dedup_nil (xs : list string) : dedup xs = [] <-> xs = [].
Proof.
  split; [|now intros ->].
  destruct xs as [|y t]; [reflexivity|]. intros H. exfalso.
  assert (Hy : In y (dedup (y :: t))) by (apply dedup_In; now left).
  rewrite H in Hy. exact Hy.
Qed.

Lemma set_inter_In (x : string) (xs ys : list string) :
  In x (set_inter xs ys) <-> In x xs /\ In x ys.
Proof.
  unfold set_inter. rewrite dedup_In, filter_In, mem_In. reflexivity.
Qed.

Lemma set_inter_nonempty (xs ys : list string) :
  set_inter xs ys <> [] <-> existsb (fun x => mem x ys) xs = true.
Proof.
  rewrite existsb_exists. split.
  - intros H. destruct (set_inter xs ys) as [|x t] eqn:E; [congruence|].
    assert (Hx : In x (set_inter xs ys)) by (rewrite E; now left).
    apply set_inter_In in Hx as [Hx Hy]. exists x. now rewrite mem_In.
  - intros (x & Hx & Hy) E. apply mem_In in Hy.
    assert (Hin : In x (set_inter xs ys)) by now apply set_inter_In.
    rewrite E in Hin. exact Hin.
Qed.

Lemma prefix_refl_app (p s : string) : String.prefix p (p ++ s) = true.
Proof.
  induction p as [|c p IH]; simpl; [destruct s; reflexivity|].
  destruct (ascii_dec c c); [assumption | congruence].
Qed.

Lemma str_in_unfold (needle hay : string) :
  str_in needle hay
  = String.prefix needle hay
    || match hay with
       | EmptyString => false
       | String _ t => str_in needle t
       end.
Proof. destruct hay; reflexivity. Qed.

Lemma str_in_prefix (p s : string) : str_in p (p ++ s) = true.
Proof.
  rewrite str_in_unfold, prefix_refl_app. reflexivity.
Qed.

Lemma str_in_skip (w p s : string) : str_in w s = true -> str_in w (p ++ s) = true.
Proof.
  intros H. induction p as [|c p IH]; simpl; [assumption|].
  rewrite IH. apply orb_true_r.
Qed.

Lemma append_snoc (cur : string) (c : ascii) (t : string) :
  ((cur ++ String c EmptyString) ++ t = cur ++ String c t)%string.
Proof.
  induction cur as [|d cur IH]; simpl; [reflexivity|]. now rewrite IH.
Qed.

Lemma append_empty (s : string) : (s ++ "")%string = s.
Proof.
  induction s as [|c s IH]; simpl; [reflexivity|]. now rewrite IH.
Qed.

Lemma split_aux_substring (w : string) (s : string) :
  forall cur, In w (split_aux cur s) -> str_in w (cur ++ s) = true.
Proof.
  induction s as [|c t IH]; intros cur H; simpl in H.
  - destruct (nonempty cur); [|contradiction].
    destruct H as [<-|[]]. apply str_in_prefix.
  - destruct (isspace c).
    + assert (Ht : In w (split_aux "" t) -> str_in w (cur ++ String c t) = true).
      { intros Hin. apply str_in_skip.
        pose proof (IH "" Hin) as Hw. cbn [String.append] in Hw.
        rewrite str_in_unfold, Hw. apply orb_true_r. }
      destruct (nonempty cur); [|auto].
      destruct H as [<-|H]; [apply str_in_prefix | auto].
    + rewrite <- append_snoc. now apply IH.
Qed.

(** A word of a text occurs in the text. *)
Lemma split_substring (w s : string) : In w (split s) -> str_in w s = true.
Proof.
  intros H. apply (split_aux_substring w s "" H).
Qed.

Lemma lower_char_facts (c : ascii) :
  lower_char (lower_char c) = lower_char c
  /\ (if ascii_dec "=" (lower_char c) then true else false)
     = (if ascii_dec "=" c then true else false)
  /\ (if ascii_dec "/" (lower_char c) then true else false)
     = (if ascii_dec "/" c then true else false).
Proof.
  destruct c as [[] [] [] [] [] [] [] []]; vm_compute; repeat split.
Qed.

Lemma lower_idempotent (s : string) : lower (lower s) = lower s.
Proof.
  induction s as [|c t IH]; simpl; [reflexivity|].
  rewrite IH. f_equal. apply lower_char_facts.
Qed.

Lemma prefix_char (a b : ascii) (t : string) :
  String.prefix (String a EmptyString) (String b t)
  = if ascii_dec a b then true else false.
Proof.
  cbn [String.prefix]. destruct (ascii_dec a b); [destruct t|]; reflexivity.
Qed.

Lemma startswith_eq_lower (s : string) :
  startswith (lower s) "=" = startswith s "=".
Proof.
  destruct s as [|c t]; [reflexivity|]. unfold startswith. cbn [lower].
  rewrite !prefix_char. apply lower_char_facts.
Qed.

Lemma slash_in_lower (s : string) : str_in "/" (lower s) = str_in "/" s.
Proof.
  induction s as [|c t IH]; [reflexivity|]. cbn [lower].
  rewrite (str_in_unfold _ (String c t)),
          (str_in_unfold _ (String (lower_char c) (lower t))).
  rewrite !prefix_char, IH. f_equal. apply lower_char_facts.
Qed.

End StringFacts.

(* ================================================================== *)
(** * The tagger *)

Section TaggerFacts.

(** The tags of a text do not depend on its case. *)
Lemma identify_concepts_lower (text : string) :
  identify_concepts (lower text) = identify_concepts text.
Proof.
  unfold identify_concepts, _identify_formula_concepts.
  rewrite !lower_idempotent, startswith_eq_lower, slash_in_lower. reflexivity.
Qed.

(** Duplicate-freeness of a list of strings, as a test. *)
Lemma no_duplicate_sound (xs : list string) :
  no_duplicate xs = true -> NoDup xs.
Proof.
  induction xs as [|x t IH]; intros H; [constructor|]. cbn [no_duplicate] in H.
  apply andb_true_iff in H as [Hx Ht]. constructor; [|now apply IH].
  intros Hin. apply mem_In in Hin. rewrite Hin in Hx. discriminate.
Qed.

(** The names of the catalog are pairwise different. *)
Lemma catalog_names_unique : NoDup (map name all_concepts).
Proof. apply no_duplicate_sound. vm_compute. reflexivity. Qed.

Lemma same_name_same_concept (c1 c2 : BusinessConcept) :
  In c1 all_concepts -> In c2 all_concepts -> name c1 = name c2 -> c1 = c2.
Proof.
  pose proof catalog_names_unique as Hnd. revert Hnd.
  generalize all_concepts as l.
  induction l as [|c t IH]; intros Hnd H1 H2 E; [contradiction|].
  simpl in Hnd. apply NoDup_cons_iff in Hnd as [Hc Ht].
  destruct H1 as [<-|H1], H2 as [<-|H2].
  - reflexivity.
  - exfalso. apply Hc. rewrite E. now apply in_map.
  - exfalso. apply Hc. rewrite <- E. now apply in_map.
  - now apply IH.
Qed.

Lemma matched_names_iff (text_lower : string) (concept : BusinessConcept) :
  In concept all_concepts ->
  (In (name concept) (matched_names text_lower)
   <-> _matches_concept text_lower concept = true).
Proof.
  intros Hc. unfold matched_names. rewrite in_map_iff. split.
  - intros (c' & E & Hin). apply filter_In in Hin as [Hin Hm].
    now rewrite <- (same_name_same_concept c' concept Hin Hc E).
  - intros Hm. exists concept. split; [reflexivity|]. now apply filter_In.
Qed.

Lemma matches_concept_iff (text_lower : string) (concept : BusinessConcept) :
  _matches_concept text_lower concept = true
  <-> exists term,
        In term (all_terms concept)
        /\ forall word, In word (split (lower term)) ->
                        str_in word text_lower = true.
Proof.
  unfold _matches_concept, term_matches. rewrite existsb_exists.
  split; intros (term & Hin & H); exists term; (split; [assumption|]).
  - now rewrite forallb_forall in H.
  - now rewrite forallb_forall.
Qed.

Lemma words_match_implies_substrings_match (text : string) (concept : BusinessConcept) :
  matches_concept_words text concept = true ->
  _matches_concept (lower text) concept = true.
Proof.
  unfold matches_concept_words, _matches_concept, term_matches_words, term_matches.
  rewrite !existsb_exists. intros (term & Hin & H). exists term. split; [assumption|].
  rewrite forallb_forall in *. intros w Hw.
  apply split_substring, mem_In, H, Hw.
Qed.

End TaggerFacts.

(** C3, as the code has it: the tagger gives a text the name of a catalog
    concept exactly when one of the concept's terms (name, synonyms,
    keywords) has every one of its words occurring as a substring of the
    lower-cased text, or when a structural or formula rule emits that name;
    a term whose words are all words of the text is such a term. *)
Theorem tagger_matches_terms_by_substring
        (text : string) (concept : BusinessConcept) :
  In concept all_concepts ->
  (In (name concept) (identify_concepts text)
   <-> (exists term,
           In term (all_terms concept)
           /\ forall word, In word (split (lower term)) ->
                           str_in word (lower text) = true)
       \/ In (name concept) (_identify_patterns (lower text))
       \/ In (name concept) (_identify_formula_concepts text))
  /\ (matches_concept_words text concept = true ->
      In (name concept) (identify_concepts text)).
Proof.
  intros Hc.
  assert (Hiff : In (name concept) (identify_concepts text)
                 <-> _matches_concept (lower text) concept = true
                     \/ In (name concept) (_identify_patterns (lower text))
                     \/ In (name concept) (_identify_formula_concepts text)).
  { unfold identify_concepts. rewrite dedup_In, !in_app_iff.
    now rewrite (matched_names_iff (lower text) concept Hc). }
  split.
  - rewrite Hiff, matches_concept_iff. reflexivity.
  - intros Hw. apply Hiff. left.
    now apply words_match_implies_substrings_match.
Qed.

Lemma tagger_matches_terms_by_substring_witness :
  In Samples.sum_calculation all_concepts
  /\ In (name Samples.sum_calculation) (identify_concepts "Sum of costs").
Proof.
  assert (Hc : In Samples.sum_calculation all_concepts)
    by (vm_compute; do 25 right; left; reflexivity).
  split; [exact Hc|].
  apply (proj2 (tagger_matches_terms_by_substring "Sum of costs"
                                                  Samples.sum_calculation Hc)).
  vm_compute. reflexivity.
Defined.

(** C3 as stated fails: "summary" is tagged with the sum concept because
    "sum" occurs inside it, although no term of that concept has all its
    words among the words of the text. *)
Lemma tagger_matches_inside_a_word :
  In Samples.sum_calculation all_concepts
  /\ In (name Samples.sum_calculation) (identify_concepts "summary")
  /\ matches_concept_words "summary" Samples.sum_calculation = false.
Proof.
  split; [vm_compute; do 25 right; left; reflexivity|].
  split; [vm_compute; left; reflexivity | vm_compute; reflexivity].
Qed.

(* ================================================================== *)
(** * The concept relevance *)

Section ConceptRelevance.

Local Open Scope Q_scope.

Lemma py_max_lower_bound (xs : list Q) : forall x, x <= py_max x xs.
Proof.
  unfold py_max. induction xs as [|y t IH]; intros x; simpl; [apply Qle_refl|].
  destruct (Qgtb y x) eqn:E.
  - apply Qgtb_true in E. eapply Qle_trans; [|apply IH]. now apply Qlt_le_weak.
  - apply IH.
Qed.

Lemma py_max_upper (xs : list Q) :
  forall x y, In y (x :: xs) -> y <= py_max x xs.
Proof.
  induction xs as [|z t IH]; intros x y [<-|Hy].
  - apply Qle_refl.
  - contradiction.
  - apply py_max_lower_bound.
  - unfold py_max in *. simpl. destruct (Qgtb z x) eqn:E.
    + apply IH. exact Hy.
    + destruct Hy as [<-|Hy].
      * eapply Qle_trans; [|apply (py_max_lower_bound t x)].
        unfold Qgtb in E. apply negb_false_iff in E. now apply Qle_bool_iff.
      * apply IH. now right.
Qed.

Lemma py_max_in (xs : list Q) : forall x, In (py_max x xs) (x :: xs).
Proof.
  unfold py_max. induction xs as [|y t IH]; intros x; simpl; [now left|].
  destruct (Qgtb y x).
  - right. apply IH.
  - destruct (IH x) as [H|H]; [now left | now (right; right)].
Qed.

Variables (query_lower : string) (tags : list string).

Lemma relevance_scores_In (y : Q) :
  In y (relevance_scores query_lower tags)
  <-> (exists tag,
          In tag tags
          /\ ((direct_match query_lower tag = true /\ y = 1.0)
              \/ (direct_match query_lower tag = false
                  /\ word_match query_lower tag = true /\ y = 0.7)))
      \/ (shares_tag query_lower tags = true /\ y = 0.8).
Proof.
  unfold relevance_scores. rewrite in_app_iff, in_flat_map.
  assert (Hs : In y match set_inter tags (identify_concepts query_lower) with
                    | [] => []
                    | _ :: _ => [0.8]
                    end
               <-> shares_tag query_lower tags = true /\ y = 0.8).
  { unfold shares_tag. rewrite <- set_inter_nonempty.
    destruct (set_inter tags (identify_concepts query_lower)); simpl.
    - split; [contradiction | intros [H _]; congruence].
    - split; [intros [<-|[]]; split; congruence | intros [_ ->]; now left]. }
  rewrite Hs. clear Hs.
  assert (Ht : forall tag,
             In y (if direct_match query_lower tag then [1.0]
                   else if word_match query_lower tag then [0.7] else [])
             <-> (direct_match query_lower tag = true /\ y = 1.0)
                 \/ (direct_match query_lower tag = false
                     /\ word_match query_lower tag = true /\ y = 0.7)).
  { intros tag.
    destruct (direct_match query_lower tag);
      [|destruct (word_match query_lower tag)]; simpl; intuition congruence. }
  split.
  - intros [(tag & Hin & H)|H]; [left; exists tag; split; [assumption|]|now right].
    now apply Ht.
  - intros [(tag & Hin & H)|H]; [left; exists tag; split; [assumption|]|now right].
    now apply Ht.
Qed.

Lemma existsb_false_at {A : Type} (p : A -> bool) (l : list A) (x : A) :
  existsb p l = false -> In x l -> p x = false.
Proof.
  intros H Hin. destruct (p x) eqn:E; [|reflexivity].
  assert (existsb p l = true) by (apply existsb_exists; eauto). congruence.
Qed.

(** The maximum of the scores that the rules append. *)
Lemma relevance_scores_max :
  match relevance_scores query_lower tags with
  | [] => 0.0
  | x :: xs => py_max x xs
  end
  = if existsb (direct_match query_lower) tags then 1.0
    else if shares_tag query_lower tags then 0.8
         else if existsb (word_match query_lower) tags then 0.7 else 0.0.
Proof.
  pose proof relevance_scores_In as HIn.
  destruct (relevance_scores query_lower tags) as [|x xs] eqn:EL.
  - (* nothing was appended: no rule fired *)
    destruct (existsb (direct_match query_lower) tags) eqn:E1.
    + apply existsb_exists in E1 as (tag & Hin & Hd).
      exfalso. apply (proj2 (HIn 1.0)). left. exists tag. auto.
    + destruct (shares_tag query_lower tags) eqn:E3.
      * exfalso. apply (proj2 (HIn 0.8)). now right.
      * destruct (existsb (word_match query_lower) tags) eqn:E2; [|reflexivity].
        apply existsb_exists in E2 as (tag & Hin & Hw).
        exfalso. apply (proj2 (HIn 0.7)). left. exists tag.
        split; [assumption|]. right.
        split; [apply (existsb_false_at _ tags tag E1 Hin) | auto].
  - pose proof (py_max_in xs x) as Hm. apply HIn in Hm.
    pose proof (py_max_upper xs x) as Hub.
    assert (Hge : forall y, In y (x :: xs) -> ~ py_max x xs < y).
    { intros y Hy. apply Qle_not_lt, Hub, Hy. }
    destruct (existsb (direct_match query_lower) tags) eqn:E1.
    + apply existsb_exists in E1 as (tag & Hin & Hd).
      assert (H1 : In 1.0 (x :: xs)) by (apply HIn; left; exists tag; auto).
      apply Hge in H1.
      destruct Hm as [(t' & _ & [[_ E]|(_ & _ & E)])|[_ E]];
        [exact E| |]; exfalso; apply H1; rewrite E; reflexivity.
    + assert (Hno1 : forall t', In t' tags ->
                                direct_match query_lower t' = true -> False).
      { intros t' Hin Hd.
        rewrite (existsb_false_at _ tags t' E1 Hin) in Hd. discriminate. }
      destruct (shares_tag query_lower tags) eqn:E3.
      * assert (H8 : In 0.8 (x :: xs)) by (apply HIn; now right).
        apply Hge in H8.
        destruct Hm as [(t' & Hin & [[Hd _]|(_ & _ & E)])|[_ E]];
          [exfalso; eauto | | exact E].
        exfalso; apply H8; rewrite E; reflexivity.
      * destruct Hm as [(t' & Hin & [[Hd _]|(_ & Hw & E)])|[? _]];
          [exfalso; eauto | | discriminate].
        assert (E2 : existsb (word_match query_lower) tags = true)
          by (apply existsb_exists; eauto).
        now rewrite E2.
Qed.

End ConceptRelevance.

(** C2, as the code has it: the concept score is 0 for a cell without tags;
    otherwise it is the maximum of 1.0 when a lower-cased tag occurs as a
    substring of the lower-cased query, 0.7 when a word of a lower-cased tag
    occurs as a substring of the lower-cased query, and 0.8 when the tags
    that the tagger derives from the raw query meet the tags of the cell;
    0.0 when no rule fires. *)
Theorem concept_relevance_is_max_of_rules (query : string) (tags : list string) :
  let query_lower := lower query in
  let direct := existsb (fun tag => str_in (lower tag) query_lower) tags in
  let word_hit :=
    existsb (fun tag => existsb (fun word => str_in word query_lower)
                                (split (lower tag))) tags in
  let shared := existsb (fun tag => mem tag (identify_concepts query)) tags in
  _calculate_concept_relevance query tags
  = match tags with
    | [] => 0.0%Q
    | _ :: _ => Qmax (rule direct 1.0) (Qmax (rule word_hit 0.7) (rule shared 0.8))
    end.
Proof.
  cbv zeta. unfold _calculate_concept_relevance.
  destruct tags as [|t ts] eqn:Et; [reflexivity|]. rewrite <- Et.
  rewrite (relevance_scores_max (lower query) tags).
  unfold shares_tag, direct_match, word_match, rule.
  rewrite identify_concepts_lower.
  repeat match goal with
         | |- context [if ?b then _ else _] => destruct b
         end; reflexivity.
Qed.

(** C2 as stated fails: for the tag "aggregation formula" and the query
    "formulas" the code scores 0.7, because "formula" occurs inside
    "formulas", where the stated rules give 0. *)
Lemma concept_relevance_counts_substrings :
  _calculate_concept_relevance "formulas" ["aggregation formula"] = 0.7%Q
  /\ concept_score_as_specified "formulas" ["aggregation formula"] = 0.0%Q
  /\ ~ (_calculate_concept_relevance "formulas" ["aggregation formula"]
        == concept_score_as_specified "formulas" ["aggregation formula"])%Q.
Proof.
  split; [vm_compute; reflexivity|]. split; [vm_compute; reflexivity|].
  vm_compute. discriminate.
Qed.

(* ================================================================== *)
(** * The indexer *)

Section IndexerFacts.

Context (rt : Runtime).

Lemma enumerate_from_nth {A : Type} (l : list A) :
  forall (k : Z) (n : nat) (x : A),
    nth_error l n = Some x -> In ((k + Z.of_nat n)%Z, x) (enumerate_from k l).
Proof.
  induction l as [|y t IH]; intros k n x H; [destruct n; discriminate|].
  destruct n as [|n]; simpl in *.
  - injection H as ->. left. f_equal. lia.
  - right. replace (k + Z.pos (Pos.of_succ_nat n))%Z with (k + 1 + Z.of_nat n)%Z by lia.
    now apply IH.
Qed.

Lemma enumerate_nth {A : Type} (l : list A) (n : nat) (x : A) :
  nth_error l n = Some x -> In (Z.of_nat n, x) (enumerate l).
Proof.
  intros H. apply (enumerate_from_nth l 0 n x H).
Qed.

(** Every position that is not blank gets its cell. *)
Lemma process_sheet_complete (sheet : string) (data : list (list Value))
      (r c : nat) (rowl : list Value) (v : Value) :
  nth_error data r = Some rowl -> nth_error rowl c = Some v ->
  is_blank v = false ->
  In (new_cell rt sheet (sheet_headers data) (Z.of_nat r) (Z.of_nat c) v)
     (_process_sheet rt sheet data).
Proof.
  intros Hr Hc Hb. unfold _process_sheet.
  apply in_flat_map. exists (Z.of_nat r, rowl). split; [now apply enumerate_nth|].
  apply in_flat_map. exists (Z.of_nat c, v). split; [now apply enumerate_nth|].
  cbn [fst snd]. unfold process_cell. rewrite Hb. now left.
Qed.

(** Loading gives every cell of every sheet its embedding. *)
Lemma load_complete (self : SemanticSearchEngine rt)
      (sheets : list (string * list (list Value)))
      (sheet : string) (data : list (list Value))
      (cell : SpreadsheetCell rt) :
  In (sheet, data) sheets -> In cell (_process_sheet rt sheet data) ->
  exists cell',
    In cell' (cells (load_spreadsheet_data self sheets))
    /\ sheet_name cell' = sheet_name cell
    /\ row cell' = row cell /\ col cell' = col cell
    /\ value cell' = value cell
    /\ formula cell' = formula cell
    /\ header_context cell' = header_context cell
    /\ business_concepts cell' = business_concepts cell
    /\ semantic_embedding cell' = Some (encode rt (rich_text cell)).
Proof.
  intros Hs Hc. eexists. split.
  - cbn [load_spreadsheet_data cells]. unfold _compute_cell_embeddings.
    apply in_map. apply in_flat_map. exists (sheet, data). split; [exact Hs|exact Hc].
  - cbn. repeat split.
Qed.

End IndexerFacts.

(** C8, as the code has it: a grid position that is not blank gets a cell
    whose tagging context string is the lower-cased join, with single
    blanks, of the header context when there is one, the value when it is a
    string (a number is left out), the formula when there is one, and the
    sheet name; the tags of the cell are the tags that the tagger derives
    from that string, together with those of the formula and value rules. *)
Theorem indexer_tags_the_context_string
        (rt : Runtime) (sheet : string) (data : list (list Value))
        (r c : nat) (rowl : list Value) (v : Value) :
  nth_error data r = Some rowl -> nth_error rowl c = Some v ->
  is_blank v = false ->
  exists cell : SpreadsheetCell rt,
    In cell (_process_sheet rt sheet data)
    /\ sheet_name cell = sheet
    /\ row cell = Z.of_nat r /\ col cell = Z.of_nat c /\ value cell = v
    /\ let header := header_context cell in
       let text := context_text v (formula cell) header sheet in
       text = lower (join " " (when (nonempty header) [header]
                               ++ match v with VStr s => [s] | _ => [] end
                               ++ when (nonempty (formula cell)) [formula cell]
                               ++ [sheet])%list)
       /\ (is_number v = true ->
           text = lower (join " " (when (nonempty header) [header] ++ [sheet])%list))
       /\ (forall tag, In tag (identify_concepts text) ->
                       In tag (business_concepts cell))
       /\ business_concepts cell
          = dedup (identify_concepts text
                   ++ when (nonempty (formula cell))
                           (_analyze_formula_concepts (formula cell) header)
                   ++ when (is_number v)
                           (_analyze_value_concepts v header text))%list.
Proof.
  intros Hr Hc Hb.
  exists (new_cell rt sheet (sheet_headers data) (Z.of_nat r) (Z.of_nat c) v).
  split; [now apply process_sheet_complete with rowl|].
  do 4 (split; [reflexivity|]).
  cbv zeta. split; [reflexivity|]. split; [|split].
  - intros Hn. destruct v; try discriminate Hn; reflexivity.
  - intros tag Htag. cbn [business_concepts new_cell].
    unfold _identify_concepts. apply dedup_In.
    apply in_or_app. left. apply in_or_app. left. exact Htag.
  - cbn [business_concepts new_cell]. unfold _identify_concepts.
    now rewrite <- app_assoc.
Qed.

Lemma indexer_tags_the_context_string_witness :
  exists cell : SpreadsheetCell (Samples.constant_runtime 0.5),
    In cell (_process_sheet _ "Financial Model"
                            (snd (nth 0 Samples.financial_model ("", []))))
    /\ value cell = VInt 15000
    /\ context_text (VInt 15000) (formula cell) (header_context cell)
                    "Financial Model"
       = "total revenue financial model".
Proof.
  destruct (indexer_tags_the_context_string
              (Samples.constant_runtime 0.5) "Financial Model"
              (snd (nth 0 Samples.financial_model ("", [])))
              1 1 [VStr "=B12/B5"; VInt 15000; VInt 0] (VInt 15000)
              eq_refl eq_refl eq_refl)
    as (cell & Hin & _ & _ & _ & Hv & Htext & _).
  exists cell. split; [exact Hin|]. split; [exact Hv|].
  cbv zeta in Htext. rewrite Htext.
  assert (Hh : header_context cell = "Total Revenue").
  { revert Hin. vm_compute.
    intros [<-|[<-|[<-|[<-|[<-|[<-|[]]]]]]]; try reflexivity;
      vm_compute in Hv; discriminate Hv. }
  assert (Hf : formula cell = "").
  { revert Hin. vm_compute.
    intros [<-|[<-|[<-|[<-|[<-|[<-|[]]]]]]]; try reflexivity;
      vm_compute in Hv; discriminate Hv. }
  rewrite Hh, Hf. reflexivity.
Defined.

(** C8 as stated fails: the number 15000 below the header "Total Revenue" is
    not part of the context string; and the tags can differ, since a sheet
    name that begins with [=] opens the string of a number without header. *)
Lemma indexer_leaves_numbers_out :
  let rt := Samples.constant_runtime 0.5 in
  context_text (VInt 15000) "" "Total Revenue" "Financial Model"
  = "total revenue financial model"
  /\ context_string_as_specified rt (VInt 15000) "" "Total Revenue" "Financial Model"
     = "total revenue 15000 financial model"
  /\ In "aggregation formula"
        (identify_concepts (context_text (VInt 5) "" "" "=sum(a)"))
  /\ ~ In "aggregation formula"
          (identify_concepts
             (context_string_as_specified rt (VInt 5) "" "" "=sum(a)")).
Proof.
  cbv zeta. split; [vm_compute; reflexivity|]. split; [vm_compute; reflexivity|].
  split.
  - vm_compute. tauto.
  - vm_compute. intuition discriminate.
Qed.

(* ================================================================== *)
(** * The value of a result and the ranges of the scores *)

Section ResultFacts.

Local Open Scope Q_scope.

Lemma zero_is_falsy (v : Value) : is_zero v = true -> truthy v = false.
Proof.
  destruct v as [|s|n|x]; simpl; try discriminate; intros ->; reflexivity.
Qed.

Lemma zero_is_not_blank (v : Value) : is_zero v = true -> is_blank v = false.
Proof.
  destruct v; simpl; try discriminate; reflexivity.
Qed.

Lemma search_cell_value {rt : Runtime} (query : string) (qe : Embedding rt)
      (cell : SpreadsheetCell rt) (res : Models.SearchResult) :
  In res (search_cell query qe cell) ->
  Models.value res
  = if truthy (value cell) then Some (str_value rt (value cell)) else None.
Proof.
  unfold search_cell. destruct (semantic_embedding cell); [|contradiction].
  destruct (Qgtb _ _); [|contradiction]. intros [<-|[]]. reflexivity.
Qed.

Lemma len_ratio_nonneg (common all : list string) : 0 <= len_ratio common all.
Proof.
  unfold len_ratio, Qdiv. apply Qmult_le_0_compat.
  - change 0 with (inject_Z 0). rewrite <- Zle_Qle. lia.
  - apply Qinv_le_0_compat. change 0 with (inject_Z 0). rewrite <- Zle_Qle. lia.
Qed.

Lemma overlap_term_nonneg (w : Q) (text query_lower : string) :
  0 <= w -> 0 <= overlap_term w text query_lower.
Proof.
  intros Hw. unfold overlap_term.
  destruct (set_inter _ _); [apply Qle_refl|].
  apply Qmult_le_0_compat; [exact Hw | apply len_ratio_nonneg].
Qed.

Lemma py_min_range (x : Q) : 0 <= x -> between 0 1 (py_min x 1.0).
Proof.
  intros Hx. unfold py_min, between. destruct (Qgtb x 1.0) eqn:E.
  - split; discriminate.
  - split; [exact Hx|]. unfold Qgtb in E. apply negb_false_iff in E.
    apply Qle_bool_iff in E. lra.
Qed.

Lemma contextual_relevance_range {rt : Runtime} (query : string)
      (cell : SpreadsheetCell rt) :
  between 0 1 (_calculate_contextual_relevance query cell).
Proof.
  unfold _calculate_contextual_relevance. apply py_min_range.
  pose proof (overlap_term_nonneg 0.3 (header_context cell) (lower query)
                                  ltac:(discriminate)) as H1.
  pose proof (overlap_term_nonneg 0.2 (sheet_name cell) (lower query)
                                  ltac:(discriminate)) as H2.
  destruct (nonempty (header_context cell)); lra.
Qed.

Lemma concept_relevance_range (query : string) (tags : list string) :
  between 0 1 (_calculate_concept_relevance query tags).
Proof.
  unfold _calculate_concept_relevance.
  destruct tags as [|t ts] eqn:Et; [split; discriminate|]. rewrite <- Et.
  rewrite (relevance_scores_max (lower query) tags).
  repeat match goal with
         | |- context [if ?b then _ else _] => destruct b
         end; split; discriminate.
Qed.

End ResultFacts.

(** C10: a grid position that holds the number 0 is indexed, and every
    result that a search builds for its cell has no value (not the string
    "0"), because the value is stringified only when it is truthy. *)
Theorem zero_cell_is_indexed_and_shown_without_value
        (rt : Runtime) (self : SemanticSearchEngine rt)
        (sheets : list (string * list (list Value)))
        (sheet : string) (data : list (list Value))
        (r c : nat) (rowl : list Value) (v : Value) :
  In (sheet, data) sheets ->
  nth_error data r = Some rowl -> nth_error rowl c = Some v ->
  is_zero v = true ->
  exists cell,
    In cell (cells (load_spreadsheet_data self sheets))
    /\ sheet_name cell = sheet
    /\ row cell = Z.of_nat r /\ col cell = Z.of_nat c /\ value cell = v
    /\ forall (query : string) (qe : Embedding rt) (res : Models.SearchResult),
        In res (search_cell query qe cell) ->
        Models.value res = None /\ Models.value res <> Some "0".
Proof.
  intros Hs Hr Hc Hz.
  pose proof (process_sheet_complete rt sheet data r c rowl v Hr Hc
                                     (zero_is_not_blank v Hz)) as Hin.
  destruct (load_complete rt self sheets sheet data _ Hs Hin)
    as (cell & Hcell & Hsn & Hrow & Hcol & Hval & _).
  exists cell. split; [exact Hcell|].
  cbn [sheet_name row col value new_cell] in Hsn, Hrow, Hcol, Hval.
  repeat (split; [assumption|]).
  intros query qe res Hres. apply search_cell_value in Hres.
  rewrite Hval, (zero_is_falsy v Hz) in Hres. rewrite Hres.
  split; [reflexivity | discriminate].
Qed.

Lemma zero_cell_is_indexed_and_shown_without_value_witness :
  exists cell,
    In cell (cells (Samples.engine 0.5))
    /\ sheet_name cell = "Financial Model"
    /\ row cell = 1%Z /\ col cell = 2%Z /\ value cell = VInt 0
    /\ forall (query : string) (qe : Embedding (Samples.constant_runtime 0.5))
               (res : Models.SearchResult),
        In res (search_cell query qe cell) ->
        Models.value res = None /\ Models.value res <> Some "0".
Proof.
  apply (zero_cell_is_indexed_and_shown_without_value
           (Samples.constant_runtime 0.5) (init _) Samples.financial_model
           "Financial Model" (snd (nth 0 Samples.financial_model ("", [])))
           1 2 [VStr "=B12/B5"; VInt 15000; VInt 0] (VInt 0)).
  - left. reflexivity.
  - reflexivity.
  - reflexivity.
  - reflexivity.
Defined.

(** The zero of the sample workbook is among the results of a search, at
    its address and without value. *)
Example zero_cell_in_results :
  exists res,
    In res (search (Samples.engine 0.5) "zero" 10)
    /\ Models.location res = "'Financial Model'!C2"
    /\ Models.value res = None.
Proof.
  exists (nth 4 (search (Samples.engine 0.5) "zero" 10) (Samples.top_hit 0.5)).
  split; [vm_compute; do 4 right; left; reflexivity|].
  split; vm_compute; reflexivity.
Qed.

(** C9, as the code has it: when the cosine similarity lies in [-1,1], every
    returned result comes from a cell whose semantic score lies in [-1,1]
    (it is not clipped), whose concept and context scores lie in [0,1], and
    whose final score is above 0.1 and at most 1. *)
Theorem returned_scores_ranges
        (rt : Runtime) (self : SemanticSearchEngine rt) (query : string)
        (max_results : Z) (r : Models.SearchResult) :
  (forall a b, between (-1) 1 (cosine_similarity rt a b)) ->
  In r (search self query max_results) ->
  exists cell emb,
    In cell (cells self)
    /\ semantic_embedding cell = Some emb
    /\ r = make_result query cell (Models.relevance_score r)
    /\ Models.relevance_score r
       = cell_score query (query_embedding_of self query) cell emb
    /\ between (-1) 1 (similarity_of (query_embedding_of self query) emb)
    /\ between 0 1 (_calculate_concept_relevance query (business_concepts cell))
    /\ between 0 1 (_calculate_contextual_relevance query cell)
    /\ (0.1 < Models.relevance_score r)%Q
    /\ between 0 1 (Models.relevance_score r).
Proof.
  intros Hcos Hr.
  destruct (search_origin self query max_results r Hr)
    as (cell & emb & Hc & He & Hlt & ->).
  exists cell, emb. cbn [Models.relevance_score make_result].
  pose proof (Hcos (query_embedding_of self query) emb) as Hs.
  pose proof (concept_relevance_range query (business_concepts cell)) as Hk.
  pose proof (contextual_relevance_range query cell) as Hx.
  repeat (split; [first [assumption | reflexivity]|]).
  revert Hlt. unfold between, cell_score, final_score, similarity_of in *.
  intros Hlt. split; lra.
Qed.

Lemma returned_scores_ranges_witness :
  In (Samples.top_hit 0.5) (search (Samples.engine 0.5) "total revenue" 10)
  /\ between 0 1 (Models.relevance_score (Samples.top_hit 0.5)).
Proof.
  assert (H : In (Samples.top_hit 0.5)
                 (search (Samples.engine 0.5) "total revenue" 10))
    by (vm_compute; left; reflexivity).
  split; [exact H|].
  destruct (returned_scores_ranges
              (Samples.constant_runtime 0.5) (Samples.engine 0.5)
              "total revenue" 10 (Samples.top_hit 0.5)) as (cell & emb & Hrest).
  - intros a b. split; discriminate.
  - exact H.
  - apply Hrest.
Defined.

(** C9 as stated fails for the semantic score: with a cosine similarity of
    -0.5, inside [-1,1], the search for "total revenue" returns the header
    cell of the revenue column, whose semantic score is -0.5. *)
Lemma search_returns_negative_similarity :
  let e := Samples.engine (-0.5) in
  let q := "total revenue" in
  (forall a b, between (-1) 1 (cosine_similarity (Samples.constant_runtime (-0.5)) a b))
  /\ exists cell emb,
      In cell (cells e)
      /\ semantic_embedding cell = Some emb
      /\ In (make_result q cell (cell_score q (query_embedding_of e q) cell emb))
            (search e q 10)
      /\ similarity_of (query_embedding_of e q) emb == -0.5
      /\ ~ between 0 1 (similarity_of (query_embedding_of e q) emb).
Proof.
  cbv zeta. split; [intros a b; split; discriminate|].
  exists (nth 1 (cells (Samples.engine (-0.5)))
              (nth 0 (cells (Samples.engine (-0.5))) 
                   (new_cell _ "" [] 0 0 VNone))), tt.
  split; [vm_compute; right; left; reflexivity|].
  split; [reflexivity|].
  split; [vm_compute; left; reflexivity|].
  split; [reflexivity|].
  intros [H _]. revert H. vm_compute. intros H. apply H. reflexivity.
Qed.

(* ================================================================== *)
(** * The error of one rounding *)

Import Floats.

Section RoundingFacts.

Local Open Scope Q_scope.

Lemma pow2_pos (e : Z) : 0 < pow2 e.
Proof. unfold pow2. apply Qpower_0_lt. reflexivity. Qed.

Lemma pow2_le (a b : Z) : (a <= b)%Z -> pow2 a <= pow2 b.
Proof. intros H. unfold pow2. apply Qpower_le_compat_l; [exact H | discriminate]. Qed.

Lemma pow2_plus (a b : Z) : pow2 (a + b) == pow2 a * pow2 b.
Proof. unfold pow2. apply Qpower_plus. discriminate. Qed.

Lemma pow2_of_nonneg (a : Z) : (0 <= a)%Z -> pow2 a == inject_Z (2 ^ a).
Proof.
  intros H. unfold pow2. rewrite Zpower_Qpower by exact H. reflexivity.
Qed.

Lemma nearest_even_error (q : Q) :
  Qabs (inject_Z (nearest_even q) - q) <= 1 # 2.
Proof.
  pose proof (Qfloor_le q) as Hl. pose proof (Qlt_floor q) as Hu.
  rewrite inject_Z_plus in Hu. change (inject_Z 1) with 1 in Hu.
  apply Qabs_Qle_condition. unfold nearest_even.
  destruct (Qcompare (q - inject_Z (Qfloor q)) (1 # 2)) eqn:E.
  - apply Qeq_alt in E.
    destruct (Z.even (Qfloor q)); [|rewrite inject_Z_plus; change (inject_Z 1) with 1];
      split; lra.
  - apply Qlt_alt in E. split; lra.
  - apply Qgt_alt in E. rewrite inject_Z_plus. change (inject_Z 1) with 1.
    split; lra.
Qed.

Lemma nearest_even_nonneg (q : Q) : 0 <= q -> (0 <= nearest_even q)%Z.
Proof.
  intros H. assert (Hf : (0 <= Qfloor q)%Z).
  { change 0%Z with (Qfloor 0). apply Qfloor_resp_le, H. }
  unfold nearest_even.
  destruct (Qcompare _ _); [destruct (Z.even _)| |]; lia.
Qed.

(** The lower half of the specification of [ilog2]. *)
Lemma ilog2_lower (q : Q) : ~ q == 0 -> pow2 (ilog2 q) <= Qabs q.
Proof.
  intros Hq. unfold ilog2.
  set (n := Z.abs (Qnum q)). set (d := Z.pos (Qden q)).
  destruct (Qle_bool (pow2 (Z.log2 n - Z.log2 d)) (Qabs q)) eqn:E.
  - apply Qle_bool_iff, E.
  - clear E.
    assert (Hn : (0 < n)%Z).
    { unfold n. destruct q as [[|p|p] dq]; cbn; try lia.
      exfalso. apply Hq. reflexivity. }
    assert (Hd : (0 < d)%Z) by (unfold d; lia).
    destruct (Z.log2_spec n Hn) as [Hn1 _].
    destruct (Z.log2_spec d Hd) as [_ Hd2].
    pose proof (Z.log2_nonneg n) as Hln. pose proof (Z.log2_nonneg d) as Hld.
    assert (Habs : Qabs q == inject_Z n / inject_Z d).
    { unfold n, d. destruct q as [qn qd]. unfold Qabs, Qdiv, Qeq, Qmult, Qinv, inject_Z.
      cbn. destruct qn; cbn; lia. }
    rewrite Habs.
    assert (Hdq : 0 < inject_Z d).
    { change 0 with (inject_Z 0). rewrite <- Zlt_Qlt. exact Hd. }
    apply Qle_shift_div_l; [exact Hdq|].
    assert (Hstep : pow2 (Z.log2 n - Z.log2 d - 1) * pow2 (Z.succ (Z.log2 d))
                    == pow2 (Z.log2 n)).
    { rewrite <- pow2_plus. replace (_ + _)%Z with (Z.log2 n) by lia. reflexivity. }
    apply Qle_trans with (pow2 (Z.log2 n - Z.log2 d - 1) * pow2 (Z.succ (Z.log2 d))).
    + apply Qmult_le_l; [apply pow2_pos|].
      rewrite pow2_of_nonneg by lia. rewrite <- Zle_Qle. lia.
    + rewrite Hstep. rewrite pow2_of_nonneg by lia. rewrite <- Zle_Qle. exact Hn1.
Qed.

(** The upper half: [ilog2 q] is the exponent of the binade of [q]. *)
Lemma ilog2_upper (q : Q) : ~ q == 0 -> Qabs q < pow2 (ilog2 q + 1).
Proof.
  intros Hq. unfold ilog2.
  set (n := Z.abs (Qnum q)). set (d := Z.pos (Qden q)).
  destruct (Qle_bool (pow2 (Z.log2 n - Z.log2 d)) (Qabs q)) eqn:E.
  - clear E.
    assert (Hn : (0 < n)%Z).
    { unfold n. destruct q as [[|p|p] dq]; cbn; try lia.
      exfalso. apply Hq. reflexivity. }
    assert (Hd : (0 < d)%Z) by (unfold d; lia).
    destruct (Z.log2_spec n Hn) as [_ Hn2].
    destruct (Z.log2_spec d Hd) as [Hd1 _].
    pose proof (Z.log2_nonneg n) as Hln. pose proof (Z.log2_nonneg d) as Hld.
    assert (Habs : Qabs q == inject_Z n / inject_Z d).
    { unfold n, d. destruct q as [qn qd]. unfold Qabs, Qdiv, Qeq, Qmult, Qinv, inject_Z.
      cbn. destruct qn; cbn; lia. }
    rewrite Habs.
    assert (Hdq : 0 < inject_Z d).
    { change 0 with (inject_Z 0). rewrite <- Zlt_Qlt. exact Hd. }
    apply Qlt_shift_div_r; [exact Hdq|].
    assert (Hstep : pow2 (Z.log2 n - Z.log2 d + 1) * pow2 (Z.log2 d)
                    == pow2 (Z.succ (Z.log2 n))).
    { rewrite <- pow2_plus. replace (_ + _)%Z with (Z.succ (Z.log2 n)) by lia.
      reflexivity. }
    apply Qlt_le_trans with (pow2 (Z.log2 n - Z.log2 d + 1) * pow2 (Z.log2 d)).
    + rewrite Hstep. rewrite pow2_of_nonneg by lia. rewrite <- Zlt_Qlt. exact Hn2.
    + apply Qmult_le_l; [apply pow2_pos|].
      rewrite pow2_of_nonneg by lia. rewrite <- Zle_Qle. exact Hd1.
  - replace (Z.log2 n - Z.log2 d - 1 + 1)%Z with (Z.log2 n - Z.log2 d)%Z by lia.
    apply Qnot_le_lt. intros H. apply Qle_bool_iff in H. congruence.
Qed.

Lemma ilog2_below (q : Q) (k : Z) :
  ~ q == 0 -> Qabs q < pow2 (k + 1) -> (ilog2 q <= k)%Z.
Proof.
  intros Hq Hlt.
  assert (H : pow2 (ilog2 q) < pow2 (k + 1)).
  { eapply Qle_lt_trans; [apply ilog2_lower, Hq | exact Hlt]. }
  unfold pow2 in H. apply Qpower_lt_compat_l_inv in H; [lia | reflexivity].
Qed.

(** The error of one rounding: half a unit in the last place. *)
Lemma round_error (fmt : format) (k : Z) (q : Q) :
  Qabs q < pow2 (k + 1) ->
  Qabs (round fmt q - q)
  <= pow2 (Z.max (k - precision fmt + 1) (emin fmt) - 1).
Proof.
  intros Hlt. unfold round.
  destruct (Qeq_bool q 0) eqn:E.
  - apply Qeq_bool_iff in E. rewrite E. cbn. apply Qlt_le_weak, pow2_pos.
  - assert (Hq : ~ q == 0) by (apply Qeq_bool_neq, E).
    rewrite Qred_correct.
    set (e := Z.max (ilog2 q - precision fmt + 1) (emin fmt)).
    pose proof (pow2_pos e) as He.
    pose proof (nearest_even_error (q / pow2 e)) as Hn.
    assert (Heq : inject_Z (nearest_even (q / pow2 e)) * pow2 e - q
                  == (inject_Z (nearest_even (q / pow2 e)) - q / pow2 e) * pow2 e).
    { field. lra. }
    rewrite Heq, Qabs_Qmult, (Qabs_pos (pow2 e)) by lra.
    apply Qle_trans with ((1 # 2) * pow2 e).
    + apply Qmult_le_compat_r; [exact Hn | lra].
    + assert (Hle : (e <= Z.max (k - precision fmt + 1) (emin fmt))%Z).
      { pose proof (ilog2_below q k Hq Hlt). unfold e. lia. }
      apply pow2_le in Hle.
      assert (Hhalf : forall z, pow2 (z - 1) == (1 # 2) * pow2 z).
      { intros z. replace (z - 1)%Z with (z + -1)%Z by lia. rewrite pow2_plus.
        change (pow2 (-1)) with (1 # 2). ring. }
      rewrite Hhalf. lra.
Qed.

Lemma round_nonneg (fmt : format) (q : Q) : 0 <= q -> 0 <= round fmt q.
Proof.
  intros H. unfold round. destruct (Qeq_bool q 0); [lra|].
  rewrite Qred_correct.
  set (e := Z.max _ _). pose proof (pow2_pos e) as He.
  apply Qmult_le_0_compat; [|lra].
  change 0 with (inject_Z 0). rewrite <- Zle_Qle. apply nearest_even_nonneg.
  apply Qle_shift_div_l; [exact He | lra].
Qed.

End RoundingFacts.

(* ================================================================== *)
(** * The final score in floating point *)

Section RoundedScores.

Local Open Scope Q_scope.

(** One rounding of a number known to lie in an interval. *)
Lemma round_within (fmt : format) (k : Z) (eps lo hi q : Q) :
  pow2 (Z.max (k - precision fmt + 1) (emin fmt) - 1) <= eps ->
  - pow2 (k + 1) < lo -> hi < pow2 (k + 1) ->
  lo <= q <= hi ->
  q - eps <= round fmt q <= q + eps.
Proof.
  intros Heps Hlo Hhi [Hq1 Hq2].
  assert (Hlt : Qabs q < pow2 (k + 1)).
  { apply Qabs_case; intros _; lra. }
  pose proof (round_error fmt k q Hlt) as H.
  apply Qabs_Qle_condition in H. lra.
Qed.

Lemma final_score_error_binary32 (s c x : Q) :
  Qabs s <= 2 -> 0 <= c <= 1 -> 0 <= x <= 1 ->
  Qabs (Rounded.final_score binary32 s c x - Rounded.weighted_sum s c x)
  <= 2 # 10000000.
Proof.
  intros Hs Hc Hx. apply Qabs_Qle_condition in Hs.
  unfold Rounded.final_score, Rounded.weighted_sum, Rounded.fmul.
  replace (round binary32 (Rounded.py_float 0.4)) with (13421773 # 33554432)
    by (vm_compute; reflexivity).
  replace (Rounded.py_float 0.4) with (3602879701896397 # 9007199254740992)
    by (vm_compute; reflexivity).
  replace (Rounded.py_float 0.2) with (3602879701896397 # 18014398509481984)
    by (vm_compute; reflexivity).
  pose proof (round_within binary32 (-1) (1 # 33554432) (-(81 # 100)) (81 # 100)
                (s * (13421773 # 33554432))
                ltac:(vm_compute; discriminate) ltac:(reflexivity)
                ltac:(reflexivity) ltac:(lra)) as Ha.
  set (a := round binary32 (s * (13421773 # 33554432))) in *. clearbody a.
  pose proof (round_within binary64 (-2) (1 # 36028797018963968) 0 (41 # 100)
                (c * (3602879701896397 # 9007199254740992))
                ltac:(vm_compute; discriminate) ltac:(reflexivity)
                ltac:(reflexivity) ltac:(lra)) as Hct.
  set (ct := round binary64 (c * _)) in *. clearbody ct.
  pose proof (round_within binary32 (-2) (1 # 67108864) (-(1 # 100)) (42 # 100) ct
                ltac:(vm_compute; discriminate) ltac:(reflexivity)
                ltac:(reflexivity) ltac:(lra)) as Hb.
  set (b := round binary32 ct) in *. clearbody b.
  pose proof (round_within binary32 0 (1 # 16777216) (-(13 # 10)) (13 # 10) (a + b)
                ltac:(vm_compute; discriminate) ltac:(reflexivity)
                ltac:(reflexivity) ltac:(lra)) as Hp.
  set (p := round binary32 (a + b)) in *. clearbody p.
  pose proof (round_within binary64 (-3) (1 # 72057594037927936) 0 (21 # 100)
                (x * (3602879701896397 # 18014398509481984))
                ltac:(vm_compute; discriminate) ltac:(reflexivity)
                ltac:(reflexivity) ltac:(lra)) as Hxt.
  set (xt := round binary64 (x * _)) in *. clearbody xt.
  pose proof (round_within binary32 (-3) (1 # 134217728) (-(1 # 100)) (22 # 100) xt
                ltac:(vm_compute; discriminate) ltac:(reflexivity)
                ltac:(reflexivity) ltac:(lra)) as Ht.
  set (t := round binary32 xt) in *. clearbody t.
  pose proof (round_within binary32 0 (1 # 16777216) (-(16 # 10)) (16 # 10) (p + t)
                ltac:(vm_compute; discriminate) ltac:(reflexivity)
                ltac:(reflexivity) ltac:(lra)) as Hf.
  set (f := round binary32 (p + t)) in *. clearbody f.
  apply Qabs_Qle_condition. split; lra.
Qed.

Lemma final_score_error_binary64 (s c x : Q) :
  Qabs s <= 2 -> 0 <= c <= 1 -> 0 <= x <= 1 ->
  Qabs (Rounded.final_score binary64 s c x - Rounded.weighted_sum s c x)
  <= 1 # 1000000000.
Proof.
  intros Hs Hc Hx. apply Qabs_Qle_condition in Hs.
  unfold Rounded.final_score, Rounded.weighted_sum, Rounded.fmul.
  replace (round binary64 (Rounded.py_float 0.4))
    with (3602879701896397 # 9007199254740992) by (vm_compute; reflexivity).
  replace (Rounded.py_float 0.4) with (3602879701896397 # 9007199254740992)
    by (vm_compute; reflexivity).
  replace (Rounded.py_float 0.2) with (3602879701896397 # 18014398509481984)
    by (vm_compute; reflexivity).
  pose proof (round_within binary64 (-1) (1 # 1000000000000000) (-(81 # 100)) (81 # 100)
                (s * (3602879701896397 # 9007199254740992))
                ltac:(vm_compute; discriminate) ltac:(reflexivity)
                ltac:(reflexivity) ltac:(lra)) as Ha.
  set (a := round binary64 (s * _)) in *. clearbody a.
  pose proof (round_within binary64 (-2) (1 # 1000000000000000) 0 (41 # 100)
                (c * (3602879701896397 # 9007199254740992))
                ltac:(vm_compute; discriminate) ltac:(reflexivity)
                ltac:(reflexivity) ltac:(lra)) as Hct.
  set (ct := round binary64 (c * _)) in *. clearbody ct.
  pose proof (round_within binary64 (-2) (1 # 1000000000000000) (-(1 # 100)) (42 # 100) ct
                ltac:(vm_compute; discriminate) ltac:(reflexivity)
                ltac:(reflexivity) ltac:(lra)) as Hb.
  set (b := round binary64 ct) in *. clearbody b.
  pose proof (round_within binary64 0 (1 # 1000000000000000) (-(13 # 10)) (13 # 10) (a + b)
                ltac:(vm_compute; discriminate) ltac:(reflexivity)
                ltac:(reflexivity) ltac:(lra)) as Hp.
  set (p := round binary64 (a + b)) in *. clearbody p.
  pose proof (round_within binary64 (-3) (1 # 1000000000000000) 0 (21 # 100)
                (x * (3602879701896397 # 18014398509481984))
                ltac:(vm_compute; discriminate) ltac:(reflexivity)
                ltac:(reflexivity) ltac:(lra)) as Hxt.
  set (xt := round binary64 (x * _)) in *. clearbody xt.
  pose proof (round_within binary64 (-3) (1 # 1000000000000000) (-(1 # 100)) (22 # 100) xt
                ltac:(vm_compute; discriminate) ltac:(reflexivity)
                ltac:(reflexivity) ltac:(lra)) as Ht.
  set (t := round binary64 xt) in *. clearbody t.
  pose proof (round_within binary64 0 (1 # 1000000000000000) (-(16 # 10)) (16 # 10) (p + t)
                ltac:(vm_compute; discriminate) ltac:(reflexivity)
                ltac:(reflexivity) ltac:(lra)) as Hf.
  set (f := round binary64 (p + t)) in *. clearbody f.
  apply Qabs_Qle_condition. split; lra.
Qed.


Lemma py_float_nonneg (q : Q) : 0 <= q -> 0 <= Rounded.py_float q.
Proof. apply round_nonneg. Qed.

Lemma rounded_concept_relevance_range (query : string) (tags : list string) :
  0 <= Rounded._calculate_concept_relevance query tags <= 1.
Proof.
  unfold Rounded._calculate_concept_relevance.
  destruct tags as [|t ts] eqn:Et; [split; discriminate|]. rewrite <- Et.
  destruct (map Rounded.py_float (relevance_scores (lower query) tags))
    as [|y ys] eqn:Es; [split; discriminate|].
  pose proof (py_max_in ys y) as Hin. rewrite <- Es in Hin.
  apply in_map_iff in Hin. destruct Hin as (v & <- & Hv).
  apply relevance_scores_In in Hv.
  destruct Hv as [(tag & _ & [[_ ->]|(_ & _ & ->)])|[_ ->]];
    vm_compute; split; discriminate.
Qed.

Lemma add_overlap_nonneg (relevance w : Q) (text query_lower : string) :
  0 <= relevance -> 0 <= w ->
  0 <= Rounded.add_overlap relevance w text query_lower.
Proof.
  intros Hr Hw. unfold Rounded.add_overlap.
  destruct (set_inter _ _) as [|y ys]; [exact Hr|].
  unfold Rounded.fadd, Rounded.fmul, Rounded.len_ratio.
  apply round_nonneg.
  assert (H : 0 <= round binary64
                     (Rounded.py_float w
                      * round binary64 (len_ratio (y :: ys) (split query_lower)))).
  { apply round_nonneg, Qmult_le_0_compat.
    - apply py_float_nonneg, Hw.
    - apply round_nonneg, len_ratio_nonneg. }
  lra.
Qed.

Lemma rounded_contextual_relevance_range {rt : Runtime} (query : string)
      (cell : SpreadsheetCell rt) :
  0 <= Rounded._calculate_contextual_relevance query cell <= 1.
Proof.
  unfold Rounded._calculate_contextual_relevance.
  replace (Rounded.py_float 0.0) with 0 by (vm_compute; reflexivity).
  replace (Rounded.py_float 1.0) with 1 by (vm_compute; reflexivity).
  set (r := Rounded.add_overlap _ 0.2 _ _).
  assert (Hr : 0 <= r).
  { unfold r. apply add_overlap_nonneg; [|discriminate].
    destruct (nonempty (header_context cell)); [|apply Qle_refl].
    apply add_overlap_nonneg; [apply Qle_refl | discriminate]. }
  unfold py_min. destruct (Qgtb r 1) eqn:E.
  - split; discriminate.
  - split; [exact Hr|]. unfold Qgtb in E. apply negb_false_iff in E.
    now apply Qle_bool_iff in E.
Qed.

End RoundedScores.

(** C1, as the code has it: the score that the loop of [search] computes for
    a cell is the weighted sum 0.4 * similarity + 0.4 * concept relevance
    + 0.2 * contextual relevance of the three scores of that cell up to the
    rounding of the floating-point operations: for a similarity of magnitude
    at most 2, within 1e-9 when the sum is evaluated in binary64, and within
    2e-7 when it is evaluated in binary32. *)
Theorem final_score_is_weighted_sum_up_to_rounding
        (rt : Runtime) (query : string) (qe : Embedding rt)
        (cell : SpreadsheetCell rt) (emb : Embedding rt) :
  let similarity := similarity_of qe emb in
  let concept_relevance :=
    Rounded._calculate_concept_relevance query (business_concepts cell) in
  let contextual_relevance := Rounded._calculate_contextual_relevance query cell in
  let weighted :=
    Rounded.weighted_sum similarity concept_relevance contextual_relevance in
  (Qabs similarity <= 2)%Q ->
  (Qabs (Rounded.cell_score binary64 query qe cell emb - weighted)
   <= 1 # 1000000000)%Q
  /\ (Qabs (Rounded.cell_score binary32 query qe cell emb - weighted)
      <= 2 # 10000000)%Q.
Proof.
  intros s c x weighted Hs. unfold weighted, Rounded.cell_score. fold s c x.
  pose proof (rounded_concept_relevance_range query (business_concepts cell)) as Hc.
  pose proof (rounded_contextual_relevance_range query cell) as Hx.
  fold c in Hc. fold x in Hx. split.
  - now apply final_score_error_binary64.
  - now apply final_score_error_binary32.
Qed.

Lemma final_score_is_weighted_sum_up_to_rounding_witness :
  let cell := nth 1 (cells (Samples.engine 0.5))
                  (new_cell (Samples.constant_runtime 0.5) "" [] 0 0 VNone) in
  let weighted :=
    Rounded.weighted_sum
      (0.5)%Q
      (Rounded._calculate_concept_relevance "total revenue" (business_concepts cell))
      (Rounded._calculate_contextual_relevance "total revenue" cell) in
  (Qabs (@Rounded.cell_score (Samples.constant_runtime 0.5) binary64
                             "total revenue" tt cell tt - weighted)
   <= 1 # 1000000000)%Q
  /\ (Qabs (@Rounded.cell_score (Samples.constant_runtime 0.5) binary32
                                "total revenue" tt cell tt - weighted)
      <= 2 # 10000000)%Q.
Proof.
  cbv zeta.
  apply (final_score_is_weighted_sum_up_to_rounding
           (Samples.constant_runtime 0.5) "total revenue" tt _ tt).
  vm_compute. discriminate.
Defined.

(** C1 as stated fails when the sum is evaluated in binary32: for the cell
    B1 of the sample, a similarity of 1 and the query [total revenue], the
    concept relevance is 1 and the contextual relevance is the float 0.3;
    the score is 0.8600000143051147..., more than 1e-9 away from the
    weighted sum of the three scores. *)
Lemma final_score_misses_tolerance_in_binary32 :
  let rt := Samples.constant_runtime 1 in
  let self := Samples.engine 1 in
  let query := "total revenue" in
  let qe := query_embedding_of self query in
  let cell := nth 1 (cells self) (new_cell rt "" [] 0 0 VNone) in
  let similarity := similarity_of qe tt in
  let concept_relevance :=
    Rounded._calculate_concept_relevance query (business_concepts cell) in
  let contextual_relevance := Rounded._calculate_contextual_relevance query cell in
  In cell (cells self)
  /\ semantic_embedding cell = Some tt
  /\ similarity = 1%Q
  /\ concept_relevance = 1%Q
  /\ contextual_relevance = Rounded.py_float 0.3
  /\ (Rounded.cell_score binary32 query qe cell tt == 7214203 # 8388608)%Q
  /\ ~ (Qabs (Rounded.cell_score binary32 query qe cell tt
              - Rounded.weighted_sum similarity concept_relevance
                                     contextual_relevance)
        <= 1 # 1000000000)%Q.
Proof.
  cbv zeta. split; [|split; [|split; [|split; [|split; [|split]]]]].
  - vm_compute. right. left. reflexivity.
  - vm_compute. reflexivity.
  - vm_compute. reflexivity.
  - vm_compute. reflexivity.
  - vm_compute. reflexivity.
  - vm_compute. reflexivity.
  - vm_compute. intros H. apply H. reflexivity.
Qed.

(* ================================================================== *)
(** * More on the tagger *)

Section TaggerRules.

Lemma when_In (b : bool) (xs : list string) (x : string) :
  In x (when b xs) -> b = true /\ In x xs.
Proof.
  destruct b; simpl; [auto | contradiction].
Qed.

Lemma dedup_NoDup (xs : list string) : NoDup (dedup xs).
Proof.
  induction xs as [|x t IH]; simpl; [constructor|].
  destruct (mem x t) eqn:E; [assumption|].
  constructor; [|assumption].
  rewrite dedup_In. intros Hin. apply mem_In in Hin. congruence.
Qed.

Lemma all_mem_incl (xs ys : list string) :
  forallb (fun x => mem x ys) xs = true -> forall x, In x xs -> In x ys.
Proof.
  intros H x Hx. rewrite forallb_forall in H. apply mem_In, H, Hx.
Qed.

Lemma not_mem_not_In (x : string) (xs : list string) :
  mem x xs = false -> ~ In x xs.
Proof.
  intros H Hin. apply mem_In in Hin. congruence.
Qed.

Lemma matched_names_in_catalog (text tag : string) :
  In tag (matched_names text) -> In tag (map name all_concepts).
Proof.
  unfold matched_names. rewrite !in_map_iff.
  intros (c & E & Hc). apply filter_In in Hc as [Hc _]. eauto.
Qed.

Lemma identify_patterns_labels (text tag : string) :
  In tag (_identify_patterns text) ->
  In tag ["ratio calculation"; "percentage calculation"; "growth metric";
          "profitability metric"].
Proof.
  unfold _identify_patterns. rewrite !in_app_iff.
  intros [H|[H|[H|H]]]; apply when_In in H as [_ [<-|[]]]; simpl; tauto.
Qed.

Lemma identify_formula_labels (text tag : string) :
  In tag (_identify_formula_concepts text) ->
  startswith text "=" = true
  /\ In tag ["sum calculation"; "aggregation formula"; "average calculation";
             "conditional calculation"; "lookup formula"; "ratio calculation";
             "percentage calculation"].
Proof.
  unfold _identify_formula_concepts.
  destruct (startswith text "="); [|contradiction]. cbn [negb].
  rewrite !in_app_iff. intros H. split; [reflexivity|].
  repeat match goal with
         | H : _ \/ _ |- _ => destruct H as [H|H]
         | H : In _ (when _ _) |- _ => apply when_In in H as [_ H]
         end; simpl in *; tauto.
Qed.

Lemma identify_concepts_In (text tag : string) :
  In tag (identify_concepts text)
  <-> In tag (matched_names (lower text))
      \/ In tag (_identify_patterns (lower text))
      \/ In tag (_identify_formula_concepts text).
Proof.
  unfold identify_concepts. rewrite dedup_In, !in_app_iff. reflexivity.
Qed.

Lemma identify_concepts_vocabulary (text tag : string) :
  In tag (identify_concepts text) -> In tag tagger_vocabulary.
Proof.
  rewrite identify_concepts_In. unfold tagger_vocabulary. rewrite in_app_iff.
  intros [H|[H|H]].
  - left. eapply matched_names_in_catalog, H.
  - right. apply identify_patterns_labels in H.
    revert tag H. apply all_mem_incl. reflexivity.
  - right. apply identify_formula_labels in H as [_ H].
    revert tag H. apply all_mem_incl. reflexivity.
Qed.

(** Suffixes: what is left of a text after some of its characters. *)
Lemma many_reaches (cls : ascii -> bool) (k : bool -> string -> bool) (text : string) :
  forall prev,
    many cls k prev text = true ->
    exists before after prev',
      text = (before ++ after)%string /\ k prev' after = true.
Proof.
  induction text as [|c t IH]; intros prev H; cbn [many] in H.
  - destruct (k prev "") eqn:E; [|discriminate]. exists "", "", prev. auto.
  - destruct (k prev (String c t)) eqn:E.
    + exists "", (String c t), prev. auto.
    + destruct (cls c); [|discriminate].
      apply IH in H as (b & a & p' & -> & Hk).
      exists (String c b), a, p'. auto.
Qed.

Lemma eat_char (c : ascii) (prev : bool) (text : string) (p : bool) (t : string) :
  eat (String c EmptyString) prev text = Some (p, t) -> text = String c t.
Proof.
  destruct text as [|d u]; simpl; [discriminate|].
  destruct (Ascii.eqb c d) eqn:E; [|discriminate].
  apply Ascii.eqb_eq in E. subst d. intros H. injection H as _ ->. reflexivity.
Qed.

Lemma slash_at_head (t : string) : str_in "/" (String "/" t) = true.
Proof.
  rewrite str_in_unfold, prefix_char. reflexivity.
Qed.

(** The regular expression for ratios only matches around a slash. *)
Lemma ratio_search_needs_slash (text : string) :
  forall prev, search_from ratio_re prev text = true -> str_in "/" text = true.
Proof.
  induction text as [|c t IH]; intros prev H; cbn [search_from] in H.
  - exfalso. revert H. destruct prev; vm_compute; discriminate.
  - destruct (existsb (fun atoms => match_seq atoms prev (String c t)) ratio_re)
      eqn:E.
    + clear H IH. unfold ratio_re in E. cbn [existsb] in E.
      rewrite orb_false_r in E. cbn [match_seq] in E.
      destruct (xorb prev (next_is_word (String c t))); [|discriminate].
      destruct (is_word_char c); [|discriminate].
      apply many_reaches in E as (b1 & a1 & p1 & E1 & H1).
      apply many_reaches in H1 as (b2 & a2 & p2 & E2 & H2).
      destruct (eat "/" p2 a2) as [[p3 a3]|] eqn:Ee; [|discriminate].
      apply eat_char in Ee. subst a2 a1.
      change (String c t) with (String c EmptyString ++ t)%string.
      rewrite E1. apply str_in_skip, str_in_skip, str_in_skip, slash_at_head.
    + rewrite str_in_unfold. rewrite (IH _ H). apply orb_true_r.
Qed.

Lemma ratio_re_needs_slash (text : string) :
  re_search ratio_re text = true -> str_in "/" text = true.
Proof.
  apply ratio_search_needs_slash.
Qed.

Lemma not_a_catalog_name (tag : string) :
  mem tag (map name all_concepts) = false ->
  forall text, ~ In tag (matched_names text).
Proof.
  intros H text Hin. apply matched_names_in_catalog in Hin.
  apply mem_In in Hin. congruence.
Qed.

End TaggerRules.

(** X1: two texts that differ only in the case of their letters get the same
    tags. *)
Theorem tagger_ignores_case (text1 text2 : string) :
  lower text1 = lower text2 -> identify_concepts text1 = identify_concepts text2.
Proof.
  intros H. rewrite <- (identify_concepts_lower text1),
                    <- (identify_concepts_lower text2), H. reflexivity.
Qed.

Lemma tagger_ignores_case_witness :
  identify_concepts "Gross Margin %" = identify_concepts "GROSS margin %".
Proof.
  apply (tagger_ignores_case "Gross Margin %" "GROSS margin %"). reflexivity.
Defined.

(** X2: a text is tagged "ratio calculation" exactly when it contains a
    slash; the regular expression [\b\w+\s*/\s*\w+\b] adds nothing to the
    test ['/' in text]. *)
Theorem ratio_tag_iff_slash (text : string) :
  In "ratio calculation" (identify_concepts text) <-> str_in "/" text = true.
Proof.
  rewrite identify_concepts_In. split.
  - intros [H|[H|H]].
    + exfalso. revert H. apply not_a_catalog_name. reflexivity.
    + rewrite <- slash_in_lower. unfold _identify_patterns in H.
      rewrite !in_app_iff in H.
      destruct H as [H|[H|[H|H]]]; apply when_In in H as [Hb [E|[]]];
        try discriminate E.
      apply orb_true_iff in Hb as [Hb|Hb]; [|exact Hb].
      apply ratio_re_needs_slash, Hb.
    + unfold _identify_formula_concepts in H.
      destruct (startswith text "="); [|contradiction]. cbn [negb] in H.
      rewrite !in_app_iff in H.
      repeat match goal with
             | H : _ \/ _ |- _ => destruct H as [H|H]
             end;
        apply when_In in H as [Hb H]; simpl in H;
        repeat match goal with
               | H : _ \/ _ |- _ => destruct H as [H|H]
               end; try discriminate H; try contradiction.
      apply andb_true_iff in Hb as [Hb _]. exact Hb.
  - intros H. right. left. unfold _identify_patterns.
    rewrite slash_in_lower, H, orb_true_r. now left.
Qed.

Lemma ratio_tag_iff_slash_witness :
  In "ratio calculation" (identify_concepts "Cost / Unit").
Proof.
  apply (proj2 (ratio_tag_iff_slash "Cost / Unit")). reflexivity.
Defined.

(** X3: whatever the text, the tags of the tagger are pairwise different and
    each is the name of a catalog concept or one of the nine labels of the
    pattern and formula rules. *)
Theorem tagger_answers_within_vocabulary (text : string) :
  NoDup (identify_concepts text)
  /\ forall tag, In tag (identify_concepts text) -> In tag tagger_vocabulary.
Proof.
  split.
  - apply dedup_NoDup.
  - intros tag. apply identify_concepts_vocabulary.
Qed.

Lemma tagger_answers_within_vocabulary_witness :
  In "total revenue" (identify_concepts "Total Revenue")
  /\ In "total revenue" tagger_vocabulary.
Proof.
  assert (H : In "total revenue" (identify_concepts "Total Revenue"))
    by (vm_compute; tauto).
  split; [exact H|].
  exact (proj2 (tagger_answers_within_vocabulary "Total Revenue") _ H).
Defined.

(** X4: the tag "aggregation formula" is given exactly to the texts that
    begin with [=] and contain [sum(] in any case: the formula rules of the
    tagger look at nothing that does not begin with [=]. *)
Theorem aggregation_tag_iff_sum_formula (text : string) :
  In "aggregation formula" (identify_concepts text)
  <-> startswith text "=" = true /\ str_in "sum(" (lower text) = true.
Proof.
  rewrite identify_concepts_In. split.
  - intros [H|[H|H]].
    + exfalso. revert H. apply not_a_catalog_name. reflexivity.
    + exfalso. apply identify_patterns_labels in H. simpl in H.
      repeat destruct H as [H|H]; try discriminate H; contradiction.
    + unfold _identify_formula_concepts in H.
      destruct (startswith text "="); [|contradiction]. cbn [negb] in H.
      split; [reflexivity|].
      rewrite !in_app_iff in H.
      repeat match goal with
             | H : _ \/ _ |- _ => destruct H as [H|H]
             end;
        apply when_In in H as [Hb H]; simpl in H;
        repeat match goal with
               | H : _ \/ _ |- _ => destruct H as [H|H]
               end; try discriminate H; try contradiction.
      exact Hb.
  - intros [Hs Hsum]. right. right. unfold _identify_formula_concepts.
    rewrite Hs, Hsum. cbn. tauto.
Qed.

Lemma aggregation_tag_iff_sum_formula_witness :
  In "aggregation formula" (identify_concepts "=SUM(B2:B4)").
Proof.
  apply (proj2 (aggregation_tag_iff_sum_formula "=SUM(B2:B4)")).
  split; reflexivity.
Defined.

(* ================================================================== *)
(** * The lookups of the mapper *)

Section MapperFacts.

Lemma has_name_iff (n : string) (c : BusinessConcept) :
  has_name n c = true <-> name c = n.
Proof. unfold has_name. apply String.eqb_eq. Qed.

Lemma category_has_name (n : string) (entry : string * list BusinessConcept) :
  existsb (has_name n) (snd entry) = true <-> In n (map name (snd entry)).
Proof.
  rewrite existsb_exists, in_map_iff. split.
  - intros (c & Hc & E). apply has_name_iff in E. eauto.
  - intros (c & E & Hc). exists c. split; [assumption | now apply has_name_iff].
Qed.

Lemma catalog_name_has_category (n : string) :
  In n (map name all_concepts)
  <-> exists entry, In entry concepts /\ In n (map name (snd entry)).
Proof.
  unfold all_concepts. rewrite in_map_iff. split.
  - intros (c & E & Hc). apply in_flat_map in Hc as (entry & He & Hc).
    exists entry. split; [assumption|]. apply in_map_iff. eauto.
  - intros (entry & He & Hn). apply in_map_iff in Hn as (c & E & Hc).
    exists c. split; [assumption|]. apply in_flat_map. eauto.
Qed.

Lemma related_In (n m : string) :
  In m (get_related_concepts n)
  <-> exists entry,
        In entry concepts
        /\ In n (map name (snd entry)) /\ In m (map name (snd entry)) /\ m <> n.
Proof.
  unfold get_related_concepts. rewrite in_flat_map. split.
  - intros (entry & He & H).
    destruct (existsb (has_name n) (snd entry)) eqn:E; [|contradiction].
    apply category_has_name in E. apply in_map_iff in H as (c & Ec & Hc).
    apply filter_In in Hc as [Hc Hn]. exists entry. repeat split; try assumption.
    + apply in_map_iff. eauto.
    + intros ->. apply negb_true_iff in Hn.
      assert (has_name (name c) c = true) by now apply has_name_iff.
      subst. congruence.
  - intros (entry & He & Hn & Hm & Hneq). exists entry. split; [assumption|].
    apply category_has_name in Hn. rewrite Hn.
    apply in_map_iff in Hm as (c & Ec & Hc). apply in_map_iff. exists c.
    split; [assumption|]. apply filter_In. split; [assumption|].
    apply negb_true_iff. destruct (has_name n c) eqn:E; [|reflexivity].
    apply has_name_iff in E. congruence.
Qed.

Lemma related_of_catalog_name (n m : string) :
  In m (get_related_concepts n) -> In n (map name all_concepts).
Proof.
  rewrite related_In, catalog_name_has_category.
  intros (entry & He & Hn & _). eauto.
Qed.

End MapperFacts.

(** X5: the category of a name is "unknown" exactly when no catalog concept
    has that name, and the category found for a catalog concept is the
    category that the concept itself records. *)
Theorem category_lookup (concept_name : string) :
  (get_concept_category concept_name = "unknown"
   <-> ~ In concept_name (map name all_concepts))
  /\ (forall concept, In concept all_concepts ->
                      get_concept_category (name concept) = category concept).
Proof.
  split.
  - unfold get_concept_category.
    destruct (find _ concepts) as [entry|] eqn:E.
    + apply find_some in E as [He Hn]. apply category_has_name in Hn.
      split.
      * intros Hu. exfalso.
        assert (Hk : In (fst entry) (map fst concepts)) by now apply in_map.
        rewrite Hu in Hk. revert Hk. apply not_mem_not_In. reflexivity.
      * intros Hno. exfalso. apply Hno, catalog_name_has_category. eauto.
    + split; [|reflexivity]. intros _ Hin.
      apply catalog_name_has_category in Hin as (entry & He & Hn).
      apply category_has_name in Hn.
      pose proof (find_none _ _ E entry He) as Hf. cbv beta in Hf. congruence.
  - intros concept Hc.
    assert (H : forallb (fun c => String.eqb (get_concept_category (name c))
                                             (category c))
                        all_concepts = true) by (vm_compute; reflexivity).
    rewrite forallb_forall in H. apply String.eqb_eq, H, Hc.
Qed.

Lemma category_lookup_witness :
  get_concept_category "EBITDA" = "profitability".
Proof.
  apply (proj2 (category_lookup "EBITDA")
               {| name := "EBITDA";
                  synonyms := ["earnings before interest tax depreciation amortization"];
                  keywords := ["ebitda"; "earnings"; "cash flow proxy"];
                  description := "Operating performance measure";
                  category := "profitability" |}).
  vm_compute. do 3 right. left. reflexivity.
Defined.

(** X6: the related concepts of a name are the other names of its category:
    a name is never related to itself, relatedness is symmetric, related
    names have the same category, and a name outside the catalog has no
    related concept. *)
Theorem related_concepts_share_the_category (n : string) :
  ~ In n (get_related_concepts n)
  /\ (forall m, In m (get_related_concepts n) ->
                In n (get_related_concepts m)
                /\ get_concept_category m = get_concept_category n)
  /\ (~ In n (map name all_concepts) -> get_related_concepts n = []).
Proof.
  split; [|split].
  - rewrite related_In. intros (entry & _ & _ & _ & Hneq). now apply Hneq.
  - intros m Hm. split.
    + apply related_In in Hm as (entry & He & Hn & Hm & Hneq).
      apply related_In. exists entry. repeat split; try assumption.
      intros E. now apply Hneq.
    + pose proof (related_of_catalog_name n m Hm) as Hn.
      assert (H : forallb (fun n' =>
                             forallb (fun m' =>
                                        String.eqb (get_concept_category m')
                                                   (get_concept_category n'))
                                     (get_related_concepts n'))
                          (map name all_concepts) = true)
        by (vm_compute; reflexivity).
      rewrite forallb_forall in H. specialize (H n Hn).
      rewrite forallb_forall in H. apply String.eqb_eq, H, Hm.
  - intros Hno. destruct (get_related_concepts n) as [|m rest] eqn:E;
      [reflexivity|]. exfalso. apply Hno, (related_of_catalog_name n m).
    rewrite E. now left.
Qed.

Lemma related_concepts_share_the_category_witness :
  In "operating margin" (get_related_concepts "EBITDA")
  /\ In "EBITDA" (get_related_concepts "operating margin")
  /\ get_related_concepts "ratio calculation" = [].
Proof.
  assert (H : In "operating margin" (get_related_concepts "EBITDA"))
    by (vm_compute; tauto).
  split; [exact H|]. split.
  - apply (proj1 (proj2 (related_concepts_share_the_category "EBITDA"))
                 "operating margin" H).
  - apply (proj2 (proj2 (related_concepts_share_the_category "ratio calculation"))).
    apply not_mem_not_In. reflexivity.
Defined.

(* ================================================================== *)
(** * More on the indexer *)

Section IndexFacts.

Context (rt : Runtime) (sheet : string).

Lemma enumerate_from_In {A : Type} (l : list A) :
  forall (k i : Z) (x : A),
    In (i, x) (enumerate_from k l) ->
    exists n, i = k + Z.of_nat n /\ nth_error l n = Some x.
Proof.
  induction l as [|y t IH]; intros k i x H; [contradiction|].
  destruct H as [H|H].
  - injection H as <- <-. exists 0%nat. split; [lia | reflexivity].
  - apply IH in H as (n & -> & Hn). exists (S n). split; [lia | exact Hn].
Qed.

Lemma process_cell_In (headers : list (Z * string)) (i j : Z) (v : Value)
      (cell : SpreadsheetCell rt) :
  In cell (process_cell rt sheet headers i j v)
  <-> is_blank v = false /\ cell = new_cell rt sheet headers i j v.
Proof.
  unfold process_cell. destruct (is_blank v); simpl.
  - split; [contradiction | intros [H _]; discriminate].
  - split; [intros [<-|[]]; auto | intros [_ ->]; now left].
Qed.

(** The index of a sheet, position by position. *)
Lemma process_sheet_In (data : list (list Value)) (cell : SpreadsheetCell rt) :
  In cell (_process_sheet rt sheet data)
  <-> exists r c rowl v,
        nth_error data r = Some rowl /\ nth_error rowl c = Some v
        /\ is_blank v = false
        /\ cell = new_cell rt sheet (sheet_headers data)
                           (Z.of_nat r) (Z.of_nat c) v.
Proof.
  split.
  - unfold _process_sheet. intros H.
    apply in_flat_map in H as ([i rowl] & Hr & H).
    apply in_flat_map in H as ([j v] & Hc & H). cbn [fst snd] in H.
    apply enumerate_from_In in Hr as (r & -> & Hr).
    apply enumerate_from_In in Hc as (c & -> & Hc).
    apply process_cell_In in H as [Hb ->].
    exists r, c, rowl, v. auto.
  - intros (r & c & rowl & v & Hr & Hc & Hb & ->).
    now apply process_sheet_complete with rowl.
Qed.

Lemma lookup_beyond (f : Z * Value -> list (Z * string)) (l : list Value) :
  (forall p q, In q (f p) -> fst q = fst p) ->
  forall k i, i < k -> lookup i (flat_map f (enumerate_from k l)) = None.
Proof.
  intros Hf. induction l as [|x t IH]; intros k i Hi; [reflexivity|].
  cbn [enumerate_from flat_map].
  assert (Hhead : forall hs, (forall q, In q hs -> fst q = k) ->
                             lookup i (hs ++ flat_map f (enumerate_from (k + 1) t))
                             = None).
  { induction hs as [|[k' h] hs IHh]; intros Hq; simpl.
    - apply IH. lia.
    - assert (k' = k) by (apply (Hq (k', h)); now left). subst k'.
      destruct (Z.eqb_spec i k); [lia|]. apply IHh.
      intros q Hin. apply Hq. now right. }
  apply Hhead. intros q Hq. apply (Hf _ _ Hq).
Qed.

(** The header of a column, read from the dictionary of the headers. *)
Lemma lookup_header (data : list (list Value)) (c : nat) :
  match lookup (Z.of_nat c) (sheet_headers data) with
  | Some h => h
  | None => ""
  end = first_row_header data c.
Proof.
  unfold sheet_headers, first_row_header. destruct data as [|row0 _]; [reflexivity|].
  unfold enumerate.
  set (f := fun p : Z * Value =>
              match snd p with
              | VStr val => if nonempty (strip val) then [(fst p, strip val)] else []
              | _ => []
              end).
  assert (Hf : forall p q, In q (f p) -> fst q = fst p).
  { intros [i v] q. unfold f. cbn [fst snd].
    destruct v as [|val| |]; try contradiction.
    destruct (nonempty (strip val)); [|contradiction].
    intros [<-|[]]. reflexivity. }
  assert (H : forall l k c',
             match lookup (k + Z.of_nat c') (flat_map f (enumerate_from k l)) with
             | Some h => h
             | None => ""
             end
             = match nth_error l c' with
               | Some (VStr val) => strip val
               | _ => ""
               end).
  { induction l as [|x t IH]; intros k c'; [destruct c'; reflexivity|].
    cbn [enumerate_from flat_map]. destruct c' as [|c'].
    - replace (k + Z.of_nat 0) with k by lia. cbn [nth_error].
      unfold f at 1. cbn [fst snd].
      assert (Hnone : lookup k (flat_map f (enumerate_from (k + 1) t)) = None)
        by (apply lookup_beyond; [exact Hf | lia]).
      destruct x as [|val| |]; cbn [app]; try (now rewrite Hnone).
      destruct (nonempty (strip val)) eqn:E; cbn [app].
      + cbn [lookup]. now rewrite Z.eqb_refl.
      + rewrite Hnone. destruct (strip val); [reflexivity | discriminate].
    - replace (k + Z.of_nat (S c')) with (k + 1 + Z.of_nat c') by lia.
      cbn [nth_error]. rewrite <- (IH (k + 1) c').
      unfold f at 1. cbn [fst snd].
      assert (Hskip : forall (h : string) (rest : list (Z * string)),
                 lookup (k + 1 + Z.of_nat c') ((k, h) :: rest)
                 = lookup (k + 1 + Z.of_nat c') rest).
      { intros h rest. cbn [lookup].
        destruct (Z.eqb_spec (k + 1 + Z.of_nat c') k); [lia | reflexivity]. }
      destruct x as [|val| |]; cbn [app]; try reflexivity.
      destruct (nonempty (strip val)); cbn [app]; [now rewrite Hskip | reflexivity]. }
  apply (H row0 0 c).
Qed.

Lemma row_count (headers : list (Z * string)) (i : Z) (l : list Value) :
  forall k,
    List.length (flat_map (fun c => process_cell rt sheet headers i (fst c) (snd c))
                          (enumerate_from k l))
    = List.length (filter (fun v => negb (is_blank v)) l).
Proof.
  induction l as [|v t IH]; intros k; [reflexivity|].
  cbn [enumerate_from flat_map filter fst snd]. rewrite length_app, IH.
  unfold process_cell. destruct (is_blank v); reflexivity.
Qed.

Lemma sheet_count (headers : list (Z * string)) (data : list (list Value)) :
  forall k,
    List.length
      (flat_map (fun r =>
                   flat_map (fun c => process_cell rt sheet headers
                                                   (fst r) (fst c) (snd c))
                            (enumerate (snd r)))
                (enumerate_from k data))
    = List.length (filter (fun v => negb (is_blank v)) (List.concat data)).
Proof.
  induction data as [|rowl t IH]; intros k; [reflexivity|].
  cbn [enumerate_from flat_map List.concat fst snd].
  rewrite length_app, filter_app, length_app, IH. f_equal. apply row_count.
Qed.

Lemma strongly_sorted_app {A : Type} (R : A -> A -> Prop) (l1 l2 : list A) :
  StronglySorted R l1 -> StronglySorted R l2 ->
  (forall a b, In a l1 -> In b l2 -> R a b) ->
  StronglySorted R (l1 ++ l2).
Proof.
  induction l1 as [|x t IH]; intros H1 H2 H12; [exact H2|].
  inversion H1 as [|? ? Ht Hx]; subst. cbn [app]. constructor.
  - apply IH; [assumption | assumption |].
    intros a b Ha Hb. apply H12; [now right | assumption].
  - apply Forall_app. split; [assumption|].
    apply Forall_forall. intros b Hb. apply H12; [now left | assumption].
Qed.

(** The cells of one row, in the order of the columns. *)
Lemma row_sorted (headers : list (Z * string)) (i : Z) (l : list Value) :
  forall k,
    let cells_of_row :=
      flat_map (fun c => process_cell rt sheet headers i (fst c) (snd c))
               (enumerate_from k l) in
    StronglySorted (fun a b => before (position a) (position b)) cells_of_row
    /\ forall cell, In cell cells_of_row -> row cell = i /\ k <= col cell.
Proof.
  induction l as [|v t IH]; intros k; cbn zeta.
  - split; [constructor | contradiction].
  - cbn [enumerate_from flat_map fst snd].
    destruct (IH (k + 1)) as [Hs Hb]. cbn zeta in Hs, Hb.
    unfold process_cell at 1 3. destruct (is_blank v); cbn [app].
    + split; [exact Hs|]. intros cell Hc. destruct (Hb cell Hc). split; lia.
    + split.
      * constructor; [exact Hs|]. apply Forall_forall. intros b Hin.
        destruct (Hb b Hin) as [Hr Hc]. right. cbn. split; [now rewrite Hr | lia].
      * intros cell [<-|Hc]; [cbn; split; lia|].
        destruct (Hb cell Hc). split; lia.
Qed.

Lemma sheet_sorted (headers : list (Z * string)) (data : list (list Value)) :
  forall k,
    let cells_of_sheet :=
      flat_map (fun r =>
                  flat_map (fun c => process_cell rt sheet headers
                                                  (fst r) (fst c) (snd c))
                           (enumerate (snd r)))
               (enumerate_from k data) in
    StronglySorted (fun a b => before (position a) (position b)) cells_of_sheet
    /\ forall cell, In cell cells_of_sheet -> k <= row cell.
Proof.
  induction data as [|rowl t IH]; intros k; cbn zeta.
  - split; [constructor | contradiction].
  - cbn [enumerate_from flat_map fst snd].
    destruct (IH (k + 1)) as [Hs Hb]. cbn zeta in Hs, Hb.
    destruct (row_sorted headers k rowl 0) as [Hrs Hrb]. cbn zeta in Hrs, Hrb.
    split.
    + apply strongly_sorted_app; [exact Hrs | exact Hs |].
      intros a b Ha Hb'. left. cbn.
      destruct (Hrb a Ha) as [-> _]. specialize (Hb b Hb'). lia.
    + intros cell Hc. apply in_app_or in Hc as [Hc|Hc].
      * destruct (Hrb cell Hc). lia.
      * specialize (Hb cell Hc). lia.
Qed.

Lemma before_irreflexive (p : Z * Z) : ~ before p p.
Proof. unfold before. lia. Qed.

Lemma strongly_sorted_NoDup {A B : Type} (f : A -> B) (R : B -> B -> Prop)
      (l : list A) :
  (forall b, ~ R b b) ->
  StronglySorted (fun x y => R (f x) (f y)) l -> NoDup (map f l).
Proof.
  intros Hirr Hs. induction Hs as [|a l Hs IH Hall]; cbn [map]; constructor.
  - intros Hin. apply in_map_iff in Hin as (b & E & Hb).
    rewrite Forall_forall in Hall. specialize (Hall b Hb). cbv beta in Hall.
    rewrite E in Hall. exact (Hirr _ Hall).
  - exact IH.
Qed.

End IndexFacts.

(** X7: the index of a sheet holds exactly one kind of cell: at a grid
    position whose value is not blank, with that value, with the value as
    formula when it is a string that begins with [=] and no formula
    otherwise, with the stripped string of the first row of its column as
    header context when there is one, with the tags of [_identify_concepts],
    and without embedding yet. *)
Theorem index_holds_the_filled_positions
        (rt : Runtime) (sheet : string) (data : list (list Value))
        (cell : SpreadsheetCell rt) :
  In cell (_process_sheet rt sheet data)
  <-> exists (r c : nat) (rowl : list Value),
        nth_error data r = Some rowl
        /\ nth_error rowl c = Some (value cell)
        /\ is_blank (value cell) = false
        /\ sheet_name cell = sheet
        /\ row cell = Z.of_nat r /\ col cell = Z.of_nat c
        /\ formula cell = match value cell with
                          | VStr s => if startswith s "=" then s else ""
                          | _ => ""
                          end
        /\ header_context cell = first_row_header data c
        /\ business_concepts cell
           = _identify_concepts (value cell) (formula cell)
                                (header_context cell) sheet
        /\ semantic_embedding cell = None.
Proof.
  rewrite process_sheet_In. split.
  - intros (r & c & rowl & v & Hr & Hc & Hb & ->).
    exists r, c, rowl. cbn [value new_cell sheet_name row col formula
                            header_context business_concepts semantic_embedding].
    repeat split; try assumption. apply lookup_header.
  - intros (r & c & rowl & Hr & Hc & Hb & Hs & Hrow & Hcol & Hf & Hh & Ht & He).
    exists r, c, rowl, (value cell). repeat split; try assumption.
    destruct cell as [sn rw cl v f h tags emb].
    cbn [value sheet_name row col formula header_context business_concepts
         semantic_embedding] in *.
    unfold new_cell. rewrite lookup_header. subst. reflexivity.
Qed.

Lemma index_holds_the_filled_positions_witness :
  In (new_cell (Samples.constant_runtime 0.5) "S" [] 0 0 (VInt 5))
     (_process_sheet (Samples.constant_runtime 0.5) "S" [[VInt 5]]).
Proof.
  apply (proj2 (index_holds_the_filled_positions
                  (Samples.constant_runtime 0.5) "S" [[VInt 5]] _)).
  exists 0%nat, 0%nat, [VInt 5]. repeat split; reflexivity.
Defined.

(** X8: the index of a sheet has as many cells as the sheet has values that
    are not blank. *)
Theorem index_counts_the_filled_positions
        (rt : Runtime) (sheet : string) (data : list (list Value)) :
  List.length (_process_sheet rt sheet data)
  = List.length (filter (fun v => negb (is_blank v)) (List.concat data)).
Proof.
  unfold _process_sheet, enumerate. apply sheet_count.
Qed.

(** X9: the cells of a sheet are emitted in row-major order, each strictly
    before all the later ones, so that no two cells of a sheet have the same
    position. *)
Theorem index_is_row_major
        (rt : Runtime) (sheet : string) (data : list (list Value)) :
  StronglySorted (fun a b => before (position a) (position b))
                 (_process_sheet rt sheet data)
  /\ NoDup (map position (_process_sheet rt sheet data)).
Proof.
  assert (Hs : StronglySorted (fun a b => before (position a) (position b))
                              (_process_sheet rt sheet data)).
  { unfold _process_sheet, enumerate.
    apply (sheet_sorted rt sheet (sheet_headers data) data 0). }
  split; [exact Hs|].
  apply (strongly_sorted_NoDup position before); [apply before_irreflexive | exact Hs].
Qed.

(* ================================================================== *)
(** * The tags of a cell *)

Section CellTags.

Lemma analyze_formula_labels (formula header tag : string) :
  In tag (_analyze_formula_concepts formula header) ->
  In tag ["ratio calculation"; "profitability metric"; "aggregation formula";
          "revenue calculation"; "cost calculation"; "average calculation";
          "conditional calculation"; "lookup formula"].
Proof.
  unfold _analyze_formula_concepts. rewrite !in_app_iff. intros H.
  repeat match goal with
         | H : _ \/ _ |- _ => destruct H as [H|H]
         | H : In _ (when _ _) |- _ => apply when_In in H as [_ H]
         | H : In _ (_ ++ _) |- _ => apply in_app_or in H
         | H : In _ (if ?b then _ else _) |- _ => destruct b
         | H : In _ (_ :: _) |- _ => destruct H as [<-|H]
         | H : In _ [] |- _ => destruct H
         end; simpl; tauto.
Qed.

Lemma analyze_value_number (v : Value) (header context tag : string) :
  is_number v = true ->
  (In tag (_analyze_value_concepts v header context)
   <-> tag = "monetary value"
       /\ gt_1000 v = true
       /\ any_in ["revenue"; "sales"; "income"; "profit"; "cost"; "expense"]
                 (lower context) = true).
Proof.
  intros Hn. unfold _analyze_value_concepts. rewrite Hn.
  destruct v as [|s|n|x]; try discriminate Hn; cbn [when app andb].
  - destruct (gt_1000 (VInt n)); cbn [when].
    + destruct (any_in _ (lower context)); simpl; intuition congruence.
    + simpl. intuition congruence.
  - destruct (gt_1000 (VFloat x)); cbn [when].
    + destruct (any_in _ (lower context)); simpl; intuition congruence.
    + simpl. intuition congruence.
Qed.

Lemma identify_concepts_cell_In (v : Value) (formula header sheet tag : string) :
  In tag (_identify_concepts v formula header sheet)
  <-> In tag (identify_concepts (context_text v formula header sheet))
      \/ (nonempty formula = true
          /\ In tag (_analyze_formula_concepts formula header))
      \/ (is_number v = true
          /\ In tag (_analyze_value_concepts
                       v header (context_text v formula header sheet))).
Proof.
  unfold _identify_concepts. rewrite dedup_In, !in_app_iff.
  destruct (nonempty formula), (is_number v); cbn [when In];
    intuition congruence.
Qed.

Lemma context_text_is_lower (v : Value) (formula header sheet : string) :
  lower (context_text v formula header sheet) = context_text v formula header sheet.
Proof.
  unfold context_text. apply lower_idempotent.
Qed.

Lemma append_startswith (h rest : string) :
  nonempty h = true -> startswith (h ++ rest) "=" = startswith h "=".
Proof.
  destruct h as [|c h]; [discriminate|]. intros _.
  unfold startswith. cbn [String.append]. now rewrite !prefix_char.
Qed.

Lemma join_cons (sep p : string) (rest : list string) :
  rest <> [] -> join sep (p :: rest) = (p ++ sep ++ join sep rest)%string.
Proof.
  destruct rest; [congruence | reflexivity].
Qed.

End CellTags.

(** X10: the tags that the indexer gives a cell are pairwise different; each
    is a tag of the tagger or one of the labels of the formula and value
    rules of the indexer, and none is "percentage value": the rule for
    strings with a percent sign is only reached for numbers. *)
Theorem cell_tags_vocabulary (v : Value) (formula header sheet : string) :
  NoDup (_identify_concepts v formula header sheet)
  /\ forall tag,
      In tag (_identify_concepts v formula header sheet) ->
      (In tag tagger_vocabulary \/ In tag indexer_labels)
      /\ tag <> "percentage value".
Proof.
  split; [apply dedup_NoDup|].
  intros tag H.
  destruct (proj1 (identify_concepts_cell_In v formula header sheet tag) H)
    as [H'|[[_ H']|[Hn H']]]; clear H; rename H' into H.
  - apply identify_concepts_vocabulary in H. split; [now left|].
    intros ->. revert H. apply not_mem_not_In. reflexivity.
  - apply analyze_formula_labels in H. split.
    + right. revert tag H. apply all_mem_incl. reflexivity.
    + intros ->. revert H. apply not_mem_not_In. reflexivity.
  - apply (analyze_value_number v header _ tag Hn) in H as [-> _].
    split; [|discriminate]. right. apply mem_In. reflexivity.
Qed.

Lemma cell_tags_vocabulary_witness :
  In "monetary value" (_identify_concepts (VInt 15000) "" "Total Revenue" "Sheet1")
  /\ (In "monetary value" tagger_vocabulary \/ In "monetary value" indexer_labels).
Proof.
  assert (H : In "monetary value"
                 (_identify_concepts (VInt 15000) "" "Total Revenue" "Sheet1"))
    by (vm_compute; tauto).
  split; [exact H|].
  exact (proj1 (proj2 (cell_tags_vocabulary (VInt 15000) "" "Total Revenue" "Sheet1")
                      "monetary value" H)).
Defined.

(** X11: a cell is tagged "monetary value" exactly when its value is a
    number above 1000 and its context string contains one of revenue, sales,
    income, profit, cost, expense. *)
Theorem monetary_tag_iff (v : Value) (formula header sheet : string) :
  In "monetary value" (_identify_concepts v formula header sheet)
  <-> gt_1000 v = true
      /\ any_in ["revenue"; "sales"; "income"; "profit"; "cost"; "expense"]
                (context_text v formula header sheet) = true.
Proof.
  rewrite identify_concepts_cell_In. split.
  - intros [H|[[_ H]|[Hn H]]].
    + exfalso. apply identify_concepts_vocabulary in H. revert H.
      apply not_mem_not_In. reflexivity.
    + exfalso. apply analyze_formula_labels in H. revert H.
      apply not_mem_not_In. reflexivity.
    + apply (analyze_value_number v header _ _ Hn) in H as (_ & Hg & Ha).
      rewrite context_text_is_lower in Ha. auto.
  - intros [Hg Ha]. right. right.
    assert (Hn : is_number v = true) by (destruct v; try discriminate Hg; reflexivity).
    split; [exact Hn|]. apply (analyze_value_number v header _ _ Hn).
    rewrite context_text_is_lower. auto.
Qed.

Lemma monetary_tag_iff_witness :
  In "monetary value" (_identify_concepts (VInt 15000) "" "Total Revenue" "Sheet1").
Proof.
  apply (proj2 (monetary_tag_iff (VInt 15000) "" "Total Revenue" "Sheet1")).
  split; reflexivity.
Defined.

(** X12: under a header context that does not begin with [=], the formula
    rules of the tagger contribute nothing to the tags of the context
    string, because the string begins with the header. *)
Theorem header_silences_formula_rules (v : Value) (formula header sheet : string) :
  nonempty header = true -> startswith header "=" = false ->
  _identify_formula_concepts (context_text v formula header sheet) = [].
Proof.
  intros Hh He. unfold _identify_formula_concepts, context_text.
  rewrite startswith_eq_lower. unfold context_parts. rewrite Hh. cbn [when app].
  rewrite join_cons.
  - rewrite (append_startswith header _ Hh), He. reflexivity.
  - destruct v; destruct (nonempty formula); discriminate.
Qed.

Lemma header_silences_formula_rules_witness :
  _identify_formula_concepts (context_text (VStr "=B8/B2") "=B8/B2" "Q1 2024" "Revenue")
  = []
  /\ In "percentage calculation" (identify_concepts "=B8/B2")
  /\ ~ In "percentage calculation"
          (_identify_concepts (VStr "=B8/B2") "=B8/B2" "Q1 2024" "Revenue").
Proof.
  split; [|split].
  - apply (header_silences_formula_rules (VStr "=B8/B2") "=B8/B2" "Q1 2024" "Revenue");
      reflexivity.
  - vm_compute. tauto.
  - apply not_mem_not_In. vm_compute. reflexivity.
Defined.

(* ================================================================== *)
(** * Loading *)

Section LoadFacts.

Context {rt : Runtime} (self : SemanticSearchEngine rt)
        (sheets : list (string * list (list Value))).

Lemma loaded_cells_In (cell : SpreadsheetCell rt) :
  In cell (cells (load_spreadsheet_data self sheets))
  <-> exists sheet data raw,
        In (sheet, data) sheets
        /\ In raw (_process_sheet rt sheet data)
        /\ cell = {| sheet_name := sheet_name raw;
                     row := row raw;
                     col := col raw;
                     value := value raw;
                     formula := formula raw;
                     header_context := header_context raw;
                     business_concepts := business_concepts raw;
                     semantic_embedding := Some (encode rt (rich_text raw)) |}.
Proof.
  cbn [load_spreadsheet_data cells]. unfold _compute_cell_embeddings.
  rewrite in_map_iff. split.
  - intros (raw & <- & Hraw). apply in_flat_map in Hraw as ([sheet data] & Hs & Hraw).
    exists sheet, data, raw. auto.
  - intros (sheet & data & raw & Hs & Hraw & ->). exists raw. split; [reflexivity|].
    apply in_flat_map. exists (sheet, data). auto.
Qed.

Lemma loaded_cells_length :
  List.length (cells (load_spreadsheet_data self sheets))
  = List.length (filter (fun v => negb (is_blank v))
                        (flat_map (fun sh => List.concat (snd sh)) sheets)).
Proof.
  cbn [load_spreadsheet_data cells]. unfold _compute_cell_embeddings.
  rewrite length_map. induction sheets as [|[sheet data] rest IH]; [reflexivity|].
  cbn [flat_map fst snd]. rewrite length_app, filter_app, length_app, IH.
  f_equal. unfold _process_sheet, enumerate. apply sheet_count.
Qed.

End LoadFacts.

(** X13: after a load, whatever the engine held before, every cell carries
    the embedding of its own rich text, so that a search skips none, and the
    engine holds as many cells as the sheets have values that are not
    blank. *)
Theorem load_embeds_every_filled_position
        (rt : Runtime) (self : SemanticSearchEngine rt)
        (sheets : list (string * list (list Value))) :
  (forall cell,
      In cell (cells (load_spreadsheet_data self sheets)) ->
      semantic_embedding cell = Some (encode rt (rich_text cell)))
  /\ List.length (cells (load_spreadsheet_data self sheets))
     = List.length (filter (fun v => negb (is_blank v))
                           (flat_map (fun sh => List.concat (snd sh)) sheets)).
Proof.
  split; [|apply loaded_cells_length].
  intros cell H. apply loaded_cells_In in H as (sheet & data & raw & _ & _ & ->).
  reflexivity.
Qed.

Lemma load_embeds_every_filled_position_witness :
  let cell := nth 0 (cells (Samples.engine 0.5))
                  (new_cell (Samples.constant_runtime 0.5) "" [] 0 0 VNone) in
  In cell (cells (Samples.engine 0.5))
  /\ semantic_embedding cell = Some (encode _ (rich_text cell)).
Proof.
  cbv zeta.
  assert (H : In (nth 0 (cells (Samples.engine 0.5))
                      (new_cell (Samples.constant_runtime 0.5) "" [] 0 0 VNone))
                 (cells (Samples.engine 0.5)))
    by (vm_compute; left; reflexivity).
  split; [exact H|].
  exact (proj1 (load_embeds_every_filled_position
                  (Samples.constant_runtime 0.5) (init _) Samples.financial_model)
               _ H).
Defined.

(** X14: after a load the engine has data exactly when some sheet has a
    value that is not blank; a workbook of blank cells leaves it without
    data, and every search then returns nothing. *)
Theorem has_data_iff_some_value
        (rt : Runtime) (self : SemanticSearchEngine rt)
        (sheets : list (string * list (list Value))) :
  (has_data (load_spreadsheet_data self sheets) = true
   <-> exists sheet data rowl v,
         In (sheet, data) sheets /\ In rowl data /\ In v rowl
         /\ is_blank v = false)
  /\ (has_data (load_spreadsheet_data self sheets) = false ->
      forall query max_results,
        search (load_spreadsheet_data self sheets) query max_results = []).
Proof.
  split.
  - unfold has_data. rewrite Z.ltb_lt, loaded_cells_length. split.
    + intros Hlen.
      destruct (filter _ _) as [|v rest] eqn:E; [simpl in Hlen; lia|].
      assert (Hv : In v (filter (fun v => negb (is_blank v))
                                (flat_map (fun sh => List.concat (snd sh)) sheets)))
        by (rewrite E; now left).
      apply filter_In in Hv as [Hv Hb]. apply negb_true_iff in Hb.
      apply in_flat_map in Hv as ([sheet data] & Hs & Hv). cbn [snd] in Hv.
      apply in_concat in Hv as (rowl & Hr & Hv).
      exists sheet, data, rowl, v. auto.
    + intros (sheet & data & rowl & v & Hs & Hr & Hv & Hb).
      assert (Hin : In v (filter (fun v => negb (is_blank v))
                                 (flat_map (fun sh => List.concat (snd sh)) sheets))).
      { apply filter_In. split; [|now rewrite Hb].
        apply in_flat_map. exists (sheet, data). split; [assumption|].
        apply in_concat. eauto. }
      destruct (filter _ _); [contradiction | simpl; lia].
  - unfold has_data, search. intros H query max_results.
    destruct (cells (load_spreadsheet_data self sheets)); [reflexivity|].
    simpl in H. discriminate.
Qed.

Lemma has_data_iff_some_value_witness :
  has_data (load_spreadsheet_data (init (Samples.constant_runtime 0.5))
                                  [("Empty", [[VStr ""; VNone]; [VStr "  "]])])
  = false
  /\ search (load_spreadsheet_data (init (Samples.constant_runtime 0.5))
                                   [("Empty", [[VStr ""; VNone]; [VStr "  "]])])
            "revenue" 10 = [].
Proof.
  assert (H : has_data (load_spreadsheet_data
                          (init (Samples.constant_runtime 0.5))
                          [("Empty", [[VStr ""; VNone]; [VStr "  "]])]) = false)
    by reflexivity.
  split; [exact H|].
  exact (proj2 (has_data_iff_some_value _ (init _)
                  [("Empty", [[VStr ""; VNone]; [VStr "  "]])]) H "revenue" 10).
Defined.

(* ================================================================== *)
(** * More on the ranking *)

Section RankingFacts.

Local Open Scope Q_scope.

Lemma descending_transitive {A : Type} (key : A -> Q) :
  Relations_1.Transitive (descending key).
Proof.
  intros a b c Hab Hbc. unfold descending in *. now apply Qle_trans with (key b).
Qed.

Lemma strongly_sorted_split {A : Type} (R : A -> A -> Prop) (l1 l2 : list A) :
  StronglySorted R (l1 ++ l2) ->
  forall x y, In x l1 -> In y l2 -> R x y.
Proof.
  induction l1 as [|a t IH]; intros Hs x y Hx Hy; [contradiction|].
  cbn [app] in Hs. inversion Hs as [|? ? Ht Ha]; subst.
  destruct Hx as [<-|Hx].
  - rewrite Forall_forall in Ha. apply Ha, in_or_app. now right.
  - now apply IH.
Qed.

Context {rt : Runtime} (self : SemanticSearchEngine rt) (query : string).

(** The results in descending order, before the slice. *)
Lemma ranked_strongly_sorted :
  StronglySorted (descending Models.relevance_score)
                 (list_sort Models.relevance_score true (search_results self query)).
Proof.
  apply Sorted_StronglySorted; [apply descending_transitive|].
  apply list_sort_reverse_sorted.
Qed.

Lemma search_results_length :
  List.length (search_results self query)
  = List.length (filter (is_hit self query) (cells self)).
Proof.
  unfold search_results. induction (cells self) as [|cell t IH]; [reflexivity|].
  cbn [flat_map filter]. rewrite length_app, IH.
  unfold search_cell, is_hit. destruct (semantic_embedding cell); [|reflexivity].
  destruct (Qgtb _ 0.1); reflexivity.
Qed.

Lemma len_ratio_at_most_one (xs ys : list string) :
  len_ratio (set_inter xs ys) ys <= 1.
Proof.
  assert (Hlen : (List.length (set_inter xs ys) <= List.length ys)%nat).
  { apply NoDup_incl_length; [apply dedup_NoDup|].
    intros x Hx. now apply set_inter_In in Hx. }
  unfold len_ratio. destruct ys as [|y t].
  - cbn [List.length] in *. unfold Qdiv. cbn. rewrite Qmult_0_r. discriminate.
  - apply Qle_shift_div_r.
    + change 0 with (inject_Z 0). rewrite <- Zlt_Qlt. cbn [List.length]. lia.
    + rewrite Qmult_1_l. rewrite <- Zle_Qle. lia.
Qed.

Lemma overlap_term_at_most (w : Q) (text query_lower : string) :
  0 <= w -> overlap_term w text query_lower <= w.
Proof.
  intros Hw. unfold overlap_term.
  pose proof (len_ratio_at_most_one (split (lower text)) (split query_lower)) as H.
  destruct (set_inter _ _) as [|x t]; [exact Hw|].
  generalize dependent (len_ratio (x :: t) (split query_lower)).
  intros r Hr. nra.
Qed.

End RankingFacts.

(** X15: whatever [max_results] is, a search returns the best of the hits:
    the returned results together with the dropped ones are the results that
    the loop produced, and no dropped result scores higher than a returned
    one. *)
Theorem search_returns_the_best
        (rt : Runtime) (self : SemanticSearchEngine rt) (query : string)
        (max_results : Z) :
  exists dropped,
    Permutation (search self query max_results ++ dropped)
                (search_results self query)
    /\ forall x y,
        In x (search self query max_results) -> In y dropped ->
        (Models.relevance_score y <= Models.relevance_score x)%Q.
Proof.
  rewrite search_unfold.
  set (ranked := list_sort Models.relevance_score true (search_results self query)).
  destruct (slice_to_firstn max_results ranked) as [n ->].
  exists (skipn n ranked). split.
  - rewrite firstn_skipn. apply list_sort_perm.
  - intros x y Hx Hy.
    apply (strongly_sorted_split (descending Models.relevance_score)
                                 (firstn n ranked) (skipn n ranked));
      [|assumption|assumption].
    rewrite firstn_skipn. apply ranked_strongly_sorted.
Qed.

Lemma search_returns_the_best_witness :
  exists dropped,
    Permutation (search (Samples.engine (-0.5)) "total revenue" 2 ++ dropped)
                (search_results (Samples.engine (-0.5)) "total revenue")
    /\ forall x y,
        In x (search (Samples.engine (-0.5)) "total revenue" 2) -> In y dropped ->
        (Models.relevance_score y <= Models.relevance_score x)%Q.
Proof.
  exact (search_returns_the_best _ (Samples.engine (-0.5)) "total revenue" 2).
Defined.

(** X16: with a non-negative [max_results] a search returns that many
    results or, when there are fewer, all the hits: the cells that have an
    embedding and a score above 0.1; it loses nothing when [max_results] is
    at least the number of hits. *)
Theorem search_returns_min_of_bound_and_hits
        (rt : Runtime) (self : SemanticSearchEngine rt) (query : string)
        (max_results : Z) :
  (0 <= max_results)%Z ->
  let hits := Z.of_nat (List.length (filter (is_hit self query) (cells self))) in
  Z.of_nat (List.length (search self query max_results)) = Z.min max_results hits
  /\ ((hits <= max_results)%Z ->
      Permutation (search self query max_results) (search_results self query)).
Proof.
  intros Hk hits. unfold hits. rewrite <- search_results_length, search_unfold.
  set (ranked := list_sort Models.relevance_score true (search_results self query)).
  assert (Hlen : List.length ranked = List.length (search_results self query))
    by apply Permutation_length, list_sort_perm.
  unfold slice_to. destruct (Z.leb_spec 0 max_results); [|lia]. split.
  - rewrite length_firstn, Hlen. lia.
  - intros Hall. rewrite firstn_all2 by lia. apply list_sort_perm.
Qed.

Lemma search_returns_min_of_bound_and_hits_witness :
  Z.of_nat (List.length (search (Samples.engine 0.5) "total revenue" 4))
  = Z.min 4 (Z.of_nat (List.length (filter (is_hit (Samples.engine 0.5)
                                                  "total revenue")
                                           (cells (Samples.engine 0.5))))).
Proof.
  apply (search_returns_min_of_bound_and_hits _ (Samples.engine 0.5)
                                              "total revenue" 4).
  lia.
Defined.

(** X17: the contextual relevance never exceeds 0.5, so its cap at 1.0 is
    never reached: the contextual relevance of a cell is the share of the
    header (when the cell has one) plus the share of the sheet name, as they
    are. *)
Theorem contextual_relevance_at_most_half
        (rt : Runtime) (query : string) (cell : SpreadsheetCell rt) :
  between 0 0.5 (_calculate_contextual_relevance query cell)
  /\ (_calculate_contextual_relevance query cell
      == (if nonempty (header_context cell)
          then overlap_term 0.3 (header_context cell) (lower query)
          else 0)
         + overlap_term 0.2 (sheet_name cell) (lower query))%Q.
Proof.
  pose proof (overlap_term_at_most 0.3 (header_context cell) (lower query)
                                   ltac:(discriminate)) as H1.
  pose proof (overlap_term_at_most 0.2 (sheet_name cell) (lower query)
                                   ltac:(discriminate)) as H2.
  pose proof (overlap_term_nonneg 0.3 (header_context cell) (lower query)
                                  ltac:(discriminate)) as H3.
  pose proof (overlap_term_nonneg 0.2 (sheet_name cell) (lower query)
                                  ltac:(discriminate)) as H4.
  unfold between, _calculate_contextual_relevance, py_min.
  destruct (Qgtb _ 1.0) eqn:E;
    [apply Qgtb_true in E|];
    destruct (nonempty (header_context cell)); repeat split; lra.
Qed.

(* ================================================================== *)
(** * The expansion of the query *)

Section QueryExpansion.

Context {rt : Runtime}.

Lemma join_prefix (sep p : string) (rest : list string) :
  exists tail, join sep (p :: rest) = (p ++ tail)%string.
Proof.
  destruct rest as [|r rest].
  - exists "". cbn [join]. now rewrite append_empty.
  - eexists. reflexivity.
Qed.

Lemma precompute_is_map :
  _precompute_concept_embeddings rt
  = map (fun c => (name c, encode rt (concept_text c))) all_concepts.
Proof.
  unfold _precompute_concept_embeddings, get_all_concepts, all_concepts.
  induction concepts as [|entry rest IH]; [reflexivity|].
  cbn [flat_map]. rewrite map_app, IH. reflexivity.
Qed.

Lemma expansion_is_filter (query : string) (l : list BusinessConcept) :
  flat_map (fun entry : string * Embedding rt =>
              when (Qgtb (cosine_similarity rt (encode rt query) (snd entry)) 0.3)
                   [fst entry])
           (map (fun c => (name c, encode rt (concept_text c))) l)
  = map name (filter (expands rt query) l).
Proof.
  induction l as [|c t IH]; [reflexivity|].
  cbn [map flat_map filter fst snd]. rewrite IH. unfold expands at 2.
  destruct (Qgtb _ 0.3); reflexivity.
Qed.

End QueryExpansion.

(** X18: the expanded query begins with the query itself; when the engine
    holds the embeddings that its constructor computes, the expansion is the
    query followed by the names of the catalog concepts whose similarity to
    the query exceeds 0.3, in catalog order. *)
Theorem query_expansion
        (rt : Runtime) (self : SemanticSearchEngine rt) (query : string) :
  (exists tail, _process_query self query = (query ++ tail)%string)
  /\ (concept_embeddings self = _precompute_concept_embeddings rt ->
      _process_query self query
      = join " " (query :: map name (filter (expands rt query) all_concepts))).
Proof.
  split.
  - unfold _process_query. cbn [app]. apply join_prefix.
  - intros H. unfold _process_query. rewrite H, precompute_is_map.
    cbn [app]. now rewrite expansion_is_filter.
Qed.

Lemma query_expansion_witness :
  _process_query (Samples.engine 0.5) "margin"
  = join " " ("margin" :: map name (filter (expands (Samples.constant_runtime 0.5)
                                                    "margin") all_concepts)).
Proof.
  apply (proj2 (query_expansion _ (Samples.engine 0.5) "margin")). reflexivity.
Defined.

(* ================================================================== *)
(** * Addresses are unambiguous *)

Section References.

Lemma to_int_proper (n : Z) :
  Z.to_int n <> Decimal.Pos Decimal.Nil /\ Z.to_int n <> Decimal.Neg Decimal.Nil.
Proof.
  destruct n as [|p|p]; cbn [Z.to_int]; split; try discriminate;
    intros H; injection H as H; exact (DecimalPos.Unsigned.to_uint_nonnil p H).
Qed.

Lemma str_int_injective (n m : Z) : str_int n = str_int m -> n = m.
Proof.
  unfold str_int. intros H. apply DecimalZ.to_int_inj.
  destruct (to_int_proper n) as [Hn1 Hn2], (to_int_proper m) as [Hm1 Hm2].
  pose proof (NilZero.isi (Z.to_int n) Hn1 Hn2) as En.
  pose proof (NilZero.isi (Z.to_int m) Hm1 Hm2) as Em.
  rewrite H in En. rewrite En in Em. now injection Em.
Qed.

Lemma uint_string_head (d : Decimal.uint) :
  exists c t, NilZero.string_of_uint d = String c t /\ is_upper c = false.
Proof.
  destruct d; cbn; eexists; eexists; split; reflexivity.
Qed.

(** The decimal of an integer begins with a digit or a minus sign. *)
Lemma str_int_head (n : Z) :
  exists c t, str_int n = String c t /\ is_upper c = false.
Proof.
  unfold str_int. destruct (Z.to_int n) as [d|d]; cbn [NilZero.string_of_int].
  - apply uint_string_head.
  - eexists; eexists; split; reflexivity.
Qed.

Lemma letters_then_other (l1 : string) :
  forall (l2 d1 d2 : string) (c1 c2 : ascii) (t1 t2 : string),
    all_letters l1 = true -> all_letters l2 = true ->
    d1 = String c1 t1 -> is_upper c1 = false ->
    d2 = String c2 t2 -> is_upper c2 = false ->
    (l1 ++ d1 = l2 ++ d2)%string -> l1 = l2 /\ d1 = d2.
Proof.
  induction l1 as [|a l1 IH]; intros l2 d1 d2 c1 c2 t1 t2 H1 H2 E1 U1 E2 U2 H.
  - destruct l2 as [|b l2]; [auto|]. exfalso.
    cbn [String.append] in H. subst d1. injection H as -> _.
    cbn [all_letters] in H2. apply andb_true_iff in H2 as [H2 _]. congruence.
  - destruct l2 as [|b l2].
    + exfalso. cbn [String.append] in H. subst d2. injection H as -> _.
      cbn [all_letters] in H1. apply andb_true_iff in H1 as [H1 _]. congruence.
    + cbn [String.append] in H. injection H as -> H.
      cbn [all_letters] in H1, H2.
      apply andb_true_iff in H1 as [_ H1]. apply andb_true_iff in H2 as [_ H2].
      destruct (IH l2 d1 d2 c1 c2 t1 t2 H1 H2 E1 U1 E2 U2 H) as [-> ->]. auto.
Qed.

Lemma column_letters_all_letters (col : Z) : all_letters (column_letters col) = true.
Proof.
  unfold column_letters. apply loop_all_letters. reflexivity.
Qed.

Lemma column_letters_injective (c1 c2 : Z) :
  0 <= c1 -> 0 <= c2 -> column_letters c1 = column_letters c2 -> c1 = c2.
Proof.
  intros H1 H2 E.
  pose proof (column_letters_decode c1) as D1.
  pose proof (column_letters_decode c2) as D2.
  rewrite E in D1. rewrite D1 in D2. lia.
Qed.

End References.

(** X19: two cells of non-negative columns have the same reference only if
    they have the same row and the same column. *)
Theorem cell_reference_injective (row1 col1 row2 col2 : Z) :
  0 <= col1 -> 0 <= col2 ->
  _get_excel_cell_reference row1 col1 = _get_excel_cell_reference row2 col2 ->
  row1 = row2 /\ col1 = col2.
Proof.
  intros H1 H2 E. unfold _get_excel_cell_reference in E.
  destruct (str_int_head (row1 + 1)) as (c1 & t1 & E1 & U1).
  destruct (str_int_head (row2 + 1)) as (c2 & t2 & E2 & U2).
  destruct (letters_then_other _ _ _ _ c1 c2 t1 t2
              (column_letters_all_letters col1) (column_letters_all_letters col2)
              E1 U1 E2 U2 E) as [El Ed].
  split.
  - apply str_int_injective in Ed. lia.
  - now apply column_letters_injective.
Qed.

Lemma cell_reference_injective_witness :
  _get_excel_cell_reference 4 27 = _get_excel_cell_reference (2 + 2) (26 + 1)
  /\ 4 = 2 + 2 /\ 27 = 26 + 1.
Proof.
  split; [reflexivity|].
  apply (cell_reference_injective 4 27 (2 + 2) (26 + 1)); [lia | lia | reflexivity].
Defined.

(* ================================================================== *)
(** * The loader *)

Section LoaderFacts.

Lemma fold_filled (rows : list (list Value)) :
  forall acc,
    fold_left (fun acc' row => acc' + filled_cells row) rows acc
    = acc + Z.of_nat (List.length
                        (filter (fun cell => negb (is_empty_cell cell))
                                (List.concat rows))).
Proof.
  induction rows as [|row t IH]; intros acc; cbn [fold_left List.concat].
  - cbn. lia.
  - rewrite IH, filter_app, length_app. unfold filled_cells. lia.
Qed.

Lemma fold_sheets (sheets : list (string * list (list Value))) :
  forall acc,
    fold_left (fun acc sheet =>
                 fold_left (fun acc' row => acc' + filled_cells row)
                           (snd sheet) acc)
              sheets acc
    = acc + Z.of_nat (List.length
                        (filter (fun cell => negb (is_empty_cell cell))
                                (flat_map (fun sh => List.concat (snd sh)) sheets))).
Proof.
  induction sheets as [|sheet t IH]; intros acc; cbn [fold_left flat_map].
  - cbn. lia.
  - rewrite IH, fold_filled, filter_app, length_app. lia.
Qed.

Lemma empty_is_blank (v : Value) : is_empty_cell v = true -> is_blank v = true.
Proof.
  destruct v as [|s| |]; cbn; try discriminate; [reflexivity|].
  intros H. apply String.eqb_eq in H. subst. reflexivity.
Qed.

Lemma count_split (l : list Value) :
  List.length (filter (fun v => negb (is_empty_cell v)) l)
  = (List.length (filter (fun v => negb (is_blank v)) l)
     + List.length (filter (fun v => is_blank v && negb (is_empty_cell v)) l))%nat.
Proof.
  induction l as [|v t IH]; [reflexivity|]. cbn [filter].
  pose proof (empty_is_blank v) as He.
  destruct (is_empty_cell v), (is_blank v); cbn [negb andb List.length];
    try lia; specialize (He eq_refl); discriminate.
Qed.

Lemma preview_data_some (data : Workbook) (sheet_name : option string)
      (max_rows : Z) (p : Preview) :
  preview_data data sheet_name max_rows = Some p ->
  exists n, preview_sheet data n max_rows = Some p.
Proof.
  unfold preview_data.
  destruct sheet_name as [n|]; [destruct (nonempty n); [eauto|]|];
    (destruct (wb_sheets data) as [|[first rows] rest]; [discriminate|];
     destruct (nonempty first); [eauto | discriminate]).
Qed.

End LoaderFacts.

(** X20: the number of cells in the summary of a workbook is the number of
    cells that loading it indexes plus the number of strings that are not
    empty but consist of white space only: the summary counts them, the
    indexer skips them. *)
Theorem summary_counts_indexed_cells_and_blank_strings
        (rt : Runtime) (self : SemanticSearchEngine rt) (data : Workbook) :
  total_cells (get_spreadsheet_summary data)
  = Z.of_nat (List.length (cells (load_spreadsheet_data self (wb_sheets data))))
    + Z.of_nat (List.length
                  (filter (fun v => is_blank v && negb (is_empty_cell v))
                          (flat_map (fun sh => List.concat (snd sh))
                                    (wb_sheets data)))).
Proof.
  cbn [total_cells get_spreadsheet_summary].
  rewrite fold_sheets, loaded_cells_length, count_split. lia.
Qed.

(** X21: a preview shows the first rows of a sheet of the workbook: with a
    non-negative [max_rows] as many as [max_rows] allows, with a negative
    one all but that many rows from the end; the numbers of rows that it
    reports are the numbers of rows of the sheet and of the preview. *)
Theorem preview_shows_leading_rows
        (data : Workbook) (sheet_name : option string) (max_rows : Z)
        (p : Preview) :
  preview_data data sheet_name max_rows = Some p ->
  exists sheet_data rest,
    get_sheet_data data (preview_sheet_name p) = Some sheet_data
    /\ sheet_data = (preview_data_rows p ++ rest)%list
    /\ preview_total_rows p = Z.of_nat (List.length sheet_data)
    /\ showing_rows p = Z.of_nat (List.length (preview_data_rows p))
    /\ (0 <= max_rows -> showing_rows p = Z.min max_rows (preview_total_rows p))
    /\ (max_rows < 0 ->
        showing_rows p = Z.max 0 (preview_total_rows p + max_rows)).
Proof.
  intros H. apply preview_data_some in H as (n & H).
  unfold preview_sheet in H. unfold get_sheet_data.
  destruct (sheet_lookup n (wb_sheets data)) as [sheet_data|] eqn:E; [|discriminate].
  injection H as <-.
  cbn [preview_sheet_name preview_data_rows preview_total_rows showing_rows].
  rewrite E. exists sheet_data.
  destruct (Z.ltb_spec max_rows (Z.of_nat (List.length sheet_data))) as [Hlt|Hge].
  - destruct (slice_to_firstn max_rows sheet_data) as [k Hk].
    exists (skipn k sheet_data). rewrite Hk, firstn_skipn.
    repeat split; try reflexivity.
    + intros H0. rewrite <- Hk. unfold slice_to.
      destruct (Z.leb_spec 0 max_rows); [|lia]. rewrite length_firstn. lia.
    + intros H0. rewrite <- Hk. now apply slice_to_negative_length.
  - exists []. rewrite app_nil_r. repeat split; try reflexivity; lia.
Qed.

Lemma preview_shows_leading_rows_witness :
  let wb := {| wb_name := Some "demo"; wb_sheets := Samples.financial_model |} in
  exists p,
    preview_data wb None 2 = Some p
    /\ showing_rows p = Z.min 2 (preview_total_rows p).
Proof.
  cbv zeta. eexists. split; [reflexivity|].
  destruct (preview_shows_leading_rows
              {| wb_name := Some "demo"; wb_sheets := Samples.financial_model |}
              None 2 _ eq_refl) as (sd & rest & _ & _ & _ & _ & Hmin & _).
  apply Hmin. lia.
Defined.

(* ================================================================== *)
(** * The sheets of an Excel file *)

Section ExcelRows.

Context (rt : Runtime) (sheet : string).

Lemma process_sheet_unfold (data : list (list Value)) :
  _process_sheet rt sheet data = sheet_cells rt sheet (sheet_headers data) (enumerate data).
Proof. reflexivity. Qed.

Lemma enumerate_from_app {A : Type} (a b : list A) :
  forall k,
    enumerate_from k (a ++ b)
    = (enumerate_from k a ++ enumerate_from (k + Z.of_nat (List.length a)) b)%list.
Proof.
  induction a as [|x t IH]; intros k; cbn [app enumerate_from List.length].
  - f_equal. lia.
  - rewrite IH. do 3 f_equal. lia.
Qed.

Lemma empty_row_no_cells (headers : list (Z * string)) (i : Z) (rowl : list Value) :
  forallb is_empty_cell rowl = true ->
  forall k, row_cells rt sheet headers i (enumerate_from k rowl) = [].
Proof.
  unfold row_cells. induction rowl as [|v t IH]; intros H k; [reflexivity|].
  cbn [forallb] in H. apply andb_true_iff in H as [Hv Ht].
  cbn [enumerate_from flat_map fst snd]. rewrite (IH Ht).
  unfold process_cell. now rewrite (empty_is_blank v Hv).
Qed.

Lemma empty_rows_no_cells (headers : list (Z * string)) (rows : list (list Value)) :
  Forall (fun rowl => forallb is_empty_cell rowl = true) rows ->
  forall k, sheet_cells rt sheet headers (enumerate_from k rows) = [].
Proof.
  unfold sheet_cells. induction 1 as [|rowl t Hr Ht IH]; intros k; [reflexivity|].
  cbn [enumerate_from flat_map fst snd]. rewrite IH.
  unfold enumerate. now rewrite (empty_row_no_cells headers k rowl Hr).
Qed.

(** Rows of empty cells at the end of a sheet change nothing in the index. *)
Lemma trailing_empty_rows (kept dropped : list (list Value)) :
  Forall (fun rowl => forallb is_empty_cell rowl = true) dropped ->
  _process_sheet rt sheet (kept ++ dropped) = _process_sheet rt sheet kept.
Proof.
  intros Hd. rewrite !process_sheet_unfold. unfold enumerate.
  rewrite enumerate_from_app. unfold sheet_cells at 1. rewrite flat_map_app.
  fold (sheet_cells rt sheet (sheet_headers (kept ++ dropped))
                    (enumerate_from (0 + Z.of_nat (List.length kept)) dropped)).
  rewrite (empty_rows_no_cells _ dropped Hd), app_nil_r.
  destruct kept as [|row0 rest]; reflexivity.
Qed.

Lemma cleaned_headers (rowl : list Value) :
  forall k,
    flat_map (fun p : Z * Value =>
                match snd p with
                | VStr val => if nonempty (strip val) then [(fst p, strip val)]
                              else []
                | _ => []
                end)
             (enumerate_from k (cleaned_row rowl))
    = flat_map (fun p : Z * Value =>
                  match snd p with
                  | VStr val => if nonempty (strip val) then [(fst p, strip val)]
                                else []
                  | _ => []
                  end)
               (enumerate_from k rowl).
Proof.
  induction rowl as [|v t IH]; intros k; [reflexivity|].
  cbn [cleaned_row map enumerate_from flat_map fst snd].
  fold (cleaned_row t). rewrite IH. destruct v; reflexivity.
Qed.

Lemma cleaned_row_cells (headers : list (Z * string)) (i : Z) (rowl : list Value) :
  forall k,
    row_cells rt sheet headers i (enumerate_from k (cleaned_row rowl))
    = row_cells rt sheet headers i (enumerate_from k rowl).
Proof.
  unfold row_cells. induction rowl as [|v t IH]; intros k; [reflexivity|].
  cbn [cleaned_row map enumerate_from flat_map fst snd].
  fold (cleaned_row t). rewrite IH. destruct v; reflexivity.
Qed.

Lemma cleaned_sheet_cells (headers : list (Z * string)) (rows : list (list Value)) :
  forall k,
    sheet_cells rt sheet headers (enumerate_from k (map cleaned_row rows))
    = sheet_cells rt sheet headers (enumerate_from k rows).
Proof.
  unfold sheet_cells. induction rows as [|rowl t IH]; intros k; [reflexivity|].
  cbn [map enumerate_from flat_map fst snd]. rewrite IH.
  unfold enumerate. now rewrite cleaned_row_cells.
Qed.

(** Writing [""] for [None] changes nothing in the index. *)
Lemma cleaned_rows (rows : list (list Value)) :
  _process_sheet rt sheet (map cleaned_row rows) = _process_sheet rt sheet rows.
Proof.
  rewrite !process_sheet_unfold. unfold enumerate. rewrite cleaned_sheet_cells.
  f_equal. destruct rows as [|row0 rest]; [reflexivity|].
  cbn [map sheet_headers]. unfold enumerate. apply cleaned_headers.
Qed.

Lemma pop_empty_rows_drops (fuel : nat) :
  forall data,
    exists dropped,
      data = (pop_empty_rows fuel data ++ dropped)%list
      /\ Forall (fun rowl => forallb is_empty_cell rowl = true) dropped.
Proof.
  induction fuel as [|fuel IH]; intros data; cbn [pop_empty_rows].
  - exists []. now rewrite app_nil_r.
  - destruct data as [|r0 rest]; [exists []; auto|].
    destruct (forallb is_empty_cell (last (r0 :: rest) [])) eqn:E.
    + destruct (IH (removelast (r0 :: rest))) as (dropped & Hd & Hall).
      exists (dropped ++ [last (r0 :: rest) []])%list. split.
      * rewrite app_assoc, <- Hd. apply app_removelast_last. discriminate.
      * apply Forall_app. split; [assumption|]. now constructor.
    + exists []. now rewrite app_nil_r.
Qed.

Lemma removelast_length {A : Type} (l : list A) :
  l <> [] -> S (List.length (removelast l)) = List.length l.
Proof.
  intros H. destruct l as [|x t]; [congruence|].
  rewrite (app_removelast_last x H) at 2. rewrite length_app. cbn. lia.
Qed.

Lemma pop_empty_rows_done (fuel : nat) :
  forall data,
    (List.length data <= fuel)%nat ->
    pop_empty_rows fuel data = []
    \/ forallb is_empty_cell (last (pop_empty_rows fuel data) []) = false.
Proof.
  induction fuel as [|fuel IH]; intros data Hlen; cbn [pop_empty_rows].
  - left. destruct data; [reflexivity | cbn in Hlen; lia].
  - destruct data as [|r0 rest]; [now left|].
    destruct (forallb is_empty_cell (last (r0 :: rest) [])) eqn:E; [|now right].
    apply IH.
    pose proof (removelast_length (r0 :: rest) ltac:(discriminate)). lia.
Qed.

End ExcelRows.

(** X22: the sheet data that the loader builds from the rows of an Excel
    sheet indexes like the rows themselves: writing [""] for [None] and
    dropping the rows of empty cells at the end removes no cell and moves
    none; the sheet data holds no [None], and either is empty or ends with
    a row that has a cell that is not empty. *)
Theorem excel_cleaning_preserves_index
        (rt : Runtime) (sheet : string) (rows : list (list Value)) :
  _process_sheet rt sheet (excel_sheet_data rows) = _process_sheet rt sheet rows
  /\ (forall rowl, In rowl (excel_sheet_data rows) -> ~ In VNone rowl)
  /\ (excel_sheet_data rows = []
      \/ forallb is_empty_cell (last (excel_sheet_data rows) []) = false).
Proof.
  unfold excel_sheet_data.
  destruct (pop_empty_rows_drops (List.length (map cleaned_row rows))
                                 (map cleaned_row rows)) as (dropped & Hd & Hall).
  pose proof (pop_empty_rows_done (List.length (map cleaned_row rows))
                                  (map cleaned_row rows) (Nat.le_refl _)) as Hdone.
  remember (pop_empty_rows (List.length (map cleaned_row rows))
                           (map cleaned_row rows)) as kept eqn:Ek.
  split; [|split; [|exact Hdone]].
  - rewrite <- (cleaned_rows rt sheet rows), Hd.
    symmetry. now apply trailing_empty_rows.
  - intros rowl Hin Hnone.
    assert (Hin' : In rowl (map cleaned_row rows))
      by (rewrite Hd; apply in_or_app; now left).
    apply in_map_iff in Hin' as (raw & <- & _).
    unfold cleaned_row in Hnone. apply in_map_iff in Hnone as (v & Hv & _).
    destruct v; discriminate.
Qed.

Lemma excel_cleaning_preserves_index_witness :
  excel_sheet_data [[VStr "Revenue"; VNone]; [VInt 5; VStr " "]; [VNone; VStr ""]]
  = [[VStr "Revenue"; VStr ""]; [VInt 5; VStr " "]]
  /\ ~ In VNone [VStr "Revenue"; VStr ""].
Proof.
  split; [reflexivity|].
  apply (proj1 (proj2 (excel_cleaning_preserves_index
                         (Samples.constant_runtime 0.5) "S"
                         [[VStr "Revenue"; VNone]; [VInt 5; VStr " "];
                          [VNone; VStr ""]]))).
  left. reflexivity.
Defined.

(* ================================================================== *)
(** * The search endpoint *)

(** X23: the search endpoint never answers with status 400: without data the
    exception of status 400 that its body raises is caught by its own
    handler and leaves as status 500; with data it returns the results of
    [search] with their number, which a non-negative [max_results] bounds. *)
Theorem search_endpoint_outcomes
        (rt : Runtime) (str_exception : Z -> string -> string)
        (search_engine : SemanticSearchEngine rt) (q : Api.SearchQuery) :
  (forall detail,
      Api.search_spreadsheets str_exception search_engine q <> Api.Raised 400 detail)
  /\ (has_data search_engine = false ->
      Api.search_spreadsheets str_exception search_engine q
      = Api.Raised 500
          ("Search error: "
           ++ str_exception 400
                "No spreadsheet data loaded. Please load a file or sample data first."))
  /\ (has_data search_engine = true ->
      exists response,
        Api.search_spreadsheets str_exception search_engine q = Api.Returned response
        /\ Api.response_query response = Api.query q
        /\ Api.results response
           = search search_engine (Api.query q) (Api.max_results q)
        /\ Api.total_results response
           = Z.of_nat (List.length (Api.results response))
        /\ (0 <= Api.max_results q ->
            Api.total_results response <= Api.max_results q)).
Proof.
  unfold Api.search_spreadsheets, Api.search_body.
  destruct (has_data search_engine); cbn [negb].
  - split; [discriminate|]. split; [discriminate|]. intros _.
    eexists. split; [reflexivity|].
    cbn [Api.response_query Api.results Api.total_results].
    repeat split. intros Hk. rewrite search_unfold. now apply slice_to_length.
  - split; [|split; [reflexivity | discriminate]].
    intros detail H. discriminate H.
Qed.

Lemma search_endpoint_outcomes_witness :
  exists detail,
    Api.search_spreadsheets (fun _ d => d) (init (Samples.constant_runtime 0.5))
                            {| Api.query := "revenue"; Api.max_results := 10;
                               Api.include_formulas := true;
                               Api.include_values := true |}
    = Api.Raised 500 detail.
Proof.
  eexists.
  apply (proj1 (proj2 (search_endpoint_outcomes
                         (Samples.constant_runtime 0.5) (fun _ d => d) (init _)
                         {| Api.query := "revenue"; Api.max_results := 10;
                            Api.include_formulas := true;
                            Api.include_values := true |}))).
  reflexivity.
Defined.

(* ================================================================== *)
(** * The explanation of a result *)

Section Explanations.

Lemma prefix_app_app (p a b : string) :
  String.prefix p ((p ++ a) ++ b) = true.
Proof.
  replace ((p ++ a) ++ b)%string with (p ++ (a ++ b))%string.
  - apply prefix_refl_app.
  - induction p as [|c p IH]; cbn [String.append]; [reflexivity|]. now rewrite IH.
Qed.

Lemma prefix_of_join (p tail : string) (rest : list string) :
  String.prefix p (join "; " ((p ++ tail)%string :: rest)) = true.
Proof.
  destruct rest as [|r rest].
  - cbn [join]. apply prefix_refl_app.
  - change (join "; " ((p ++ tail)%string :: r :: rest))
      with ((p ++ tail) ++ ("; " ++ join "; " (r :: rest)))%string.
    apply prefix_app_app.
Qed.

End Explanations.

(** X24: the explanation of a result is never empty, and when a word of
    some tag of the cell occurs in the query it begins with the tags that
    matched. *)
Theorem explanation_is_never_empty
        (rt : Runtime) (query : string) (cell : SpreadsheetCell rt) :
  _generate_explanation query cell <> ""
  /\ ((exists tag, In tag (business_concepts cell)
                   /\ word_match (lower query) tag = true) ->
      String.prefix "Contains " (_generate_explanation query cell) = true).
Proof.
  unfold _generate_explanation. cbv zeta.
  set (matching := filter (word_match (lower query)) (business_concepts cell)).
  split.
  - destruct matching as [|m ms];
      destruct (nonempty (header_context cell));
      destruct (set_inter (split (lower (header_context cell)))
                          (split (lower query)));
      destruct (nonempty (formula cell));
      destruct (any_in ["formula"; "calculation"; "computed"] (lower query));
      destruct (str_in "average" (lower query)
                && str_in "average" (lower (formula cell)));
      destruct (any_in ["sum"; "total"] (lower query)
                && str_in "sum" (lower (formula cell)));
      destruct (set_inter (split (lower (sheet_name cell))) (split (lower query)));
      cbn; discriminate.
  - intros (tag & Hin & Hm).
    assert (Hne : In tag matching) by (apply filter_In; auto).
    destruct matching as [|m ms]; [contradiction|]. cbn [app].
    apply prefix_of_join.
Qed.

Lemma explanation_is_never_empty_witness :
  let cell := nth 1 (cells (Samples.engine 0.5))
                  (new_cell (Samples.constant_runtime 0.5) "" [] 0 0 VNone) in
  String.prefix "Contains " (_generate_explanation "total revenue" cell) = true.
Proof.
  cbv zeta.
  apply (proj2 (explanation_is_never_empty
                  (Samples.constant_runtime 0.5) "total revenue" _)).
  exists "total revenue". split; [vm_compute; tauto | reflexivity].
Defined.

(* ================================================================== *)
(** * The display fields of a result *)

Section DisplayFields.

Lemma title_aux_nonempty (s : string) (b : bool) :
  nonempty (title_aux b s) = nonempty s.
Proof. destruct s; reflexivity. Qed.

Lemma replace_char_nonempty (a b : ascii) (s : string) :
  nonempty (replace_char a b s) = nonempty s.
Proof. destruct s; reflexivity. Qed.

Lemma append_assoc (a b c : string) : ((a ++ b) ++ c = a ++ (b ++ c))%string.
Proof.
  induction a as [|x a IH]; cbn [String.append]; [reflexivity|]. now rewrite IH.
Qed.

Lemma join_ends_with (sep x : string) (l : list string) :
  exists pre, join sep (l ++ [x]) = (pre ++ x)%string.
Proof.
  induction l as [|p t IH].
  - exists "". reflexivity.
  - destruct IH as (pre & E). exists (p ++ sep ++ pre)%string.
    cbn [app]. rewrite join_cons by (destruct t; discriminate).
    rewrite E, !append_assoc. reflexivity.
Qed.

(** No tag of the vocabularies is the empty string. *)
Lemma cell_tags_nonempty (v : Value) (formula header sheet tag : string) :
  In tag (_identify_concepts v formula header sheet) -> nonempty tag = true.
Proof.
  intros H.
  destruct (proj1 (identify_concepts_cell_In v formula header sheet tag) H)
    as [H'|[[_ H']|[Hn H']]]; clear H; rename H' into H.
  - apply identify_concepts_vocabulary in H.
    assert (Hall : forallb nonempty tagger_vocabulary = true) by reflexivity.
    rewrite forallb_forall in Hall. now apply Hall.
  - apply analyze_formula_labels in H.
    repeat destruct H as [<-|H]; try reflexivity. contradiction.
  - apply (analyze_value_number v header _ tag Hn) in H as [-> _]. reflexivity.
Qed.

End DisplayFields.

(** X25: the display name of an indexed cell is never empty: it is the
    header context when there is one, else the first tag in title case, else
    the word Cell with the reference; and the business context of any cell
    ends with the clause that names its sheet. *)
Theorem display_fields_of_indexed_cells
        (rt : Runtime) (sheet : string) (data : list (list Value))
        (cell : SpreadsheetCell rt) :
  In cell (_process_sheet rt sheet data) ->
  _generate_concept_name cell <> ""
  /\ (nonempty (header_context cell) = true ->
      _generate_concept_name cell = header_context cell)
  /\ exists pre,
      _generate_business_context cell
      = (pre ++ "located in the '" ++ sheet ++ "' sheet.")%string.
Proof.
  intros H. apply process_sheet_In in H as (r & c & rowl & v & _ & _ & _ & ->).
  set (cell := new_cell rt sheet (sheet_headers data) (Z.of_nat r) (Z.of_nat c) v).
  assert (Ht : business_concepts cell
               = _identify_concepts v (formula cell) (header_context cell) sheet)
    by reflexivity.
  assert (Hs : sheet_name cell = sheet) by reflexivity.
  clearbody cell. split; [|split].
  - unfold _generate_concept_name.
    destruct (nonempty (header_context cell)) eqn:Eh.
    + intros E. rewrite E in Eh. discriminate.
    + destruct (business_concepts cell) as [|first rest] eqn:Et.
      * discriminate.
      * assert (Hne : nonempty first = true).
        { apply (cell_tags_nonempty v (formula cell) (header_context cell)
                                    sheet first).
          rewrite <- Ht. now left. }
        intros E. unfold title in E.
        pose proof (title_aux_nonempty (replace_char "_" " " first) false) as Hn.
        rewrite replace_char_nonempty, Hne, E in Hn. discriminate.
  - unfold _generate_concept_name. now intros ->.
  - unfold _generate_business_context. cbv zeta. rewrite Hs, app_assoc.
    match goal with
    | |- context [join " " (?l ++ [?x])%list] =>
        destruct (join_ends_with " " x l) as (pre & E)
    end.
    exists pre. rewrite E, !append_assoc. reflexivity.
Qed.

Lemma display_fields_of_indexed_cells_witness :
  let rt := Samples.constant_runtime 0.5 in
  let data := snd (nth 0 Samples.financial_model ("", [])) in
  let cell := nth 4 (_process_sheet rt "Financial Model" data)
                  (new_cell rt "" [] 0 0 VNone) in
  In cell (_process_sheet rt "Financial Model" data)
  /\ _generate_concept_name cell <> "".
Proof.
  cbv zeta.
  assert (H : In (nth 4 (_process_sheet (Samples.constant_runtime 0.5)
                                        "Financial Model"
                                        (snd (nth 0 Samples.financial_model ("", []))))
                      (new_cell (Samples.constant_runtime 0.5) "" [] 0 0 VNone))
                 (_process_sheet (Samples.constant_runtime 0.5) "Financial Model"
                                 (snd (nth 0 Samples.financial_model ("", []))))).
  { vm_compute. do 4 right. left. reflexivity. }
  split; [exact H|].
  exact (proj1 (display_fields_of_indexed_cells _ _ _ _ H)).
Defined.

(* ================================================================== *)
(** * The upload endpoint *)

Section Uploads.

Lemma endswith_app (s suffix : string) :
  Loader.endswith s suffix = true -> exists pre, s = (pre ++ suffix)%string.
Proof.
  induction s as [|c t IH]; cbn [Loader.endswith]; intros H.
  - rewrite orb_false_r in H. apply String.eqb_eq in H. exists "". now subst.
  - apply orb_true_iff in H as [H|H].
    + apply String.eqb_eq in H. exists "". now subst.
    + destruct (IH H) as (pre & ->). now exists (String c pre).
Qed.

Lemma lower_app (a b : string) : lower (a ++ b) = (lower a ++ lower b)%string.
Proof.
  induction a as [|c a IH]; cbn [String.append lower]; [reflexivity|].
  now rewrite IH.
Qed.

Lemma split_on_nonempty (sep : ascii) (s : string) : Api.split_on sep s <> [].
Proof.
  destruct s as [|c t]; cbn [Api.split_on]; [discriminate|].
  destruct (Ascii.eqb c sep); [discriminate|].
  destruct (Api.split_on sep t); discriminate.
Qed.

Lemma last_app_nonempty {A : Type} (l1 l2 : list A) (d : A) :
  l2 <> [] -> last (l1 ++ l2) d = last l2 d.
Proof.
  intros H. induction l1 as [|x t IH]; [reflexivity|].
  cbn [app]. destruct (t ++ l2)%list eqn:E.
  - destruct t; [cbn in E; congruence | discriminate].
  - exact IH.
Qed.

(** The pieces of a text that has a separator: those before it, then the
    pieces of what follows it. *)
Lemma split_on_after (sep : ascii) (pre rest : string) :
  exists pieces,
    pieces <> []
    /\ Api.split_on sep (pre ++ String sep rest)
       = (pieces ++ Api.split_on sep rest)%list.
Proof.
  induction pre as [|c p IH]; cbn [String.append Api.split_on].
  - rewrite Ascii.eqb_refl. exists [""]. split; [discriminate | reflexivity].
  - destruct IH as (pieces & Hne & E). destruct (Ascii.eqb c sep).
    + exists ("" :: pieces). split; [discriminate|]. now rewrite E.
    + rewrite E. destruct pieces as [|h r]; [congruence|]. cbn [app].
      exists (String c h :: r). split; [discriminate | reflexivity].
Qed.

Lemma last_piece (pre ext : string) :
  Api.split_on "." ext = [ext] ->
  last (Api.split_on "." (pre ++ String "." ext)) "" = ext.
Proof.
  intros He. destruct (split_on_after "." pre ext) as (pieces & _ & ->).
  rewrite last_app_nonempty by apply split_on_nonempty. now rewrite He.
Qed.

(** A name that ends in a supported extension passes the check of the
    extension. *)
Lemma extension_accepted (filename ext : string) :
  In ext ["xlsx"; "xls"; "csv"] ->
  Loader.endswith filename (String "." ext) = true ->
  mem (last (Api.split_on "." (lower filename)) "") ["xlsx"; "xls"; "csv"] = true.
Proof.
  intros Hext H. apply endswith_app in H as (pre & ->).
  rewrite lower_app. cbn [lower].
  replace (lower_char ".") with "."%char by reflexivity.
  assert (Hl : lower ext = ext /\ Api.split_on "." ext = [ext]).
  { destruct Hext as [<-|[<-|[<-|[]]]]; split; reflexivity. }
  destruct Hl as [-> Hs]. rewrite (last_piece _ ext Hs).
  apply mem_In. exact Hext.
Qed.

Lemma reader_for_some (filename : string) (reader : Reader) :
  Loader.reader_for filename = Some reader ->
  exists ext, In ext ["xlsx"; "xls"; "csv"]
              /\ Loader.endswith filename (String "." ext) = true.
Proof.
  unfold Loader.reader_for.
  destruct (Loader.endswith filename ".csv") eqn:E1.
  - intros _. exists "csv". split; [simpl; tauto | exact E1].
  - destruct (Loader.endswith filename ".xlsx") eqn:E2.
    + intros _. exists "xlsx". split; [simpl; tauto | exact E2].
    + destruct (Loader.endswith filename ".xls") eqn:E3; [|discriminate].
      intros _. exists "xls". split; [simpl; tauto | exact E3].
Qed.

Lemma endswith_nonempty (s suffix : string) :
  Loader.endswith s suffix = true -> nonempty suffix = true -> nonempty s = true.
Proof.
  destruct s; [|reflexivity]. destruct suffix; [discriminate 2 | discriminate 1].
Qed.

End Uploads.

(** X26: an upload is handed to a reader exactly when its name ends in
    [.csv], [.xlsx] or [.xls] in lower case and it has at most 50 MB; the
    check of the extension ignores the case and the loader does not, so a
    name such as DATA.XLSX passes the check and is then refused with status
    500, not 400. *)
Theorem upload_route
        (filename : string) (size : Z) (reader : Reader) :
  (Api.load_file_route filename size = Api.Handed reader
   <-> Loader.reader_for filename = Some reader /\ size <= Api.MAX_FILE_SIZE)
  /\ Api.load_file_route "DATA.XLSX" 1024
     = Api.Refused 500 ("Error loading file: "
                        ++ Loader.unsupported_message "DATA.XLSX").
Proof.
  split; [|reflexivity]. split.
  - unfold Api.load_file_route. cbv zeta.
    destruct (nonempty filename); cbn [negb]; [|discriminate].
    destruct (mem _ _); cbn [negb]; [|discriminate].
    destruct (Z.ltb_spec Api.MAX_FILE_SIZE size) as [Hs|Hs]; [discriminate|].
    destruct (Loader.reader_for filename); [|discriminate].
    intros E. injection E as ->. auto.
  - intros [Hr Hs]. unfold Api.load_file_route. cbv zeta.
    destruct (reader_for_some filename reader Hr) as (ext & Hext & He).
    rewrite (endswith_nonempty filename _ He eq_refl). cbn [negb].
    rewrite (extension_accepted filename ext Hext He). cbn [negb].
    destruct (Z.ltb_spec Api.MAX_FILE_SIZE size); [lia|].
    now rewrite Hr.
Qed.

Lemma upload_route_witness :
  Api.load_file_route "model.v2.xlsx" 2048 = Api.Handed ExcelReader.
Proof.
  apply (proj2 (proj1 (upload_route "model.v2.xlsx" 2048 ExcelReader))).
  split; [reflexivity | unfold Api.MAX_FILE_SIZE; lia].
Defined.
